(** * Sequana's VCF filters ([sequana/vcf_filter.py],
      [sequana/freebayes_vcf_filter.py])

    A shallow embedding of the class [VCF_mpileup_4dot1]: the threshold
    evaluator [_filter_info_field], the built-in filters [is_indel],
    [is_valid_af1] and [is_valid_dp4], the per-record decision
    [_filter_line] and the pass [filter_vcf], together with the part of the
    Python runtime these methods rely on (exceptions, [str] methods, [int]
    and [float] conversion, mixed [int]/[float] arithmetic on IEEE binary64);
    and of the class [VCF_freebayes] with its parameters and its
    [_filter_line], the annotation reader of [Variant] and the column index
    of [Filtered_freebayes].

    Layout: the Python runtime (module [Py]), the data model, the methods of
    [VCF_mpileup_4dot1] in source order, the freebayes classes (module
    [Freebayes]), then the properties. *)

From Stdlib Require Import ZArith String Ascii List Bool Lia.
From Stdlib Require Import SpecFloat DecimalString.
From stdpp Require Import base option strings gmap.

Local Open Scope string_scope.
Local Open Scope list_scope.

(* ===================================================================== *)
(** * The Python runtime used by the filter                               *)
(* ===================================================================== *)

Module Py.

(** ** Exceptions

    The exception classes the methods can raise.  [RecursionError] is what
    the fuel of [_filter_info_field] stands for (it is shown unreachable);
    [NotModelled] marks the results of [eval] on text outside the fragment
    of Python expressions embedded here. *)

Inductive exn : Type :=
  | KeyError
  | ValueError
  | IndexError
  | TypeError
  | ZeroDivisionError
  | OverflowError
  | RecursionError
  | NotModelled.

Inductive res (A : Type) : Type :=
  | Ret (a : A)
  | Raise (e : exn).

Arguments Ret {A} a.
Arguments Raise {A} e.

Definition bind {A B : Type} (m : res A) (k : A -> res B) : res B :=
  match m with
  | Ret a => k a
  | Raise e => Raise e
  end.

Notation "x <- m ;; k" := (bind m (fun x => k))
  (at level 100, m at next level, right associativity).

(** ** [str] methods

    A character of a text is a code point below 256. *)

(** [str.isspace]: TAB, LF, VT, FF, CR, FS, GS, RS, US, the space, NEL (133)
    and the no-break space (160). *)
Definition is_space (c : ascii) : bool :=
  let n := nat_of_ascii c in
  ((9 <=? n)%nat && (n <=? 13)%nat) || ((28 <=? n)%nat && (n <=? 32)%nat)
  || (n =? 133)%nat || (n =? 160)%nat.

Fixpoint lstrip (s : string) : string :=
  match s with
  | String c s' => if is_space c then lstrip s' else s
  | EmptyString => EmptyString
  end.

Fixpoint rstrip (s : string) : string :=
  match s with
  | String c s' =>
      match rstrip s' with
      | EmptyString => if is_space c then EmptyString else String c EmptyString
      | r => String c r
      end
  | EmptyString => EmptyString
  end.

(** [s.strip()] *)
Definition strip (s : string) : string := lstrip (rstrip s).

(** [c in s] for a one-character [c]. *)
Fixpoint contains (c : ascii) (s : string) : bool :=
  match s with
  | String a s' => Ascii.eqb a c || contains c s'
  | EmptyString => false
  end.

(** [s.startswith(p)] *)
Definition startswith (p s : string) : bool := String.prefix p s.

(** [s.split(c)] for a one-character separator. *)
Fixpoint split (c : ascii) (s : string) : list string :=
  match s with
  | String a s' =>
      if Ascii.eqb a c then EmptyString :: split c s'
      else match split c s' with
           | h :: t => String a h :: t
           | [] => [String a EmptyString]
           end
  | EmptyString => [EmptyString]
  end.

(** [s.split(c, 1)]: at most one cut, at the first occurrence. *)
Fixpoint split1 (c : ascii) (s : string) : list string :=
  match s with
  | String a s' =>
      if Ascii.eqb a c then [EmptyString; s']
      else match split1 c s' with
           | h :: t => String a h :: t
           | [] => [String a EmptyString]
           end
  | EmptyString => [EmptyString]
  end.

(** [s[n:]] for [n >= 0]. *)
Fixpoint drop (n : nat) (s : string) : string :=
  match n, s with
  | S n', String _ s' => drop n' s'
  | _, _ => s
  end.

(** [s[0:-1]] *)
Fixpoint drop_last (s : string) : string :=
  match s with
  | String c EmptyString => EmptyString
  | String c s' => String c (drop_last s')
  | EmptyString => EmptyString
  end.

(** [s.replace(old, new)]: occurrences are replaced from the left and do
    not overlap; [skip] counts the characters of a replaced occurrence that
    are still to be passed over. *)
Fixpoint replace_from (old new : string) (skip : nat) (s : string) : string :=
  match s with
  | String c s' =>
      match skip with
      | S k => replace_from old new k s'
      | O =>
          if String.prefix old s
          then match old with
               | String _ o => new +:+ replace_from old new (String.length o) s'
               | EmptyString => new +:+ String c (replace_from old new 0 s')
               end
          else String c (replace_from old new 0 s')
      end
  | EmptyString => if String.prefix old EmptyString then new else EmptyString
  end.

Definition replace (old new s : string) : string := replace_from old new 0 s.

(** [s[0]]: the first character, [IndexError] on the empty string. *)
Definition first_char (s : string) : res string :=
  match s with
  | String c _ => Ret (String c EmptyString)
  | EmptyString => Raise IndexError
  end.

(** ** Sequences *)

(** [l[i]] on a list: a negative index counts from the end, an index out of
    range raises [IndexError]. *)
Definition getitem {A : Type} (l : list A) (i : Z) : res A :=
  let j := if (i <? 0)%Z then (i + Z.of_nat (length l))%Z else i in
  if (j <? 0)%Z then Raise IndexError
  else match nth_error l (Z.to_nat j) with
       | Some x => Ret x
       | None => Raise IndexError
       end.

(** ** Numbers

    A Python [int] is an unbounded integer; a Python [float] is an IEEE
    binary64 number, given here by the Standard Library's specification of
    binary floating point at precision 53 and maximal exponent 1024. *)

Definition prec : Z := 53.
Definition emax : Z := 1024.

Inductive num : Type :=
  | Int (z : Z)
  | Float (f : spec_float).

(** The binary64 number nearest to the integer [z] (ties to even), an
    infinity when [z] is beyond the finite range. *)
Definition round_Z (z : Z) : spec_float := binary_normalize prec emax z 0 false.

(** [float(z)] for an [int]: [OverflowError] when the result is not
    finite. *)
Definition float_of_Z (z : Z) : res spec_float :=
  match round_Z z with
  | S754_infinity _ => Raise OverflowError
  | f => Ret f
  end.

(** [float(x)] for a number. *)
Definition float_of_num (x : num) : res spec_float :=
  match x with
  | Int z => float_of_Z z
  | Float f => Ret f
  end.

(** Comparison of an [int] with a [float] is exact in Python: the float
    [(-1)^s * m * 2^e] is compared with the integer as a rational. *)
Definition compare_Z_float (z : Z) (f : spec_float) : option comparison :=
  match f with
  | S754_nan => None
  | S754_infinity s => Some (if s then Gt else Lt)
  | S754_zero _ => Some (z ?= 0)%Z
  | S754_finite s m e =>
      let v := if s then Zneg m else Zpos m in
      Some (if (0 <=? e)%Z then (z ?= v * 2 ^ e)%Z else (z * 2 ^ (- e) ?= v)%Z)
  end.

(** Three-way comparison of two numbers; [None] when a NaN is involved. *)
Definition compare (a b : num) : option comparison :=
  match a, b with
  | Int x, Int y => Some (x ?= y)%Z
  | Int x, Float g => compare_Z_float x g
  | Float f, Int y => option_map CompOpp (compare_Z_float y f)
  | Float f, Float g => SFcompare f g
  end.

(** [a < b], [a <= b], [a > b], [a >= b], [a != b] *)
Definition lt (a b : num) : bool :=
  match compare a b with Some Lt => true | _ => false end.
Definition le (a b : num) : bool :=
  match compare a b with Some Lt | Some Eq => true | _ => false end.
Definition gt (a b : num) : bool :=
  match compare a b with Some Gt => true | _ => false end.
Definition ge (a b : num) : bool :=
  match compare a b with Some Gt | Some Eq => true | _ => false end.
Definition ne (a b : num) : bool :=
  match compare a b with Some Eq => false | _ => true end.

(** [a + b] and [a - b]: integer arithmetic on two [int]s, binary64
    arithmetic (after converting an [int] operand) otherwise. *)
Definition add (a b : num) : res num :=
  match a, b with
  | Int x, Int y => Ret (Int (x + y))
  | _, _ =>
      f <- float_of_num a ;; g <- float_of_num b ;;
      Ret (Float (SFadd prec emax f g))
  end.

Definition sub (a b : num) : res num :=
  match a, b with
  | Int x, Int y => Ret (Int (x - y))
  | _, _ =>
      f <- float_of_num a ;; g <- float_of_num b ;;
      Ret (Float (SFsub prec emax f g))
  end.

Definition is_zero (f : spec_float) : bool :=
  match f with S754_zero _ => true | _ => false end.

(** [a / g] where the divisor is a [float]. *)
Definition truediv (a : num) (g : spec_float) : res num :=
  f <- float_of_num a ;;
  if is_zero g then Raise ZeroDivisionError
  else Ret (Float (SFdiv prec emax f g)).

(** [nan] is the one number that compares with nothing. *)
Definition is_nan (a : num) : bool :=
  match a with
  | Float S754_nan => true
  | _ => false
  end.

(** Truth value of a number: zero is false, everything else (NaN too) is
    true. *)
Definition truthy_num (a : num) : bool :=
  match a with
  | Int z => negb (z =? 0)%Z
  | Float f => negb (is_zero f)
  end.

(** ** [int(s)] and [float(s)] on text

    Both accept surrounding white space, a sign, and single underscores
    between digits.  The decimal digits are those of ASCII: the other
    decimal digits that Python reads lie beyond the code points of this
    model. *)

Definition is_digit (c : ascii) : bool :=
  let n := nat_of_ascii c in (48 <=? n)%nat && (n <=? 57)%nat.

Definition digit_val (c : ascii) : Z := Z.of_nat (nat_of_ascii c - 48).

(** Value of a run of digits read after the value [acc]; [None] when a
    character is not a digit. *)
Fixpoint digits_from (acc : Z) (s : string) : option Z :=
  match s with
  | String c s' =>
      if is_digit c then digits_from (10 * acc + digit_val c) s' else None
  | EmptyString => Some acc
  end.

(** A non-empty run of digits. *)
Definition unsigned_of_string (s : string) : option Z :=
  match s with
  | EmptyString => None
  | _ => digits_from 0 s
  end.

(** The white space that [int] and [float] skip around a number: TAB, LF,
    VT, FF, CR, the space, NEL (133) and the no-break space (160); FS, GS,
    RS and US, which [str.strip] removes, are not skipped. *)
Definition is_number_space (c : ascii) : bool :=
  let n := nat_of_ascii c in
  ((9 <=? n)%nat && (n <=? 13)%nat) || (n =? 32)%nat || (n =? 133)%nat || (n =? 160)%nat.

(** [s] without its leading, or trailing, characters of the class [p]. *)
Fixpoint lstrip_by (p : ascii -> bool) (s : string) : string :=
  match s with
  | String c s' => if p c then lstrip_by p s' else s
  | EmptyString => EmptyString
  end.

Fixpoint rstrip_by (p : ascii -> bool) (s : string) : string :=
  match s with
  | String c s' =>
      match rstrip_by p s' with
      | EmptyString => if p c then EmptyString else String c EmptyString
      | r => String c r
      end
  | EmptyString => EmptyString
  end.

Definition strip_number (s : string) : string :=
  lstrip_by is_number_space (rstrip_by is_number_space s).

(** The digit separators: an underscore is allowed after a digit and before
    a digit only; [prev] is the character that precedes [s]. *)
Fixpoint underscores_ok (prev : ascii) (s : string) : bool :=
  match s with
  | String c s' =>
      (if Ascii.eqb c "_" then is_digit prev
       else if Ascii.eqb prev "_" then is_digit c else true)
      && underscores_ok c s'
  | EmptyString => negb (Ascii.eqb prev "_")
  end.

Fixpoint remove_underscores (s : string) : string :=
  match s with
  | String c s' =>
      if Ascii.eqb c "_" then remove_underscores s' else String c (remove_underscores s')
  | EmptyString => EmptyString
  end.

(** An optional leading sign: [true] for a minus. *)
Definition split_sign (s : string) : bool * string :=
  match s with
  | String "-" s' => (true, s')
  | String "+" s' => (false, s')
  | _ => (false, s)
  end.

Definition int_of_string (s : string) : res Z :=
  let (neg, body) := split_sign (strip_number s) in
  if underscores_ok Ascii.zero body then
    match unsigned_of_string (remove_underscores body) with
    | Some n => Ret (if neg then (- n)%Z else n)
    | None => Raise ValueError
    end
  else Raise ValueError.

Definition lower (c : ascii) : ascii :=
  let n := nat_of_ascii c in
  if (65 <=? n)%nat && (n <=? 90)%nat then ascii_of_nat (n + 32) else c.

Fixpoint lowercase (s : string) : string :=
  match s with
  | String c s' => String (lower c) (lowercase s')
  | EmptyString => EmptyString
  end.

(** The longest prefix of digits, and what follows it. *)
Fixpoint span_digits (s : string) : string * string :=
  match s with
  | String c s' =>
      if is_digit c
      then let (d, r) := span_digits s' in (String c d, r)
      else (EmptyString, s)
  | EmptyString => (EmptyString, EmptyString)
  end.

(** The binary64 number nearest to [(-1)^neg * m * 10^e] (ties to even). *)
Definition float_of_decimal (neg : bool) (m e : Z) : spec_float :=
  match m with
  | Zpos p =>
      if (0 <=? e)%Z
      then binary_round prec emax neg (p * Z.to_pos (10 ^ e)) 0
      else SFdiv prec emax (S754_finite neg p 0)
                           (S754_finite false (Z.to_pos (10 ^ (- e))) 0)
  | _ => S754_zero neg
  end.

(** The exponent suffix of a decimal literal: nothing, or [e]/[E] followed
    by a signed non-empty run of digits. *)
Definition exponent_of_string (s : string) : option Z :=
  match s with
  | EmptyString => Some 0%Z
  | String c s' =>
      if Ascii.eqb (lower c) "e"
      then let (neg, body) := split_sign s' in
           match unsigned_of_string body with
           | Some n => Some (if neg then (- n)%Z else n)
           | None => None
           end
      else None
  end.

(** [float(s)]: the underscores of the whole text are checked and taken
    out, then the white space around the number. *)
Definition float_of_string (s : string) : res spec_float :=
  if underscores_ok Ascii.zero s then
    let (neg, body) := split_sign (strip_number (remove_underscores s)) in
    let low := lowercase body in
    if String.eqb low "inf" || String.eqb low "infinity" then Ret (S754_infinity neg)
    else if String.eqb low "nan" then Ret S754_nan
    else
      let (ip, r1) := span_digits body in
      let (fp, r2) := match r1 with
                      | String "." r => span_digits r
                      | _ => (EmptyString, r1)
                      end in
      match unsigned_of_string (ip +:+ fp), exponent_of_string r2 with
      | Some m, Some e =>
          Ret (float_of_decimal neg m (e - Z.of_nat (String.length fp)))
      | _, _ => Raise ValueError
      end
  else Raise ValueError.

End Py.

Import Py.

(* ===================================================================== *)
(** * Data model                                                          *)
(* ===================================================================== *)

(** The value of an INFO annotation as the VCF reader delivers it: a number
    or a list of numbers.  A flag (Python [True]) is the integer 1, [bool]
    being a subclass of [int].  Text-valued and missing (".") annotations
    are outside this model. *)
Inductive InfoValue : Type :=
  | Scalar (n : num)
  | List (l : list num).

(** One record of the VCF file, as the reader hands it to the filter:
    [QUAL] is a number (a line without a quality is outside this model),
    [REF] a string, [ALT] a list whose entries are [None] for the missing
    marker, [INFO] a dictionary. *)
Record VariantRecord : Type := {
  QUAL : num;
  REF : string;
  ALT : list (option string);
  INFO : gmap string InfoValue
}.

(** [self.filter_dict]: the QUAL threshold and the INFO rules, a dictionary
    from rule key to threshold expression that is walked in insertion
    order. *)
Record filter_dict_t : Type := {
  fd_QUAL : num;
  fd_INFO : list (string * string)
}.

(** The instance attributes of [VCF_mpileup_4dot1].

    Modelled from the spec: the base class [VCFBase] ([sequana/vcftools.py])
    is not among the sources; [records] is the sequence of records that
    iterating over the instance yields after [rewind()], and [len(self)] is
    their number. *)
Record VCF_mpileup_4dot1 : Type := {
  records : list VariantRecord;
  filter_dict : filter_dict_t;
  apply_dp4_filter : bool;
  apply_af1_filter : bool;
  apply_indel_filter : bool;
  dp4_minimum_depth : num;
  dp4_minimum_depth_strand : num;
  dp4_minimum_ratio : num;
  minimum_af1 : num
}.

(** The literals [0.75] and [0.95]. *)
Definition float_0_75 : spec_float := Eval vm_compute in float_of_decimal false 75 (-2).
Definition float_0_95 : spec_float := Eval vm_compute in float_of_decimal false 95 (-2).

(** [VCF_mpileup_4dot1.__init__] *)
Definition __init__ (file : list VariantRecord) : VCF_mpileup_4dot1 := {|
  records := file;
  filter_dict := {| fd_QUAL := Int (-1); fd_INFO := [] |};
  apply_dp4_filter := false;
  apply_af1_filter := false;
  apply_indel_filter := false;
  dp4_minimum_depth := Int 4;
  dp4_minimum_depth_strand := Int 2;
  dp4_minimum_ratio := Float float_0_75;
  minimum_af1 := Float float_0_95
|}.

(** [d[key] = thr] on the INFO rules: an existing key keeps its place, a
    new key goes last. *)
Fixpoint dict_set (d : list (string * string)) (key thr : string) : list (string * string) :=
  match d with
  | (k, v) :: d' =>
      if String.eqb k key then (k, thr) :: d' else (k, v) :: dict_set d' key thr
  | [] => [(key, thr)]
  end.

(** [self.filter_dict['INFO'][key] = thr] *)
Definition set_info_rule (self : VCF_mpileup_4dot1) (key thr : string) : VCF_mpileup_4dot1 :=
  {| records := records self;
     filter_dict := {| fd_QUAL := fd_QUAL (filter_dict self);
                       fd_INFO := dict_set (fd_INFO (filter_dict self)) key thr |};
     apply_dp4_filter := apply_dp4_filter self;
     apply_af1_filter := apply_af1_filter self;
     apply_indel_filter := apply_indel_filter self;
     dp4_minimum_depth := dp4_minimum_depth self;
     dp4_minimum_depth_strand := dp4_minimum_depth_strand self;
     dp4_minimum_ratio := dp4_minimum_ratio self;
     minimum_af1 := minimum_af1 self |}.

(** [self.filter_dict['QUAL'] = q] *)
Definition set_qual (self : VCF_mpileup_4dot1) (q : num) : VCF_mpileup_4dot1 :=
  {| records := records self;
     filter_dict := {| fd_QUAL := q; fd_INFO := fd_INFO (filter_dict self) |};
     apply_dp4_filter := apply_dp4_filter self;
     apply_af1_filter := apply_af1_filter self;
     apply_indel_filter := apply_indel_filter self;
     dp4_minimum_depth := dp4_minimum_depth self;
     dp4_minimum_depth_strand := dp4_minimum_depth_strand self;
     dp4_minimum_ratio := dp4_minimum_ratio self;
     minimum_af1 := minimum_af1 self |}.

(** [self.apply_indel_filter = b] *)
Definition set_apply_indel_filter (self : VCF_mpileup_4dot1) (b : bool) : VCF_mpileup_4dot1 :=
  {| records := records self;
     filter_dict := filter_dict self;
     apply_dp4_filter := apply_dp4_filter self;
     apply_af1_filter := apply_af1_filter self;
     apply_indel_filter := b;
     dp4_minimum_depth := dp4_minimum_depth self;
     dp4_minimum_depth_strand := dp4_minimum_depth_strand self;
     dp4_minimum_ratio := dp4_minimum_ratio self;
     minimum_af1 := minimum_af1 self |}.

(** Operations of the runtime on INFO values. *)

(** A value used as an operand of a comparison: a list raises
    [TypeError]. *)
Definition as_num (x : InfoValue) : res num :=
  match x with
  | Scalar n => Ret n
  | List _ => Raise TypeError
  end.

(** [x[i]]: a number is not subscriptable. *)
Definition subscript (x : InfoValue) (i : Z) : res num :=
  match x with
  | List l => getitem l i
  | Scalar _ => Raise TypeError
  end.

(** Truth value: a number is true when it is not zero, a list when it is
    not empty. *)
Definition truthy (x : InfoValue) : bool :=
  match x with
  | Scalar n => truthy_num n
  | List l => match l with [] => false | _ => true end
  end.

(* ===================================================================== *)
(** * The methods of [VCF_mpileup_4dot1]                                  *)
(* ===================================================================== *)

(** ** [_filter_info_field]

    The body of the method, with the method it calls on the two sides of an
    [&] or of a [|] as the parameter [self_filter_info_field].
    [exp1, exp2 = threshold.split(c)] raises [ValueError] unless the split
    has exactly two parts.  In [a and b] and [a or b] the right operand is
    evaluated only when the left one does not decide. *)
Definition filter_info_field_body
    (self_filter_info_field : num -> string -> res bool)
    (info_value : num) (threshold : string) : res bool :=
  if contains "&" threshold then
    match split "&" threshold with
    | [exp1; exp2] =>
        let exp1 := strip exp1 in
        let exp2 := strip exp2 in
        a <- self_filter_info_field info_value exp1 ;;
        if a then self_filter_info_field info_value exp2 else Ret false
    | _ => Raise ValueError
    end
  else if contains "|" threshold then
    match split "|" threshold with
    | [exp1; exp2] =>
        let exp1 := strip exp1 in
        let exp2 := strip exp2 in
        a <- self_filter_info_field info_value exp1 ;;
        if a then Ret true else self_filter_info_field info_value exp2
    | _ => Raise ValueError
    end
  else if startswith "<" threshold then
    if startswith "<=" threshold then
      t <- float_of_string (drop 2 threshold) ;;
      if le info_value (Float t) then Ret true else Ret false
    else
      t <- float_of_string (drop 1 threshold) ;;
      if lt info_value (Float t) then Ret true else Ret false
  else if startswith ">" threshold then
    if startswith ">=" threshold then
      t <- float_of_string (drop 2 threshold) ;;
      if ge info_value (Float t) then Ret true else Ret false
    else
      t <- float_of_string (drop 1 threshold) ;;
      if gt info_value (Float t) then Ret true else Ret false
  else Ret false.

(** The recursion, to a depth of at most [fuel] nested calls. *)
Fixpoint filter_info_field_fuel (fuel : nat) : num -> string -> res bool :=
  match fuel with
  | O => fun _ _ => Raise RecursionError
  | S fuel' => filter_info_field_body (filter_info_field_fuel fuel')
  end.

(** Three nested calls are the most the method can make: the sides of an
    [&] hold no [&], the sides of a [|] under it hold neither (this is
    [filter_info_field_fuel_enough] below). *)
Definition _filter_info_field (info_value : num) (threshold : string) : res bool :=
  filter_info_field_fuel 3 info_value threshold.

(** ** [is_polymorphic] *)
Definition is_polymorphic (variant : VariantRecord) : res bool :=
  alt0 <- getitem (ALT variant) 0 ;;
  match alt0 with
  | None => Ret false
  | Some a => if String.eqb (strip a) "." then Ret false else Ret true
  end.

(** ** [is_indel]

    [variant.REF] is a string, so [variant.REF[0]] is its first
    character. *)
Definition is_indel (variant : VariantRecord) : res bool :=
  alt0 <- getitem (ALT variant) 0 ;;
  if match alt0 with Some a => contains "," a | None => false end then Ret true
  else
    ref0 <- first_char (REF variant) ;;
    if contains "," ref0 then Ret true
    else
      match INFO variant !! "INDEL" with
      | Some flag => if truthy flag then Ret true else Ret false
      | None => Ret false
      end.

(** ** [is_valid_af1] *)
Definition is_valid_af1 (variant : VariantRecord) (minimum_af1 : num) : res bool :=
  match INFO variant !! "AF1" with
  | None => Ret true
  | Some af1 =>
      p <- is_polymorphic variant ;;
      if p then
        a <- as_num af1 ;;
        if lt a minimum_af1 then Ret false else Ret true
      else
        bound <- sub (Int 1) minimum_af1 ;;
        a <- as_num af1 ;;
        if gt a bound then Ret false else Ret true
  end.

(** ** [is_valid_dp4] *)

(** The two ratios of one strand: [(ref / total, alt / total)] when the
    total is positive, [(0, 0)] otherwise. *)
Definition strand_ratios (ref alt : num) (total : spec_float) : res (num * num) :=
  if gt (Float total) (Int 0) then
    ratio_reference <- truediv ref total ;;
    ratio_alt <- truediv alt total ;;
    Ret (ratio_reference, ratio_alt)
  else Ret (Int 0, Int 0).

Definition is_valid_dp4 (variant : VariantRecord)
    (minimum_depth minimum_depth_strand minimum_ratio : num) : res bool :=
  match INFO variant !! "DP4" with
  | None => Ret true
  | Some dp4 =>
      ref_forward <- subscript dp4 0 ;;
      ref_reverse <- subscript dp4 1 ;;
      alt_forward <- subscript dp4 2 ;;
      alt_reverse <- subscript dp4 3 ;;
      count_reference <- add ref_forward ref_reverse ;;
      count_alt <- add alt_forward alt_reverse ;;
      forward <- (total <- add ref_forward alt_forward ;; float_of_num total) ;;
      ratios_forward <- strand_ratios ref_forward alt_forward forward ;;
      let (ratio_forward_reference, ratio_forward_alt) := ratios_forward in
      reverse <- (total <- add ref_reverse alt_reverse ;; float_of_num total) ;;
      ratios_reverse <- strand_ratios ref_reverse alt_reverse reverse ;;
      let (ratio_reverse_reference, ratio_reverse_alt) := ratios_reverse in
      p <- is_polymorphic variant ;;
      if negb p then
        if lt count_reference minimum_depth then Ret false
        else if lt ref_forward minimum_depth_strand then Ret false
        else if lt ref_reverse minimum_depth_strand then Ret false
        else if lt ratio_forward_reference minimum_ratio then Ret false
        else if lt ratio_reverse_reference minimum_ratio then Ret false
        else Ret true
      else
        if lt count_alt minimum_depth then Ret false
        else if lt alt_forward minimum_depth_strand then Ret false
        else if lt alt_reverse minimum_depth_strand then Ret false
        else if lt ratio_forward_alt minimum_ratio then Ret false
        else if lt ratio_reverse_alt minimum_ratio then Ret false
        else Ret true
  end.

(** ** [_filter_line] *)

(** What [logger.debug] receives: one constructor per call site, with the
    arguments of its [format]. *)
Inductive event : Type :=
  | DebugQual (threshold : num)
  | DebugIndel (iline : option Z)
  | DebugDP4 (iline : option Z) (dp4 : option InfoValue)
  | DebugAF1 (af1 : option InfoValue) (iline : option Z)
  | DebugSum (result : num) (expr value : string)
  | DebugInfo (key value : string) (val : InfoValue)
  | DebugMissingKey (key : string) (line : Z).

(** A computation that logs: the messages sent so far, and the outcome. *)
Definition M (A : Type) : Type := list event * res A.

Definition mret {A : Type} (a : A) : M A := ([], Ret a).

Definition mbind {A B : Type} (m : M A) (k : A -> M B) : M B :=
  match m with
  | (log, Ret a) => let (log', r) := k a in (log ++ log', r)
  | (log, Raise e) => (log, Raise e)
  end.

Definition lift {A : Type} (r : res A) : M A := ([], r).

Definition debug (e : event) : M unit := ([e], Ret tt).

Notation "x <~ m ;; k" := (mbind m (fun x => k))
  (at level 100, m at next level, right associativity).

(** [eval(expr)] in the frame where [mykey] is bound to [x], on the
    expressions the method is written for: [sum([K[i], K[j], ...])] where
    [K] is [mykey], an annotation name made of capital letters and digits,
    each index is an integer literal and the elements are integers.  Any
    other text is outside this model and yields [NotModelled]. *)

Definition is_upper (c : ascii) : bool :=
  let n := nat_of_ascii c in (65 <=? n)%nat && (n <=? 90)%nat.

Fixpoint all_upper_or_digit (s : string) : bool :=
  match s with
  | String c s' => (is_upper c || is_digit c) && all_upper_or_digit s'
  | EmptyString => true
  end.

Definition is_info_name (s : string) : bool :=
  match s with
  | String c s' => is_upper c && all_upper_or_digit s'
  | EmptyString => false
  end.

Fixpoint skip_blanks (s : string) : string :=
  match s with
  | String " " s' => skip_blanks s'
  | _ => s
  end.

(** An integer literal, possibly negated: [0], or digits not starting with
    [0]. *)
Definition index_literal (s : string) : option Z :=
  let (neg, body) := split_sign s in
  match s, body with
  | String "+" _, _ => None
  | _, String "0" (String _ _) => None
  | _, _ =>
      match unsigned_of_string body with
      | Some n => Some (if neg then (- n)%Z else n)
      | None => None
      end
  end.

Definition eval_item (mykey : string) (x : InfoValue) (item : string) : res num :=
  match split1 "[" (skip_blanks item) with
  | [name; rest] =>
      match index_literal (drop_last rest) with
      | Some i =>
          if String.eqb name mykey && String.eqb (drop (String.length rest - 1) rest) "]"
          then subscript x i
          else Raise NotModelled
      | None => Raise NotModelled
      end
  | _ => Raise NotModelled
  end.

Fixpoint eval_items (mykey : string) (x : InfoValue) (items : list string) : res (list num) :=
  match items with
  | item :: items' =>
      n <- eval_item mykey x item ;;
      ns <- eval_items mykey x items' ;;
      Ret (n :: ns)
  | [] => Ret []
  end.

(** [sum] over integers, from the left.  A [float] among the items takes
    the expression out of the model: how [sum] rounds a floating-point total
    depends on the interpreter. *)
Fixpoint sum_from (acc : Z) (ns : list num) : res num :=
  match ns with
  | Int n :: ns' => sum_from (acc + n) ns'
  | Float _ :: _ => Raise NotModelled
  | [] => Ret (Int acc)
  end.

Definition eval_sum (expr mykey : string) (x : InfoValue) : res num :=
  if is_info_name mykey && startswith "sum([" expr
     && String.eqb (drop (String.length expr - 2) expr) "])"
  then
    ns <- eval_items mykey x (split "," (drop_last (drop_last (drop 5 expr)))) ;;
    sum_from 0 ns
  else Raise NotModelled.

(** The rule key of a plain rule: [(key, index)], the index being 0 when
    the key has no bracket. *)
Definition parse_key (key : string) : res (string * Z) :=
  if contains "[" key then
    if negb (contains "]" key) then Raise ValueError
    else
      match split1 "[" key with
      | [key'; index] =>
          i <- int_of_string (strip (replace "]" "" index)) ;;
          Ret (strip key', i)
      | _ => Raise ValueError
      end
  else Ret (key, 0%Z).

(** One turn of the loop over the INFO rules: [Some b] when the turn
    executes [return b], [None] when it reaches the end of the loop body
    and the loop goes on. *)
Definition info_rule (vcf_line : VariantRecord) (iline : option Z)
    (key value : string) : M (option bool) :=
  nonpoly <~ (if String.eqb key "PV4"
              then lift (p <- is_polymorphic vcf_line ;; Ret (negb p))
              else mret false) ;;
  if nonpoly then mret (Some true)
  else if startswith "sum(" key then
    let expr := drop_last (replace "sum(" "sum([" key) +:+ "])" in
    let mykey := hd EmptyString (split "[" (drop 5 expr)) in
    match INFO vcf_line !! mykey with
    | None => lift (Raise KeyError)
    | Some x =>
        result <~ lift (eval_sum expr mykey x) ;;
        hit <~ lift (_filter_info_field result value) ;;
        if hit then
          _ <~ debug (DebugSum result expr value) ;;
          mret (Some false)
        else mret (Some true)
    end
  else
    parsed <~ lift (parse_key key) ;;
    let (key, index) := parsed in
    match INFO vcf_line !! key with
    | Some (Scalar n) =>
        hit <~ lift (_filter_info_field n value) ;;
        if hit then
          _ <~ debug (DebugInfo key value (Scalar n)) ;;
          mret (Some false)
        else mret None
    | Some (List l) =>
        let Nlist := Z.of_nat (length l) in
        if (index >? Nlist - 1)%Z then lift (Raise ValueError)
        else
          n <~ lift (getitem l index) ;;
          hit <~ lift (_filter_info_field n value) ;;
          if hit then mret (Some false) else mret None
    | None =>
        (* except KeyError *)
        match iline with
        | Some i => _ <~ debug (DebugMissingKey key (i + 1)) ;; mret None
        | None => lift (Raise TypeError)
        end
    end.

(** [for key, value in filter_dict["INFO"].items(): ...] followed by the
    final [return True]. *)
Fixpoint info_rules (vcf_line : VariantRecord) (iline : option Z)
    (rules : list (string * string)) : M bool :=
  match rules with
  | (key, value) :: rules' =>
      r <~ info_rule vcf_line iline key value ;;
      match r with
      | Some b => mret b
      | None => info_rules vcf_line iline rules'
      end
  | [] => mret true
  end.

Definition _filter_line (self : VCF_mpileup_4dot1) (vcf_line : VariantRecord)
    (filter_dict_arg : option filter_dict_t) (iline : option Z) : M bool :=
  let filter_dict := match filter_dict_arg with
                     | None => filter_dict self
                     | Some d => d
                     end in
  if ne (fd_QUAL filter_dict) (Int (-1)) && lt (QUAL vcf_line) (fd_QUAL filter_dict) then
    _ <~ debug (DebugQual (fd_QUAL filter_dict)) ;;
    mret false
  else
    indel <~ (if apply_indel_filter self then lift (is_indel vcf_line) else mret false) ;;
    if indel then
      _ <~ debug (DebugIndel iline) ;;
      mret false
    else
      dp4_ok <~ (if apply_dp4_filter self && bool_decide (is_Some (INFO vcf_line !! "DP4"))
                 then lift (is_valid_dp4 vcf_line (dp4_minimum_depth self)
                              (dp4_minimum_depth_strand self) (dp4_minimum_ratio self))
                 else mret true) ;;
      if negb dp4_ok then
        _ <~ debug (DebugDP4 iline (INFO vcf_line !! "DP4")) ;;
        mret false
      else
        af1_ok <~ (if apply_af1_filter self && bool_decide (is_Some (INFO vcf_line !! "AF1"))
                   then lift (is_valid_af1 vcf_line (minimum_af1 self))
                   else mret true) ;;
        if negb af1_ok then
          _ <~ debug (DebugAF1 (INFO vcf_line !! "AF1") iline) ;;
          mret false
        else info_rules vcf_line iline (fd_INFO filter_dict).

(** ** [filter_vcf] *)

(** The dictionary [filter_vcf] returns, and what it wrote to the two
    files. *)
Record pass_result : Type := {
  N : Z;
  filtered : Z;
  unfiltered : Z;
  written : list VariantRecord;
  written_filtered : list VariantRecord
}.

(** [for iline, variant in enumerate(self): ...]; [unfiltered], [kept] and
    [dropped] are the count and the two files so far. *)
Fixpoint filter_loop (self : VCF_mpileup_4dot1) (filter_dict : filter_dict_t)
    (output_filtered : bool) (iline : Z) (variants : list VariantRecord)
    (unfiltered : Z) (kept dropped : list VariantRecord)
  : M (Z * list VariantRecord * list VariantRecord) :=
  match variants with
  | variant :: variants' =>
      keep <~ _filter_line self variant (Some filter_dict) (Some iline) ;;
      if keep then
        filter_loop self filter_dict output_filtered (iline + 1) variants'
          (unfiltered + 1) (kept ++ [variant]) dropped
      else if output_filtered then
        filter_loop self filter_dict output_filtered (iline + 1) variants'
          unfiltered kept (dropped ++ [variant])
      else
        filter_loop self filter_dict output_filtered (iline + 1) variants'
          unfiltered kept dropped
  | [] => mret (unfiltered, kept, dropped)
  end.

Definition filter_vcf (self : VCF_mpileup_4dot1) (filter_dict_arg : option filter_dict_t)
    (output_filtered : bool) : M pass_result :=
  let filter_dict := match filter_dict_arg with
                     | None => filter_dict self
                     | Some d => d
                     end in
  let N := Z.of_nat (length (records self)) in
  out <~ filter_loop self filter_dict output_filtered 0 (records self) 0 [] [] ;;
  let '(unfiltered, kept, dropped) := out in
  let filtered := (N - unfiltered)%Z in
  mret {| N := N; filtered := filtered; unfiltered := unfiltered;
          written := kept; written_filtered := dropped |}.

(* ===================================================================== *)
(** * The freebayes filter ([sequana/freebayes_vcf_filter.py])            *)
(* ===================================================================== *)

(** The class [VCF_freebayes], to which the factory [VCF] of
    [vcf_filter.py] hands the files written by freebayes, with the parts of
    [Variant] and [Filtered_freebayes] that are text and list processing.
    Its methods carry the names they have in the source, inside the module
    [Freebayes]. *)

Module Freebayes.

(** [d[k]] on a dictionary: [KeyError] for a missing key. *)
Definition getitem_dict {V : Type} (d : gmap string V) (k : string) : res V :=
  match d !! k with
  | Some v => Ret v
  | None => Raise KeyError
  end.

(** The dictionary of [__init__] and of the deleter of [filters_params]. *)
Definition default_params : gmap string num :=
  list_to_map [("freebayes_score", Int 0); ("frequency", Int 0); ("min_depth", Int 0);
               ("forward_depth", Int 0); ("reverse_depth", Int 0); ("strand_ratio", Int 0)].

(** The instance attributes.  [records] is what iterating over the reader
    yields after [rewind()]; of a record the filter reads [QUAL] and [INFO]
    only.  [samples] is the property [self._vcf_reader.header.samples.names],
    which may raise. *)
Record VCF_freebayes : Type := {
  records : list VariantRecord;
  samples : res (list string);
  _filters_params : gmap string num;
  _is_joint : bool
}.

(** [_check_if_joint]: the warnings it logs, and its answer. *)
Definition _check_if_joint (samples : res (list string)) : list string * bool :=
  match samples with
  | Ret names => ([], (1 <? length names)%nat)
  | Raise _ => (["Your input VCF may be empty"], false)
  end.

(** [VCF_freebayes.__init__]: the warnings logged, and the instance. *)
Definition __init__ (file : list VariantRecord) (names : res (list string))
  : list string * VCF_freebayes :=
  let (warnings, joint) := _check_if_joint names in
  (warnings,
   {| records := file; samples := names;
      _filters_params := default_params; _is_joint := joint |}).

(** The setter of [filters_params]: [self._filters_params.update(d)]. *)
Definition set_filters_params (self : VCF_freebayes) (d : gmap string num) : VCF_freebayes :=
  {| records := records self; samples := samples self;
     _filters_params := d ∪ _filters_params self; _is_joint := _is_joint self |}.

(** The deleter of [filters_params]. *)
Definition del_filters_params (self : VCF_freebayes) : VCF_freebayes :=
  {| records := records self; samples := samples self;
     _filters_params := default_params; _is_joint := _is_joint self |}.

(** [sum(x)] on an INFO value: a number is not iterable. *)
Definition sum_info (x : InfoValue) : res num :=
  match x with
  | List l => sum_from 0 l
  | Scalar _ => Raise TypeError
  end.

(** ** [_filter_line]

    [compute_frequency] and [compute_strand_balance] belong to
    [sequana/vcftools.py], which is not among the sources: the method is
    defined over any two functions from a record to a list of numbers. *)

Section Vcftools.
Variable compute_frequency : VariantRecord -> res (list num).
Variable compute_strand_balance : VariantRecord -> res (list num).

Definition _filter_line (self : VCF_freebayes) (vcf_line : VariantRecord) : res bool :=
  let filters_params := _filters_params self in
  freebayes_score <- getitem_dict filters_params "freebayes_score" ;;
  if lt (QUAL vcf_line) freebayes_score then Ret false
  else
    dp <- getitem_dict (INFO vcf_line) "DP" ;;
    min_depth <- getitem_dict filters_params "min_depth" ;;
    dp <- as_num dp ;;
    if le dp min_depth then Ret false
    else if _is_joint self then Ret true
    else
      srf <- getitem_dict (INFO vcf_line) "SRF" ;;
      saf <- getitem_dict (INFO vcf_line) "SAF" ;;
      total <- sum_info saf ;;
      srf <- as_num srf ;;
      forward_depth <- add srf total ;;
      threshold <- getitem_dict filters_params "forward_depth" ;;
      if le forward_depth threshold then Ret false
      else
        srr <- getitem_dict (INFO vcf_line) "SRR" ;;
        sar <- getitem_dict (INFO vcf_line) "SAR" ;;
        total <- sum_info sar ;;
        srr <- as_num srr ;;
        reverse_depth <- add srr total ;;
        threshold <- getitem_dict filters_params "reverse_depth" ;;
        if le reverse_depth threshold then Ret false
        else
          alt_freq <- compute_frequency vcf_line ;;
          alt_freq0 <- getitem alt_freq 0 ;;
          frequency <- getitem_dict filters_params "frequency" ;;
          if lt alt_freq0 frequency then Ret false
          else
            strand_bal <- compute_strand_balance vcf_line ;;
            strand_bal0 <- getitem strand_bal 0 ;;
            strand_ratio <- getitem_dict filters_params "strand_ratio" ;;
            if lt strand_bal0 strand_ratio then Ret false
            else Ret true.
End Vcftools.

(** ** [Variant] *)

(** The values of [Variant.resume]: text, a number, or an INFO value taken
    over from the record. *)
Inductive resume_value : Type :=
  | Text (s : string)
  | Number (n : num)
  | Annotation (x : InfoValue).

Record Variant : Type := {
  record : VariantRecord;
  resume : gmap string resume_value
}.

(** The block of [Variant._vcf_line_to_dict] that reads the snpEff
    annotation: [eff] is [vcf_line.INFO["EFF"]], a list of texts, or [None]
    when the record has no such key; the result is the dictionary [ann_dict]
    that is merged into the line's dictionary, or [None] when the [KeyError]
    is caught and nothing is merged.  A tuple assignment from a split
    raises [ValueError] unless the split has exactly two parts; the inner
    [try] catches it for the fourth field only. *)
Definition eff_annotation (eff : option (list string)) : res (option (list (string * string))) :=
  match eff with
  | None => Ret None
  | Some effs =>
      eff0 <- getitem effs 0 ;;
      let annotation := split "|" eff0 in
      annotation0 <- getitem annotation 0 ;;
      match split "(" annotation0 with
      | [effect_type; effect_lvl] =>
          annotation3 <- getitem annotation 3 ;;
          let (prot_effect, cds_effect) :=
            match split "/" annotation3 with
            | [prot_effect; cds_effect] => (prot_effect, cds_effect)
            | _ => (EmptyString, annotation3)
            end in
          annotation2 <- getitem annotation 2 ;;
          annotation5 <- getitem annotation 5 ;;
          annotation1 <- getitem annotation 1 ;;
          annotation4 <- getitem annotation 4 ;;
          Ret (Some [("CDS_position", drop 2 cds_effect);
                     ("effect_type", effect_type);
                     ("codon_change", annotation2);
                     ("gene_name", annotation5);
                     ("mutation_type", annotation1);
                     ("prot_effect", drop 2 prot_effect);
                     ("prot_size", annotation4);
                     ("effect_impact", effect_lvl)])
      | _ => Raise ValueError
      end
  end.

(** ** [Filtered_freebayes] *)

(** [str(i)] for a natural number. *)
Definition str_nat (i : nat) : string := NilEmpty.string_of_uint (Nat.to_uint i).

(** The columns added when the first variant carries an annotation. *)
Definition annotation_columns : list string :=
  ["effect_type"; "mutation_type"; "effect_impact"; "gene_name";
   "CDS_position"; "codon_change"; "prot_effect"; "prot_size"].

(** [_create_index]; [self.variants[0]] on an empty list raises the
    [IndexError] that the method passes over. *)
Definition _create_index (vcf : VCF_freebayes) (variants : list Variant) : res (list string) :=
  let columns := ["chr"; "position"; "reference"; "alternative"; "depth"] in
  columns <- (if _is_joint vcf
              then names <- samples vcf ;; Ret (columns ++ names)
              else Ret (columns ++ ["frequency"])) ;;
  let columns := columns ++ ["strand_balance"; "freebayes_score"; "fisher_pvalue"] in
  let columns :=
    match variants with
    | first :: _ =>
        if bool_decide (is_Some (resume first !! "effect_type"))
        then columns ++ annotation_columns
        else columns
    | [] => columns
    end in
  if _is_joint vcf
  then names <- samples vcf ;;
       Ret (columns ++ map (fun i => "info_" +:+ str_nat i) (seq 0 (length names)))
  else Ret columns.

(** [l[:stop]]: a negative [stop] counts from the end. *)
Definition slice_to {A : Type} (l : list A) (stop : Z) : list A :=
  let n := Z.of_nat (length l) in
  let stop := if (stop <? 0)%Z then Z.max 0 (stop + n) else Z.min stop n in
  firstn (Z.to_nat stop) l.

(** The [columns] argument that [to_csv] hands to the writer of the data
    frame when [info_field] is false:
    [self.columns[: -len(self.vcf.samples)]]. *)
Definition to_csv_columns (vcf : VCF_freebayes) (columns : list string) : res (list string) :=
  names <- samples vcf ;;
  Ret (slice_to columns (- Z.of_nat (length names))).

End Freebayes.

(* ===================================================================== *)
(** * Definitions used in the statements                                  *)
(* ===================================================================== *)

(** The filter dictionary with its QUAL entry back at the initial [-1]. *)
Definition disable_qual (d : filter_dict_t) : filter_dict_t :=
  {| fd_QUAL := Int (-1); fd_INFO := fd_INFO d |}.

(** The first ALT entry makes the record polymorphic: it is not null and,
    stripped, not the missing marker ["."]. *)
Definition polymorphic_alt (alt0 : option string) : bool :=
  match alt0 with
  | Some a => negb (String.eqb (strip a) ".")
  | None => false
  end.

(** Read counts are taken below this bound, under which a count and a sum
    of two counts convert to [float] without overflow. *)
Definition count_bound : Z := 2 ^ 1022.

(** The DP4 requirement as the specification words it: the share
    [count / total] of one allele on one strand, taken as 0 when the
    denominator is 0 ... *)
Definition dp4_ratio (count total : Z) : num :=
  if (total =? 0)%Z then Int 0
  else Float (SFdiv prec emax (round_Z count) (round_Z total)).

(** ... and the five conditions on the counts [fwd] and [rev] of the
    allele under test, [total_fwd] and [total_rev] being the strand
    totals. *)
Definition dp4_passes (fwd rev total_fwd total_rev : Z)
    (min_depth min_depth_strand min_ratio : num) : bool :=
  ge (Int (fwd + rev)) min_depth
  && ge (Int fwd) min_depth_strand
  && ge (Int rev) min_depth_strand
  && ge (dp4_ratio fwd total_fwd) min_ratio
  && ge (dp4_ratio rev total_rev) min_ratio.

(** A float that is a zero, a finite number or an infinity of sign [sx]. *)
Definition signed_as (sx : bool) (f : spec_float) : Prop :=
  match f with
  | S754_zero s | S754_infinity s | S754_finite s _ _ => s = sx
  | S754_nan => False
  end.

(** ** Records and instances of the examples *)

(** The literals [0.8] and [0.1]. *)
Definition float_0_8 : spec_float := Eval vm_compute in float_of_decimal false 8 (-1).
Definition float_0_1 : spec_float := Eval vm_compute in float_of_decimal false 1 (-1).

(** A SNP call [A -> G] with [DP=40;DP4=0,0,5,5;AF1=0.8]. *)
Definition snp_record : VariantRecord := {|
  QUAL := Int 60;
  REF := "A";
  ALT := [Some "G"];
  INFO := list_to_map [("DP", Scalar (Int 40));
                       ("DP4", List [Int 0; Int 0; Int 5; Int 5]);
                       ("AF1", Scalar (Float float_0_8))]
|}.

(** A reference-confirming line (ALT is the missing marker) with
    [DP=22;DP4=10,10,1,1;AF1=0.1]. *)
Definition ref_record : VariantRecord := {|
  QUAL := Int 60;
  REF := "A";
  ALT := [None];
  INFO := list_to_map [("DP", Scalar (Int 22));
                       ("DP4", List [Int 10; Int 10; Int 1; Int 1]);
                       ("AF1", Scalar (Float float_0_1))]
|}.

(** A line whose REF column is the allele list [A,AT]. *)
Definition multi_ref_record : VariantRecord := {|
  QUAL := Int 60;
  REF := "A,AT";
  ALT := [Some "G"];
  INFO := list_to_map [("DP", Scalar (Int 40))]
|}.



(** The rule [sum(DP4[2],DP4[3])<2] followed by the rule [DP<50]. *)
Definition vcf_sum_then_dp : VCF_mpileup_4dot1 :=
  set_info_rule (set_info_rule (__init__ [snp_record]) "sum(DP4[2],DP4[3])" "<2")
                "DP" "<50".

(** The rule [PV4<0.001] followed by the rule [DP<50]. *)
Definition vcf_pv4_then_dp : VCF_mpileup_4dot1 :=
  set_info_rule (set_info_rule (__init__ [ref_record]) "PV4" "<0.001") "DP" "<50".

(** The rule [DP<50] alone. *)
Definition vcf_dp : VCF_mpileup_4dot1 :=
  set_info_rule (__init__ [snp_record]) "DP" "<50".

(** The indel filter switched on, nothing else configured. *)
Definition vcf_indel : VCF_mpileup_4dot1 :=
  set_apply_indel_filter (__init__ [multi_ref_record]) true.

(** The rule [DP<30] on a file of three lines. *)
Definition vcf_three_lines : VCF_mpileup_4dot1 :=
  set_info_rule (__init__ [snp_record; ref_record; multi_ref_record]) "DP" "<30".

(** ** Definitions used in the further properties *)

(** The outcome of a computation that logs, its messages left aside. *)
Definition outcome {A : Type} (m : M A) : res A := snd m.

(** The dictionary a call works with: its argument, or the instance's own
    when the argument is [None]. *)
Definition used_dict (self : VCF_mpileup_4dot1) (filter_dict_arg : option filter_dict_t)
  : filter_dict_t :=
  match filter_dict_arg with
  | None => filter_dict self
  | Some d => d
  end.

(** The record is kept: [_filter_line] returns [True] on it. *)
Definition keeps (self : VCF_mpileup_4dot1) (d : filter_dict_t) (variant : VariantRecord) : bool :=
  match outcome (_filter_line self variant (Some d) (Some 0%Z)) with
  | Ret true => true
  | _ => false
  end.

(** The instance with the same settings on another file. *)
Definition reopen (self : VCF_mpileup_4dot1) (file : list VariantRecord) : VCF_mpileup_4dot1 :=
  {| records := file;
     filter_dict := filter_dict self;
     apply_dp4_filter := apply_dp4_filter self;
     apply_af1_filter := apply_af1_filter self;
     apply_indel_filter := apply_indel_filter self;
     dp4_minimum_depth := dp4_minimum_depth self;
     dp4_minimum_depth_strand := dp4_minimum_depth_strand self;
     dp4_minimum_ratio := dp4_minimum_ratio self;
     minimum_af1 := minimum_af1 self |}.

(** A plain rule key: neither the key [PV4] nor a [sum(...)] key, the two
    that [_filter_line] treats apart. *)
Definition plain_key (key : string) : bool :=
  negb (String.eqb key "PV4") && negb (startswith "sum(" key).

(** The expression a [sum(...)] key is rewritten to, and the INFO key
    read off it: [expr] and [mykey] in [_filter_line]. *)
Definition sum_expr (key : string) : string :=
  drop_last (replace "sum(" "sum([" key) +:+ "])".

Definition sum_mykey (key : string) : string :=
  hd EmptyString (split "[" (drop 5 (sum_expr key))).

(** The sum of a list of integers. *)
Definition sum_Z (l : list Z) : Z := fold_right Z.add 0%Z l.

(** The two operations on [filters_params]: assignment and [del]. *)
Inductive params_op : Type :=
  | Assign (d : gmap string num)
  | Delete.

Definition apply_op (self : Freebayes.VCF_freebayes) (op : params_op) : Freebayes.VCF_freebayes :=
  match op with
  | Assign d => Freebayes.set_filters_params self d
  | Delete => Freebayes.del_filters_params self
  end.

(** The parameters [Freebayes._filter_line] reads. *)
Definition param_names : list string :=
  ["freebayes_score"; "frequency"; "min_depth"; "forward_depth"; "reverse_depth";
   "strand_ratio"].

(** The first variant carries an annotation. *)
Definition annotated (variants : list Freebayes.Variant) : bool :=
  match variants with
  | first :: _ => bool_decide (is_Some (Freebayes.resume first !! "effect_type"))
  | [] => false
  end.

(** The columns [info_0], ..., [info_(n-1)]. *)
Definition info_columns (n : nat) : list string :=
  map (fun i => "info_" +:+ Freebayes.str_nat i) (seq 0 n).

(** An annotation in the layout of snpEff:
    [effect(impact|class|codon|p.protein/c.cds|size|gene|rest]. *)
Definition eff_text (effect impact class codon protein cds size gene rest : string) : string :=
  (effect +:+ "(" +:+ impact) +:+ "|" +:+ class +:+ "|" +:+ codon +:+ "|" +:+
  ("p." +:+ protein +:+ "/" +:+ "c." +:+ cds) +:+ "|" +:+ size +:+ "|" +:+ gene +:+ "|" +:+ rest.

(** One item [K[ix]] of a [sum(...)] key, the items joined by commas, and
    the key [sum(K[ix1],...,K[ixn])]. *)
Definition sum_item (K ix : string) : string := K +:+ "[" +:+ ix +:+ "]".

Fixpoint join_items (K : string) (ixs : list string) : string :=
  match ixs with
  | [] => EmptyString
  | [ix] => sum_item K ix
  | ix :: ixs' => sum_item K ix +:+ "," +:+ join_items K ixs'
  end.

Definition sum_key (K : string) (ixs : list string) : string :=
  "sum(" +:+ join_items K ixs +:+ ")".

(** Text made of the white space that [float] skips. *)
Fixpoint blank (s : string) : bool :=
  match s with
  | String c s' => is_number_space c && blank s'
  | EmptyString => true
  end.

(** ** Further records and instances *)

(** The rule [DP4[7]<4] on a file whose first line has no DP4. *)
Definition vcf_index_rule_later : VCF_mpileup_4dot1 :=
  set_info_rule (__init__ [multi_ref_record; snp_record]) "DP4[7]" "<4".

(** A line whose DP4 has two entries only. *)
Definition short_dp4_record : VariantRecord := {|
  QUAL := Int 60;
  REF := "A";
  ALT := [Some "G"];
  INFO := list_to_map [("DP", Scalar (Int 40)); ("DP4", List [Int 5; Int 5])]
|}.

(** A line with an empty REF column. *)
Definition empty_ref_record : VariantRecord := {|
  QUAL := Int 60;
  REF := "";
  ALT := [Some "G"];
  INFO := list_to_map [("DP", Scalar (Int 40))]
|}.

(** A line whose AF1 is not a number. *)
Definition nan_af1_record : VariantRecord := {|
  QUAL := Int 60;
  REF := "A";
  ALT := [Some "G"];
  INFO := list_to_map [("AF1", Scalar (Float S754_nan))]
|}.

(** A line of freebayes, with [DP=30;SRF=0;SAF=14;SRR=1;SAR=15], and the
    same line with its depth only. *)
Definition fb_record : VariantRecord := {|
  QUAL := Int 200;
  REF := "G";
  ALT := [Some "A"];
  INFO := list_to_map [("DP", Scalar (Int 30)); ("SRF", Scalar (Int 0));
                       ("SAF", List [Int 14]); ("SRR", Scalar (Int 1));
                       ("SAR", List [Int 15])]
|}.

Definition fb_record_depth_only : VariantRecord := {|
  QUAL := Int 200;
  REF := "G";
  ALT := [Some "A"];
  INFO := list_to_map [("DP", Scalar (Int 30))]
|}.

(** A file of one sample, and a joint file of two. *)
Definition fb_single : Freebayes.VCF_freebayes :=
  snd (Freebayes.__init__ [fb_record] (Ret ["sample"])).

Definition fb_joint : Freebayes.VCF_freebayes :=
  snd (Freebayes.__init__ [fb_record] (Ret ["mother"; "father"])).

(** Two functions standing for those of [vcftools] in the examples. *)
Definition fb_frequency (v : VariantRecord) : res (list num) := Ret [Float float_0_8].
Definition fb_balance (v : VariantRecord) : res (list num) := Ret [Float float_0_1].

(* ===================================================================== *)
(** * Properties                                                          *)
(* ===================================================================== *)

(** Closed equations between results are settled by evaluation. *)
Ltac evaluate := vm_compute; reflexivity.

(** ** Text: [in], [strip] and [split] *)

Section Strings.
Variable c : ascii.

Lemma contains_cons (a : ascii) (s : string) :
  contains c (String a s) = Ascii.eqb a c || contains c s.
Proof. reflexivity. Qed.

Lemma contains_app (s t : string) :
  contains c (s +:+ t) = contains c s || contains c t.
Proof.
  induction s as [|a s IH]; simpl; [reflexivity|].
  rewrite IH. apply orb_assoc.
Qed.

Lemma contains_lstrip (s : string) :
  contains c s = false -> contains c (lstrip s) = false.
Proof.
  induction s as [|a s IH]; simpl; intros H; [reflexivity|].
  apply orb_false_iff in H as [Ha Hs].
  destruct (is_space a); [auto|]. simpl. now rewrite Ha, Hs.
Qed.

Lemma contains_rstrip (s : string) :
  contains c s = false -> contains c (rstrip s) = false.
Proof.
  induction s as [|a s IH]; simpl; intros H; [reflexivity|].
  apply orb_false_iff in H as [Ha Hs]. specialize (IH Hs).
  destruct (rstrip s) as [|b r].
  - destruct (is_space a); simpl; [reflexivity|]. now rewrite Ha.
  - change (contains c (String a (String b r)))
      with (Ascii.eqb a c || contains c (String b r)).
    now rewrite Ha, IH.
Qed.

Lemma contains_strip (s : string) :
  contains c s = false -> contains c (strip s) = false.
Proof. intros H. apply contains_lstrip, contains_rstrip, H. Qed.

(** No part of a split holds the separator. *)
Lemma split_parts_sep (s x : string) :
  In x (split c s) -> contains c x = false.
Proof.
  revert x. induction s as [|a s IH]; simpl; intros x Hx.
  - destruct Hx as [<-|[]]. reflexivity.
  - destruct (Ascii.eqb a c) eqn:Ea.
    + destruct Hx as [<-|Hx]; [reflexivity|auto].
    + destruct (split c s) as [|h t] eqn:Es.
      * destruct Hx as [<-|[]]. simpl. now rewrite Ea.
      * destruct Hx as [<-|Hx].
        -- simpl. rewrite Ea. apply IH. now left.
        -- apply IH. now right.
Qed.

(** A character absent from the text is absent from every part. *)
Lemma split_parts_sub (d : ascii) (s x : string) :
  contains d s = false -> In x (split c s) -> contains d x = false.
Proof.
  revert x. induction s as [|a s IH]; simpl; intros x Hd Hx.
  - destruct Hx as [<-|[]]. reflexivity.
  - apply orb_false_iff in Hd as [Ha Hs].
    destruct (Ascii.eqb a c).
    + destruct Hx as [<-|Hx]; [reflexivity|auto].
    + destruct (split c s) as [|h t] eqn:Es.
      * destruct Hx as [<-|[]]. simpl. now rewrite Ha.
      * destruct Hx as [<-|Hx].
        -- simpl. rewrite Ha. apply IH; [assumption|now left].
        -- apply IH; [assumption|now right].
Qed.

Lemma split_no_sep (s : string) :
  contains c s = false -> split c s = [s].
Proof.
  induction s as [|a s IH]; simpl; intros H; [reflexivity|].
  apply orb_false_iff in H as [Ha Hs]. now rewrite Ha, (IH Hs).
Qed.

(** Splitting [x c y] where [x] holds no [c] cuts after [x]. *)
Lemma split_app (x y : string) :
  contains c x = false ->
  split c (x +:+ String c y) = x :: split c y.
Proof.
  induction x as [|a x IH]; simpl; intros H.
  - now rewrite Ascii.eqb_refl.
  - apply orb_false_iff in H as [Ha Hx]. now rewrite Ha, (IH Hx).
Qed.
End Strings.

(** ** Prefixes *)

Lemma startswith_nil (s : string) : startswith EmptyString s = true.
Proof. now destruct s. Qed.

Lemma startswith_cons (a b : ascii) (p s : string) :
  startswith (String a p) (String b s) = Ascii.eqb a b && startswith p s.
Proof.
  unfold startswith. simpl.
  destruct (ascii_dec a b) as [->|Hab].
  - now rewrite Ascii.eqb_refl.
  - apply Ascii.eqb_neq in Hab. now rewrite Hab.
Qed.

Lemma startswith_char (c : ascii) (s : string) :
  contains c s = false -> startswith (String c EmptyString) s = false.
Proof.
  destruct s as [|a s]; [reflexivity|].
  rewrite startswith_cons, contains_cons. rewrite Ascii.eqb_sym.
  intros H. apply orb_false_iff in H as [-> _]. reflexivity.
Qed.

Lemma if_bool_ret (b : bool) : (if b then Ret true else Ret false) = Ret b.
Proof. now destruct b. Qed.

(** ** The nested calls of [_filter_info_field] *)

Lemma filter_info_field_fuel_S (n : nat) (v : num) (e : string) :
  filter_info_field_fuel (S n) v e
  = filter_info_field_body (filter_info_field_fuel n) v e.
Proof. reflexivity. Qed.

(** The body uses the nested method only at the stripped parts of the
    threshold, and only when the threshold holds an operator. *)
Lemma filter_info_field_body_ext (f g : num -> string -> res bool) (v : num) (e : string) :
  (contains "&" e = true ->
   forall x, In x (split "&" e) -> f v (strip x) = g v (strip x)) ->
  (contains "&" e = false -> contains "|" e = true ->
   forall x, In x (split "|" e) -> f v (strip x) = g v (strip x)) ->
  filter_info_field_body f v e = filter_info_field_body g v e.
Proof.
  intros Hand Hor. unfold filter_info_field_body.
  destruct (contains "&" e).
  - destruct (split "&" e) as [|e1 [|e2 [|e3 l]]]; try reflexivity.
    rewrite (Hand eq_refl e1), (Hand eq_refl e2) by (simpl; auto). reflexivity.
  - destruct (contains "|" e); [|reflexivity].
    destruct (split "|" e) as [|e1 [|e2 [|e3 l]]]; try reflexivity.
    rewrite (Hor eq_refl eq_refl e1), (Hor eq_refl eq_refl e2) by (simpl; auto).
    reflexivity.
Qed.

(** A clause makes no nested call. *)
Lemma filter_info_field_fuel_clause (n : nat) (v : num) (e : string) :
  contains "&" e = false -> contains "|" e = false ->
  filter_info_field_fuel (S n) v e = filter_info_field_fuel 1 v e.
Proof.
  intros Ha Ho. rewrite !filter_info_field_fuel_S.
  apply filter_info_field_body_ext; congruence.
Qed.

(** Without [&], one level of nested calls. *)
Lemma filter_info_field_fuel_or (n : nat) (v : num) (e : string) :
  contains "&" e = false ->
  filter_info_field_fuel (S (S n)) v e = filter_info_field_fuel 2 v e.
Proof.
  intros Ha. rewrite (filter_info_field_fuel_S (S n)), (filter_info_field_fuel_S 1).
  apply filter_info_field_body_ext; [congruence|].
  intros _ _ x Hx. apply filter_info_field_fuel_clause; apply contains_strip.
  - exact (split_parts_sub _ _ _ _ Ha Hx).
  - exact (split_parts_sep _ _ _ Hx).
Qed.

(** Fuel beyond three changes nothing. *)
Lemma filter_info_field_fuel_enough (n : nat) (v : num) (e : string) :
  filter_info_field_fuel (3 + n) v e = _filter_info_field v e.
Proof.
  unfold _filter_info_field.
  change (3 + n)%nat with (S (S (S n))).
  rewrite (filter_info_field_fuel_S (S (S n))), (filter_info_field_fuel_S 2).
  apply filter_info_field_body_ext.
  - intros _ x Hx. apply filter_info_field_fuel_or, contains_strip.
    exact (split_parts_sep _ _ _ Hx).
  - intros Ha _ x Hx. apply filter_info_field_fuel_or, contains_strip.
    exact (split_parts_sub _ _ _ _ Ha Hx).
Qed.

(** [float(s)] raises nothing but [ValueError]. *)
Lemma float_of_string_raises (s : string) (e : exn) :
  float_of_string s = Raise e -> e = ValueError.
Proof.
  unfold float_of_string. destruct (underscores_ok Ascii.zero s); [|congruence].
  destruct (split_sign (strip_number (remove_underscores s))) as [neg body].
  destruct (_ || _); [discriminate|].
  destruct (String.eqb _ _); [discriminate|].
  destruct (span_digits body) as [ip r1].
  destruct (match r1 with String "." r => span_digits r | _ => (EmptyString, r1) end)
    as [fp r2].
  destruct (unsigned_of_string _); [destruct (exponent_of_string _)|]; congruence.
Qed.

Lemma filter_info_field_body_no_recursion_error
    (f : num -> string -> res bool) (v : num) (e : string) :
  (contains "&" e = true ->
   forall x, In x (split "&" e) -> f v (strip x) <> Raise RecursionError) ->
  (contains "&" e = false -> contains "|" e = true ->
   forall x, In x (split "|" e) -> f v (strip x) <> Raise RecursionError) ->
  filter_info_field_body f v e <> Raise RecursionError.
Proof.
  intros Hand Hor. unfold filter_info_field_body.
  destruct (contains "&" e).
  - destruct (split "&" e) as [|e1 [|e2 [|e3 l]]]; try discriminate.
    specialize (Hand eq_refl).
    pose proof (Hand e1 (or_introl eq_refl)) as H1.
    pose proof (Hand e2 (or_intror (or_introl eq_refl))) as H2.
    cbv zeta. destruct (f v (strip e1)) as [[]|]; simpl; congruence.
  - destruct (contains "|" e).
    + destruct (split "|" e) as [|e1 [|e2 [|e3 l]]]; try discriminate.
      specialize (Hor eq_refl eq_refl).
      pose proof (Hor e1 (or_introl eq_refl)) as H1.
      pose proof (Hor e2 (or_intror (or_introl eq_refl))) as H2.
      cbv zeta. destruct (f v (strip e1)) as [[]|]; simpl; congruence.
    + repeat match goal with
             | |- context [if ?b then _ else _] => destruct b
             | |- context [float_of_string ?s] =>
                 let E := fresh "E" in
                 destruct (float_of_string s) as [t|x] eqn:E;
                 [|apply float_of_string_raises in E; subst x]; simpl
             end; discriminate.
Qed.

(** The method never runs out of its three nested calls: it returns a
    truth value or raises one of Python's own exceptions. *)
Lemma filter_info_field_no_recursion_error (v : num) (e : string) :
  _filter_info_field v e <> Raise RecursionError.
Proof.
  assert (Hclause : forall x, contains "&" x = false -> contains "|" x = false ->
                    filter_info_field_fuel 1 v x <> Raise RecursionError).
  { intros x Ha Ho. rewrite filter_info_field_fuel_S.
    apply filter_info_field_body_no_recursion_error; congruence. }
  assert (Hor : forall x, contains "&" x = false ->
                filter_info_field_fuel 2 v x <> Raise RecursionError).
  { intros x Ha. rewrite filter_info_field_fuel_S.
    apply filter_info_field_body_no_recursion_error; [congruence|].
    intros _ _ y Hy. apply Hclause; apply contains_strip.
    - exact (split_parts_sub _ _ _ _ Ha Hy).
    - exact (split_parts_sep _ _ _ Hy). }
  unfold _filter_info_field. rewrite filter_info_field_fuel_S.
  apply filter_info_field_body_no_recursion_error.
  - intros _ x Hx. apply Hor, contains_strip. exact (split_parts_sep _ _ _ Hx).
  - intros Ha _ x Hx. apply Hor, contains_strip.
    exact (split_parts_sub _ _ _ _ Ha Hx).
Qed.

(** ** The text of a number

    A character that is neither white space, nor a digit, nor a capital
    letter, nor one of the marks of a number occurs in no text that
    [float] accepts. *)

Section FloatText.
Variable c : ascii.
Hypothesis c_not_space : is_number_space c = false.
Hypothesis c_not_digit : is_digit c = false.
Hypothesis c_not_upper : lower c = c.
Hypothesis c_not_mark : contains c "+-.einfaty" = false.
Hypothesis c_not_underscore : Ascii.eqb c "_" = false.

Lemma eqb_of_space (a : ascii) : is_number_space a = true -> Ascii.eqb a c = false.
Proof.
  intros Ha. destruct (Ascii.eqb_spec a c) as [->|]; [congruence|reflexivity].
Qed.

Lemma eqb_of_digit (a : ascii) : is_digit a = true -> Ascii.eqb a c = false.
Proof.
  intros Ha. destruct (Ascii.eqb_spec a c) as [->|]; [congruence|reflexivity].
Qed.

Lemma eqb_of_mark (a : ascii) :
  contains a "+-.einfaty" = true -> Ascii.eqb a c = false.
Proof.
  intros Ha. destruct (Ascii.eqb_spec a c) as [->|]; [congruence|reflexivity].
Qed.

Lemma eqb_of_lower (a : ascii) : Ascii.eqb (lower a) c = false -> Ascii.eqb a c = false.
Proof.
  intros Ha. destruct (Ascii.eqb_spec a c) as [->|]; [|reflexivity].
  rewrite c_not_upper, Ascii.eqb_refl in Ha. discriminate.
Qed.

Lemma contains_lstrip_inv (s : string) :
  contains c (lstrip_by is_number_space s) = false -> contains c s = false.
Proof.
  induction s as [|a s IH]; simpl; [reflexivity|].
  destruct (is_number_space a) eqn:Ea; [|exact (fun H => H)].
  intros H. now rewrite (eqb_of_space a Ea), (IH H).
Qed.

Lemma contains_rstrip_inv (s : string) :
  contains c (rstrip_by is_number_space s) = false -> contains c s = false.
Proof.
  induction s as [|a s IH]; simpl; [reflexivity|].
  destruct (rstrip_by is_number_space s) as [|b r].
  - destruct (is_number_space a) eqn:Ea; simpl; intros H.
    + now rewrite (eqb_of_space a Ea), IH.
    + apply orb_false_iff in H as [-> _]. now rewrite IH.
  - intros H.
    change (Ascii.eqb a c || contains c (String b r) = false) in H.
    apply orb_false_iff in H as [-> H]. now rewrite (IH H).
Qed.

Lemma contains_strip_inv (s : string) :
  contains c (strip_number s) = false -> contains c s = false.
Proof. intros H. now apply contains_rstrip_inv, contains_lstrip_inv. Qed.

Lemma contains_remove_underscores_inv (s : string) :
  contains c (remove_underscores s) = false -> contains c s = false.
Proof.
  induction s as [|a s IH]; simpl; [reflexivity|].
  destruct (Ascii.eqb_spec a "_") as [->|_].
  - intros H. now rewrite Ascii.eqb_sym, c_not_underscore, (IH H).
  - simpl. intros H. apply orb_false_iff in H as [-> H]. now rewrite (IH H).
Qed.

Lemma contains_split_sign (s body : string) (neg : bool) :
  split_sign s = (neg, body) -> contains c body = false -> contains c s = false.
Proof.
  unfold split_sign. intros H Hb.
  destruct s as [|a s]; [inversion H; subst; assumption|].
  destruct (Ascii.eqb_spec a "-") as [->|Hm]; [inversion H; subst|].
  { now rewrite contains_cons, Hb, (eqb_of_mark "-"). }
  destruct (Ascii.eqb_spec a "+") as [->|Hp]; [inversion H; subst|].
  { now rewrite contains_cons, Hb, (eqb_of_mark "+"). }
  assert (body = String a s) as ->; [|assumption].
  destruct a as [[] [] [] [] [] [] [] []]; inversion H; try reflexivity; congruence.
Qed.

Lemma contains_digits_from (s : string) :
  forall acc n, digits_from acc s = Some n -> contains c s = false.
Proof.
  induction s as [|a s IH]; simpl; intros acc n H; [reflexivity|].
  destruct (is_digit a) eqn:Ea; [|discriminate].
  now rewrite (eqb_of_digit a Ea), (IH _ _ H).
Qed.

Lemma contains_unsigned (s : string) (n : Z) :
  unsigned_of_string s = Some n -> contains c s = false.
Proof. destruct s; [discriminate|]. apply contains_digits_from. Qed.

Lemma span_digits_app (s : string) :
  forall d r, span_digits s = (d, r) -> s = d +:+ r /\ contains c d = false.
Proof.
  induction s as [|a s IH]; simpl; intros d r H.
  - inversion H; subst. auto.
  - destruct (is_digit a) eqn:Ea.
    + destruct (span_digits s) as [d' r'] eqn:Es. inversion H; subst.
      destruct (IH _ _ eq_refl) as [-> Hd]. simpl.
      now rewrite (eqb_of_digit a Ea), Hd.
    + inversion H; subst. auto.
Qed.

Lemma contains_exponent (s : string) (e : Z) :
  exponent_of_string s = Some e -> contains c s = false.
Proof.
  destruct s as [|a s]; simpl; [reflexivity|].
  destruct (Ascii.eqb (lower a) "e") eqn:Ea; [|discriminate].
  destruct (split_sign s) as [neg body] eqn:Es.
  destruct (unsigned_of_string body) as [n|] eqn:En; [|discriminate].
  intros _. rewrite (contains_split_sign _ _ _ Es (contains_unsigned _ _ En)).
  rewrite orb_false_r. apply eqb_of_lower.
  apply Ascii.eqb_eq in Ea. rewrite Ea. now apply eqb_of_mark.
Qed.

Lemma contains_lowercase (s : string) :
  contains c (lowercase s) = false -> contains c s = false.
Proof.
  induction s as [|a s IH]; simpl; [reflexivity|].
  intros H. apply orb_false_iff in H as [Ha Hs].
  now rewrite (IH Hs), (eqb_of_lower a Ha).
Qed.

Lemma contains_word (w : string) :
  (forall a, contains a w = true -> contains a "+-.einfaty" = true) ->
  contains c w = false.
Proof.
  induction w as [|a w IH]; intros H; [reflexivity|].
  rewrite contains_cons, eqb_of_mark, IH; [reflexivity| |].
  - intros b Hb. apply H. simpl. now rewrite Hb, orb_true_r.
  - apply H. simpl. now rewrite Ascii.eqb_refl.
Qed.

Lemma float_of_string_contains (s : string) (t : spec_float) :
  float_of_string s = Ret t -> contains c s = false.
Proof.
  unfold float_of_string. destruct (underscores_ok Ascii.zero s); [|discriminate].
  intros H. apply contains_remove_underscores_inv, contains_strip_inv.
  destruct (split_sign (strip_number (remove_underscores s))) as [neg body] eqn:Esign.
  apply (contains_split_sign _ _ _ Esign). clear Esign.
  destruct (String.eqb (lowercase body) "inf" || String.eqb (lowercase body) "infinity") eqn:Einf.
  { apply contains_lowercase.
    apply orb_true_iff in Einf as [E|E]; apply String.eqb_eq in E; rewrite E;
      apply contains_word; intros a Ha; cbn [contains] in Ha;
      repeat (apply orb_true_iff in Ha as [Ha|Ha]); try discriminate Ha;
      apply Ascii.eqb_eq in Ha; subst a; reflexivity. }
  destruct (String.eqb (lowercase body) "nan") eqn:Enan.
  { apply contains_lowercase. apply String.eqb_eq in Enan. rewrite Enan.
    apply contains_word; intros a Ha; cbn [contains] in Ha;
      repeat (apply orb_true_iff in Ha as [Ha|Ha]); try discriminate Ha;
      apply Ascii.eqb_eq in Ha; subst a; reflexivity. }
  destruct (span_digits body) as [ip r1] eqn:Eip.
  apply span_digits_app in Eip as [-> Hip].
  rewrite contains_app, Hip. simpl.
  destruct (match r1 with String "." r => span_digits r | _ => (EmptyString, r1) end)
    as [fp r2] eqn:Efp.
  destruct (unsigned_of_string (ip +:+ fp)); [|discriminate].
  destruct (exponent_of_string r2) as [e|] eqn:Ee; [|discriminate].
  apply contains_exponent in Ee.
  assert (Hr1 : r1 = r2 \/ exists r, r1 = String "." r /\ span_digits r = (fp, r2)).
  { destruct r1 as [|a r]; [inversion Efp; auto|].
    destruct (Ascii.eqb_spec a ".") as [->|Ha]; [right; eauto|left].
    destruct a as [[] [] [] [] [] [] [] []]; inversion Efp; try reflexivity; congruence. }
  destruct Hr1 as [->|(r & -> & Er)]; [assumption|].
  apply span_digits_app in Er as [-> Hfp].
  now rewrite contains_cons, contains_app, Hfp, Ee, (eqb_of_mark ".").
Qed.
End FloatText.

Lemma float_of_string_text (s : string) (t : spec_float) :
  float_of_string s = Ret t ->
  contains "&" s = false /\ contains "|" s = false /\ contains "=" s = false.
Proof.
  intros H. repeat split;
    apply (fun Hs Hd Hu Hm Hx => float_of_string_contains _ Hs Hd Hu Hm Hx s t H);
    reflexivity.
Qed.

(** ** Rounding never yields a NaN *)

Lemma iter_pos_invariant {A : Type} (P : A -> Prop) (f : A -> A) :
  (forall x, P x -> P (f x)) -> forall p x, P x -> P (SpecFloat.iter_pos f p x).
Proof.
  intros Hf. induction p as [p IH|p IH|]; simpl; intros x Hx; auto.
Qed.

Lemma shr_1_nonneg (mrs : shr_record) :
  (0 <= shr_m mrs)%Z -> (0 <= shr_m (shr_1 mrs))%Z.
Proof.
  destruct mrs as [m r s]. simpl.
  destruct m as [|[p|p|]|[p|p|]]; simpl; lia.
Qed.

Lemma shr_fexp_nonneg (m e : Z) (l : location) :
  (0 <= m)%Z -> (0 <= shr_m (fst (shr_fexp prec emax m e l)))%Z.
Proof.
  intros Hm. unfold shr_fexp, shr.
  assert (H0 : (0 <= shr_m (shr_record_of_loc m l))%Z) by (destruct l as [|[]]; exact Hm).
  destruct (fexp prec emax (Zdigits2 m + e) - e)%Z; simpl; auto.
  apply (iter_pos_invariant (fun x => 0 <= shr_m x)%Z); auto using shr_1_nonneg.
Qed.

Lemma round_nearest_even_nonneg (m : Z) (l : location) :
  (0 <= m)%Z -> (0 <= round_nearest_even m l)%Z.
Proof.
  intros Hm. destruct l as [|[]]; simpl; try lia. destruct (Z.even m); lia.
Qed.

(** The outcome of rounding a non-negative mantissa carries the given sign
    and is a zero, a finite number or an infinity. *)
Lemma binary_round_aux_signed (sx : bool) (mx ex : Z) (lx : location) :
  (0 <= mx)%Z -> signed_as sx (binary_round_aux prec emax sx mx ex lx).
Proof.
  intros Hm. unfold binary_round_aux.
  pose proof (shr_fexp_nonneg mx ex lx Hm) as H1.
  destruct (shr_fexp prec emax mx ex lx) as [mrs' e']. simpl in H1.
  pose proof (shr_fexp_nonneg _ e' loc_Exact
                (round_nearest_even_nonneg _ (loc_of_shr_record mrs') H1)) as H2.
  destruct (shr_fexp prec emax _ e' loc_Exact) as [mrs'' e'']. simpl in H2.
  destruct (shr_m mrs'') as [|m|m]; simpl; [reflexivity| |lia].
  destruct (e'' <=? emax - prec)%Z; reflexivity.
Qed.

Lemma binary_round_signed (sx : bool) (mx : positive) (ex : Z) :
  signed_as sx (binary_round prec emax sx mx ex).
Proof.
  unfold binary_round.
  destruct (shl_align mx ex _) as [mz ez]. now apply binary_round_aux_signed.
Qed.

Lemma round_Z_nonneg (z : Z) : (0 <= z)%Z -> signed_as false (round_Z z).
Proof.
  intros Hz. unfold round_Z, binary_normalize.
  destruct z as [|p|p]; [reflexivity|apply binary_round_signed|lia].
Qed.

Lemma round_Z_not_nan (z : Z) : round_Z z <> S754_nan.
Proof.
  unfold round_Z, binary_normalize. destruct z as [|p|p]; [discriminate| |].
  - pose proof (binary_round_signed false p 0) as H. intros E. now rewrite E in H.
  - pose proof (binary_round_signed true p 0) as H. intros E. now rewrite E in H.
Qed.

Lemma SFdiv_not_nan (f g : spec_float) (sf : bool) :
  signed_as sf f -> (forall s, f <> S754_infinity s) ->
  signed_as false g -> is_zero g = false ->
  SFdiv prec emax f g <> S754_nan.
Proof.
  intros Hf Hfin Hg Hz.
  destruct f as [s|s| |s m e]; [| |destruct Hf|];
    (destruct g as [s'|s'| |s' m' e']; [discriminate Hz| |destruct Hg|]);
    try discriminate; try (now destruct (Hfin s)).
  simpl.
  destruct (SFdiv_core_binary prec emax (Z.pos m) e (Z.pos m') e') as [[mz ez] lz] eqn:E.
  assert (Hmz : (0 <= mz)%Z).
  { unfold SFdiv_core_binary in E.
    set (m1 := match (e - e' - _)%Z with Z.pos _ => _ | 0%Z => _ | Z.neg _ => _ end) in E.
    assert (H1 : (0 <= m1)%Z).
    { subst m1. destruct (e - e' - _)%Z; try lia. apply Z.shiftl_nonneg. lia. }
    pose proof (Z.div_pos m1 (Z.pos m') H1 ltac:(lia)) as Hq.
    unfold Z.div in Hq. destruct (Z.div_eucl m1 (Z.pos m')) as [q r].
    inversion E; subst. exact Hq. }
  pose proof (binary_round_aux_signed (xorb s s') mz ez lz Hmz) as H.
  intros E'. now rewrite E' in H.
Qed.

Local Open Scope Z_scope.

(** ** Conversion of an integer to binary64 *)

Lemma digits2_pos_bounds (p : positive) :
  2 ^ (Z.pos (digits2_pos p) - 1) <= Z.pos p < 2 ^ Z.pos (digits2_pos p).
Proof.
  induction p as [p IH|p IH|]; cbn [digits2_pos].
  - rewrite Pos2Z.inj_succ, Z.pow_succ_r by lia.
    replace (Z.succ (Z.pos (digits2_pos p)) - 1) with (Z.succ (Z.pos (digits2_pos p) - 1)) by lia.
    rewrite Z.pow_succ_r by lia. lia.
  - rewrite Pos2Z.inj_succ, Z.pow_succ_r by lia.
    replace (Z.succ (Z.pos (digits2_pos p)) - 1) with (Z.succ (Z.pos (digits2_pos p) - 1)) by lia.
    rewrite Z.pow_succ_r by lia. lia.
  - cbn. lia.
Qed.

Lemma Zdigits2_unique (m d : Z) :
  2 ^ (d - 1) <= m < 2 ^ d -> 0 < d -> Zdigits2 m = d.
Proof.
  intros [Hlo Hhi] Hd.
  assert (0 < m) by (pose proof (Z.pow_pos_nonneg 2 (d - 1)); lia).
  destruct m as [|p|p]; try lia. cbn [Zdigits2].
  pose proof (digits2_pos_bounds p) as [Hlo' Hhi'].
  set (d' := Z.pos (digits2_pos p)) in *.
  assert (d - 1 < d') by (apply (Z.pow_lt_mono_r_iff 2); lia).
  assert (d' - 1 < d) by (apply (Z.pow_lt_mono_r_iff 2); lia).
  lia.
Qed.

Lemma iter_xO_value (k p : positive) :
  Z.pos (Pos.iter xO p k) = Z.pos p * 2 ^ Z.pos k.
Proof.
  induction k as [|k IH] using Pos.peano_ind.
  - cbn. lia.
  - rewrite Pos.iter_succ, Pos2Z.inj_succ, Z.pow_succ_r by lia.
    rewrite Pos2Z.inj_xO, IH. lia.
Qed.

Lemma shr_1_div2 (mrs : shr_record) :
  0 <= shr_m mrs -> shr_m (shr_1 mrs) = shr_m mrs / 2.
Proof.
  destruct mrs as [m r s]. cbn [shr_m shr_1].
  destruct m as [|[p|p|]|p]; cbn [shr_m]; intros H; try lia; try reflexivity.
  - apply Z.div_unique with (r := 1); lia.
  - apply Z.div_unique with (r := 0); lia.
Qed.

Lemma shr_iter_div (n : positive) :
  forall mrs : shr_record,
    0 <= shr_m mrs ->
    shr_m (SpecFloat.iter_pos shr_1 n mrs) = shr_m mrs / 2 ^ Z.pos n.
Proof.
  assert (Hnn : forall k (x : shr_record), 0 <= shr_m x ->
                 0 <= shr_m (SpecFloat.iter_pos shr_1 k x)).
  { intros k x Hx.
    apply (iter_pos_invariant (fun y => 0 <= shr_m y)); auto using shr_1_nonneg. }
  induction n as [n IH|n IH|]; intros mrs Hm; cbn [SpecFloat.iter_pos].
  - rewrite IH, IH, shr_1_div2 by auto using shr_1_nonneg.
    rewrite !Z.div_div by lia. f_equal.
    replace (Z.pos n~1) with (Z.pos n + Z.pos n + 1) by lia.
    rewrite !Z.pow_add_r, Z.pow_1_r by lia. ring.
  - rewrite IH, IH by auto.
    rewrite !Z.div_div by lia. f_equal.
    replace (Z.pos n~0) with (Z.pos n + Z.pos n) by lia.
    rewrite !Z.pow_add_r by lia. ring.
  - rewrite shr_1_div2 by assumption. reflexivity.
Qed.

Lemma fexp_normal (e : Z) : emin prec emax <= e - 53 -> fexp prec emax e = e - 53.
Proof. unfold fexp, emin, prec, emax. lia. Qed.

(** One shift to the working precision: the mantissa is divided by
    [2 ^ n] and the exponent raised by [n]. *)
Lemma shr_fexp_shift (m e : Z) (l : location) (n : Z) :
  0 <= m -> 0 <= n -> fexp prec emax (Zdigits2 m + e) - e = n ->
  exists mrs, shr_fexp prec emax m e l = (mrs, e + n) /\ shr_m mrs = m / 2 ^ n
              /\ (n = 0 -> mrs = shr_record_of_loc m l).
Proof.
  intros Hm Hn E. unfold shr_fexp, shr. rewrite E.
  assert (H0 : shr_m (shr_record_of_loc m l) = m) by (destruct l as [|[]]; reflexivity).
  destruct n as [|k|k]; try lia.
  - exists (shr_record_of_loc m l). rewrite Z.add_0_r, H0, Z.pow_0_r, Z.div_1_r. auto.
  - eexists. split; [reflexivity|]. split; [|lia].
    rewrite shr_iter_div by (rewrite H0; exact Hm). now rewrite H0.
Qed.

Lemma round_nearest_even_bounds (m : Z) (l : location) :
  m <= round_nearest_even m l <= m + 1.
Proof. destruct l as [|[]]; cbn; try lia. destruct (Z.even m); lia. Qed.

(** Rounding a mantissa of at least 53 bits whose value lies in the normal
    range yields a finite number of the same sign. *)
Lemma binary_round_aux_normal (sx : bool) (mx ex : Z) (lx : location) :
  0 < mx -> 53 <= Zdigits2 mx ->
  emin prec emax <= Zdigits2 mx + ex - 53 -> Zdigits2 mx + ex <= 1023 ->
  exists m e, binary_round_aux prec emax sx mx ex lx = S754_finite sx m e.
Proof.
  intros Hmx HD Hlo Hhi. set (D := Zdigits2 mx) in *.
  assert (HmxD : 2 ^ (D - 1) <= mx < 2 ^ D).
  { subst D. destruct mx as [|p|p]; try lia. apply digits2_pos_bounds. }
  unfold binary_round_aux.
  destruct (shr_fexp_shift mx ex lx (D - 53)) as (mrs' & -> & Hm' & _); try lia.
  { fold D. rewrite fexp_normal by lia. lia. }
  set (m' := shr_m mrs') in *.
  assert (Hm'b : 2 ^ 52 <= m' < 2 ^ 53).
  { rewrite Hm'.
    assert (E1 : 2 ^ (D - 1) = 2 ^ 52 * 2 ^ (D - 53)).
    { rewrite <- Z.pow_add_r by lia. f_equal. lia. }
    assert (E2 : 2 ^ D = 2 ^ 53 * 2 ^ (D - 53)).
    { rewrite <- Z.pow_add_r by lia. f_equal. lia. }
    assert (0 < 2 ^ (D - 53)) by (apply Z.pow_pos_nonneg; lia).
    split.
    - apply Z.div_le_lower_bound; lia.
    - apply Z.div_lt_upper_bound; lia. }
  pose proof (round_nearest_even_bounds m' (loc_of_shr_record mrs')) as Hr.
  set (m1 := round_nearest_even m' (loc_of_shr_record mrs')) in *.
  set (e' := ex + (D - 53)) in *.
  assert (Hcases : m1 < 2 ^ 53 \/ m1 = 2 ^ 53) by lia.
  destruct Hcases as [Hlt|Heq].
  - assert (HD1 : Zdigits2 m1 = 53) by (apply Zdigits2_unique; [change (53 - 1) with 52|]; lia).
    destruct (shr_fexp_shift m1 e' loc_Exact 0) as (mrs'' & -> & Hm'' & _); try lia.
    { rewrite HD1, fexp_normal by (subst e'; lia). lia. }
    rewrite Hm'', Z.pow_0_r, Z.div_1_r.
    destruct m1 as [|q|q]; try lia.
    assert ((e' + 0 <=? emax - prec) = true) as -> by (apply Z.leb_le; unfold emax, prec; subst e'; lia).
    eauto.
  - assert (HD1 : Zdigits2 m1 = 54) by (rewrite Heq; reflexivity).
    destruct (shr_fexp_shift m1 e' loc_Exact 1) as (mrs'' & -> & Hm'' & _); try lia.
    { rewrite HD1, fexp_normal by (subst e'; lia). lia. }
    rewrite Hm'', Heq. change (2 ^ 53 / 2 ^ 1) with (Z.pos (2 ^ 52)).
    assert ((e' + 1 <=? emax - prec) = true) as -> by (apply Z.leb_le; unfold emax, prec; subst e'; lia).
    eauto.
Qed.

(** An integer below [2 ^ 1023] in magnitude converts to a finite number of
    its sign. *)
Lemma binary_round_integer (sx : bool) (p : positive) :
  Z.pos p < 2 ^ 1023 ->
  exists m e, binary_round prec emax sx p 0 = S754_finite sx m e.
Proof.
  intros Hbig. pose proof (digits2_pos_bounds p) as [Hlo Hhi].
  unfold binary_round. set (d := Z.pos (digits2_pos p)) in *.
  assert (Hd : 1 <= d <= 1023).
  { split; [subst d; lia|].
    assert (d - 1 < 1023) by (apply (Z.pow_lt_mono_r_iff 2); lia). lia. }
  rewrite Z.add_0_r, fexp_normal by (unfold emin, prec, emax; lia).
  unfold shl_align.
  destruct (d - 53 - 0) as [|k|k] eqn:Ek.
  - apply binary_round_aux_normal; cbn [Zdigits2]; fold d;
      unfold emin, prec, emax; lia.
  - apply binary_round_aux_normal; cbn [Zdigits2]; fold d;
      unfold emin, prec, emax; lia.
  - assert (HD : Zdigits2 (Z.pos (Pos.iter xO p k)) = 53).
    { apply Zdigits2_unique; [|lia]. rewrite iter_xO_value.
      assert (E1 : 2 ^ (53 - 1) = 2 ^ (d - 1) * 2 ^ Z.pos k).
      { rewrite <- Z.pow_add_r by lia. f_equal. lia. }
      assert (E2 : 2 ^ 53 = 2 ^ d * 2 ^ Z.pos k).
      { rewrite <- Z.pow_add_r by lia. f_equal. lia. }
      assert (0 < 2 ^ Z.pos k) by (apply Z.pow_pos_nonneg; lia).
      rewrite E1, E2. split.
      - apply Z.mul_le_mono_nonneg_r; lia.
      - apply Z.mul_lt_mono_pos_r; lia. }
    apply binary_round_aux_normal; rewrite ?HD; unfold emin, prec, emax; lia.
Qed.

Lemma round_Z_finite (z : Z) :
  0 < z < 2 ^ 1023 -> exists m e, round_Z z = S754_finite false m e.
Proof.
  intros [Hz Hbig]. destruct z as [|p|p]; try lia.
  now apply binary_round_integer.
Qed.

Local Close Scope Z_scope.

(** ** Comparisons *)

Lemma compare_not_nan (a b : num) :
  is_nan a = false -> is_nan b = false -> compare a b <> None.
Proof.
  destruct a as [x|f], b as [y|g]; simpl; intros Ha Hb.
  - discriminate.
  - destruct g; discriminate.
  - destruct f; discriminate.
  - destruct f, g; discriminate.
Qed.

Lemma is_nan_Float (f : spec_float) : f <> S754_nan -> is_nan (Float f) = false.
Proof. destruct f; simpl; congruence. Qed.

Lemma lt_ge (a b : num) : compare a b <> None -> lt a b = negb (ge a b).
Proof. unfold lt, ge. intros H. destruct (compare a b) as [[]|]; simpl; congruence. Qed.

Lemma gt_le (a b : num) : compare a b <> None -> gt a b = negb (le a b).
Proof. unfold gt, le. intros H. destruct (compare a b) as [[]|]; simpl; congruence. Qed.

(** A number strictly below another is not equal to it. *)
Lemma lt_not_equal (a b : num) : lt a b && negb (ne a b) = false.
Proof. unfold lt, ne. destruct (compare a b) as [[]|]; reflexivity. Qed.

(** ** Conversion of counts *)

Lemma round_Z_count (z : Z) :
  (0 <= z < 2 ^ 1023)%Z ->
  (z = 0%Z /\ round_Z z = S754_zero false) \/
  ((0 < z)%Z /\ exists m e, round_Z z = S754_finite false m e).
Proof.
  intros [Hz Hbig]. destruct (Z.eq_dec z 0%Z) as [->|Hnz].
  - left. split; reflexivity.
  - right. split; [lia|]. apply round_Z_finite. lia.
Qed.

Lemma float_of_Z_count (z : Z) :
  (0 <= z < 2 ^ 1023)%Z -> float_of_Z z = Ret (round_Z z).
Proof.
  intros Hz. unfold float_of_Z.
  destruct (round_Z_count z Hz) as [[_ ->]|[_ (m & e & ->)]]; reflexivity.
Qed.

(** A strand total is positive exactly when it is not zero. *)
Lemma gt_zero_round_Z (z : Z) :
  (0 <= z < 2 ^ 1023)%Z ->
  gt (Float (round_Z z)) (Int 0) = negb (z =? 0)%Z.
Proof.
  intros Hz.
  destruct (round_Z_count z Hz) as [[-> ->]|[Hpos (m & e & ->)]]; [reflexivity|].
  replace (z =? 0)%Z with false by (symmetry; apply Z.eqb_neq; lia).
  unfold gt. cbn [compare compare_Z_float option_map negb].
  destruct (0 <=? e)%Z eqn:He; [|reflexivity].
  apply Z.leb_le in He.
  assert (0 < Z.pos m * 2 ^ e)%Z as H
      by (apply Z.mul_pos_pos; [lia|apply Z.pow_pos_nonneg; lia]).
  destruct (Z.pos m * 2 ^ e)%Z; (lia || reflexivity).
Qed.

Lemma strand_ratios_spec (ref alt total : Z) :
  (0 <= ref < 2 ^ 1023)%Z -> (0 <= alt < 2 ^ 1023)%Z -> (0 <= total < 2 ^ 1023)%Z ->
  strand_ratios (Int ref) (Int alt) (round_Z total)
  = Ret (dp4_ratio ref total, dp4_ratio alt total).
Proof.
  intros Hr Ha Ht. unfold strand_ratios, dp4_ratio, truediv.
  rewrite (gt_zero_round_Z total Ht).
  destruct (round_Z_count total Ht) as [[-> _]|[Hpos (m & e & Et)]]; [reflexivity|].
  replace (total =? 0)%Z with false by (symmetry; apply Z.eqb_neq; lia).
  cbn [negb float_of_num].
  rewrite (float_of_Z_count ref Hr), (float_of_Z_count alt Ha), Et.
  reflexivity.
Qed.

Lemma dp4_ratio_not_nan (count total : Z) :
  (0 <= count < 2 ^ 1023)%Z -> (0 <= total < 2 ^ 1023)%Z ->
  is_nan (dp4_ratio count total) = false.
Proof.
  intros Hc Ht. unfold dp4_ratio.
  destruct (round_Z_count total Ht) as [[-> _]|[Hpos (m & e & Et)]]; [reflexivity|].
  replace (total =? 0)%Z with false by (symmetry; apply Z.eqb_neq; lia).
  apply is_nan_Float, (SFdiv_not_nan _ _ false).
  - apply round_Z_nonneg. lia.
  - intros s.
    destruct (round_Z_count count Hc) as [[_ ->]|[_ (m' & e' & ->)]]; discriminate.
  - apply round_Z_nonneg. lia.
  - now rewrite Et.
Qed.

Lemma is_polymorphic_alt (variant : VariantRecord) (alt0 : option string)
    (alts : list (option string)) :
  ALT variant = alt0 :: alts -> is_polymorphic variant = Ret (polymorphic_alt alt0).
Proof.
  intros E. unfold is_polymorphic. rewrite E. simpl.
  destruct alt0 as [a|]; simpl; [|reflexivity]. now destruct (String.eqb (strip a) ".").
Qed.

(** The five tests of one branch of [is_valid_dp4]. *)
Lemma dp4_tests (depth fwd rev ratio_fwd ratio_rev md mds mr : num) :
  is_nan depth = false -> is_nan fwd = false -> is_nan rev = false ->
  is_nan ratio_fwd = false -> is_nan ratio_rev = false ->
  is_nan md = false -> is_nan mds = false -> is_nan mr = false ->
  (if lt depth md then Ret false
   else if lt fwd mds then Ret false
   else if lt rev mds then Ret false
   else if lt ratio_fwd mr then Ret false
   else if lt ratio_rev mr then Ret false
   else Ret true)
  = Ret (ge depth md && ge fwd mds && ge rev mds && ge ratio_fwd mr && ge ratio_rev mr).
Proof.
  intros. rewrite !lt_ge by now apply compare_not_nan.
  destruct (ge depth md), (ge fwd mds), (ge rev mds), (ge ratio_fwd mr), (ge ratio_rev mr);
    reflexivity.
Qed.

(** ** Subtraction from one *)

Lemma binary_normalize_not_nan (m e : Z) (szero : bool) :
  binary_normalize prec emax m e szero <> S754_nan.
Proof.
  unfold binary_normalize. destruct m as [|p|p]; [discriminate| |].
  - pose proof (binary_round_signed false p e) as H. intros E. now rewrite E in H.
  - pose proof (binary_round_signed true p e) as H. intros E. now rewrite E in H.
Qed.

Lemma SFsub_finite_not_nan (s : bool) (m : positive) (e : Z) (g : spec_float) :
  g <> S754_nan -> SFsub prec emax (S754_finite s m e) g <> S754_nan.
Proof.
  intros Hg. destruct g as [s'|s'| |s' m' e']; try discriminate; [congruence|].
  apply binary_normalize_not_nan.
Qed.

(** [1 - m] is a number, and not a NaN unless [m] is. *)
Lemma one_minus (m : num) :
  is_nan m = false ->
  exists bound, sub (Int 1) m = Ret bound /\ is_nan bound = false.
Proof.
  intros Hm. destruct m as [z|f].
  - eexists. split; reflexivity.
  - eexists. split; [reflexivity|].
    apply is_nan_Float.
    change (round_Z 1) with (S754_finite false 4503599627370496 (-52)).
    apply SFsub_finite_not_nan. intros ->. discriminate Hm.
Qed.

(** ** The logging monad *)

Lemma mbind_ret_inv {A B : Type} (m : M A) (k : A -> M B) (log : list event) (b : B) :
  mbind m k = (log, Ret b) ->
  exists l1 a l2, m = (l1, Ret a) /\ k a = (l2, Ret b) /\ log = l1 ++ l2.
Proof.
  unfold mbind. destruct m as [l1 [a|e]]; [|discriminate].
  destruct (k a) as [l2 r] eqn:Ek. intros H. inversion H; subst.
  exists l1, a, l2. auto.
Qed.


(** ** The indel test and the early exits of the loop over the rules *)

(** What [is_indel] tests: a comma in the first ALT entry, a comma as the
    first character of REF, a true INDEL annotation. *)
Lemma is_indel_spec (variant : VariantRecord) (alt0 : option string)
    (alts : list (option string)) (c : ascii) (ref : string) :
  ALT variant = alt0 :: alts -> REF variant = String c ref ->
  is_indel variant
  = Ret (match alt0 with Some a => contains "," a | None => false end
         || Ascii.eqb c ","
         || match INFO variant !! "INDEL" with
            | Some flag => truthy flag
            | None => false
            end).
Proof.
  intros Halt Href. unfold is_indel. rewrite Halt, Href.
  change (getitem (alt0 :: alts) 0) with (Ret alt0).
  cbn [bind first_char contains].
  destruct (match alt0 with Some a => contains "," a | None => false end); [reflexivity|].
  rewrite orb_false_r. destruct (Ascii.eqb c ","); [reflexivity|]. cbn [orb].
  destruct (INFO variant !! "INDEL") as [flag|]; [|reflexivity].
  now destruct (truthy flag).
Qed.

(** A [sum(...)] rule ends the loop whatever it decides: no rule after it
    is evaluated. *)
Lemma sum_rule_ends_loop (vcf_line : VariantRecord) (iline : option Z)
    (key thr : string) (rules : list (string * string)) :
  startswith "sum(" key = true ->
  info_rules vcf_line iline ((key, thr) :: rules)
  = info_rules vcf_line iline [(key, thr)].
Proof.
  intros Hsum. cbn [info_rules]. unfold info_rule.
  assert (String.eqb key "PV4" = false) as ->.
  { apply String.eqb_neq. intros ->. discriminate Hsum. }
  rewrite Hsum. cbn [mret mbind app].
  destruct (INFO vcf_line !! _) as [x|]; [|reflexivity].
  cbn [lift mbind app].
  destruct (eval_sum _ _ x) as [result|e]; [|reflexivity].
  destruct (_filter_info_field result thr) as [[]|e]; reflexivity.
Qed.


(** ** The rules dictionary *)


(** ** The claims *)







(** C3, the code at the failing input: the record passes the rule
    [sum(DP4[2],DP4[3])<2], upon which [_filter_line] returns [True] at
    once; the rule [DP<50] that follows is not evaluated, although on its
    own it discards the record.  The key [PV4] on a record that is not
    polymorphic does the same. *)
Lemma early_return_skips_later_rules :
  fd_INFO (filter_dict vcf_sum_then_dp) = [("sum(DP4[2],DP4[3])", "<2"); ("DP", "<50")] /\
  _filter_line vcf_sum_then_dp snp_record None (Some 0%Z) = ([], Ret true) /\
  _filter_line vcf_dp snp_record None (Some 0%Z)
  = ([DebugInfo "DP" "<50" (Scalar (Int 40))], Ret false) /\
  fd_INFO (filter_dict vcf_pv4_then_dp) = [("PV4", "<0.001"); ("DP", "<50")] /\
  _filter_line vcf_pv4_then_dp ref_record None (Some 0%Z) = ([], Ret true) /\
  _filter_line vcf_dp ref_record None (Some 0%Z)
  = ([DebugInfo "DP" "<50" (Scalar (Int 22))], Ret false).
Proof. repeat split; evaluate. Qed.

(** C4, the code at the failing input: [is_indel] looks for the comma in
    [REF[0]], the first character of [A,AT], finds none, and the record is
    kept although the indel filter is on. *)
Lemma multi_allele_ref_kept :
  apply_indel_filter vcf_indel = true /\
  is_indel multi_ref_record = Ret false /\
  _filter_line vcf_indel multi_ref_record None (Some 0%Z) = ([], Ret true).
Proof. repeat split; evaluate. Qed.

(** C5.  With DP4 present as the four counts [ref_fwd, ref_rev, alt_fwd,
    alt_rev] (non-negative integers below [count_bound]) and thresholds
    that are not NaN, [is_valid_dp4] returns, and its answer is the
    conjunction of the five conditions [depth >= min_depth],
    [fwd >= min_depth_strand], [rev >= min_depth_strand],
    [ratio_fwd >= min_ratio] and [ratio_rev >= min_ratio], taken on the alt
    counts for a polymorphic record and on the ref counts otherwise, a
    ratio being 0 when its denominator is 0.  Without DP4 the answer is
    [True].  The two examples of the claim are in the witness. *)
Theorem dp4_filter_spec :
  (forall (variant : VariantRecord) (alt0 : option string) (alts : list (option string))
          (ref_fwd ref_rev alt_fwd alt_rev : Z)
          (min_depth min_depth_strand min_ratio : num),
      INFO variant !! "DP4"
      = Some (List [Int ref_fwd; Int ref_rev; Int alt_fwd; Int alt_rev]) ->
      ALT variant = alt0 :: alts ->
      (0 <= ref_fwd < count_bound)%Z -> (0 <= ref_rev < count_bound)%Z ->
      (0 <= alt_fwd < count_bound)%Z -> (0 <= alt_rev < count_bound)%Z ->
      is_nan min_depth = false -> is_nan min_depth_strand = false ->
      is_nan min_ratio = false ->
      is_valid_dp4 variant min_depth min_depth_strand min_ratio
      = Ret (if polymorphic_alt alt0
             then dp4_passes alt_fwd alt_rev (ref_fwd + alt_fwd) (ref_rev + alt_rev)
                    min_depth min_depth_strand min_ratio
             else dp4_passes ref_fwd ref_rev (ref_fwd + alt_fwd) (ref_rev + alt_rev)
                    min_depth min_depth_strand min_ratio))
  /\
  (forall (variant : VariantRecord) (min_depth min_depth_strand min_ratio : num),
      INFO variant !! "DP4" = None ->
      is_valid_dp4 variant min_depth min_depth_strand min_ratio = Ret true).
Proof.
  split.
  - intros variant alt0 alts ref_fwd ref_rev alt_fwd alt_rev
      min_depth min_depth_strand min_ratio.
    intros Hdp4 Halt Hrf Hrr Haf Har Hmd Hmds Hmr.
    assert (Hb : (2 * count_bound = 2 ^ 1023)%Z) by reflexivity.
    unfold is_valid_dp4. rewrite Hdp4. cbv beta iota.
    set (dp4 := List [Int ref_fwd; Int ref_rev; Int alt_fwd; Int alt_rev]).
    change (subscript dp4 0) with (Ret (Int ref_fwd)).
    change (subscript dp4 1) with (Ret (Int ref_rev)).
    change (subscript dp4 2) with (Ret (Int alt_fwd)).
    change (subscript dp4 3) with (Ret (Int alt_rev)).
    cbn [bind add float_of_num].
    rewrite (float_of_Z_count (ref_fwd + alt_fwd)) by lia. cbn [bind].
    rewrite strand_ratios_spec by lia. cbn [bind].
    rewrite (float_of_Z_count (ref_rev + alt_rev)) by lia. cbn [bind].
    rewrite strand_ratios_spec by lia. cbn [bind].
    rewrite (is_polymorphic_alt _ _ _ Halt). cbn [bind].
    unfold dp4_passes.
    destruct (polymorphic_alt alt0); cbn [negb];
      apply dp4_tests; trivial; apply dp4_ratio_not_nan; lia.
  - intros variant md mds mr Hdp4. unfold is_valid_dp4. now rewrite Hdp4.
Qed.

Lemma dp4_filter_spec_witness :
  INFO ref_record !! "DP4" = Some (List [Int 10; Int 10; Int 1; Int 1]) /\
  polymorphic_alt None = false /\
  is_valid_dp4 ref_record (Int 4) (Int 2) (Float float_0_75) = Ret true /\
  is_valid_dp4 ref_record (Int 4) (Int 2) (Float float_0_95) = Ret false.
Proof.
  split; [vm_compute; reflexivity|]. split; [reflexivity|].
  split.
  - rewrite (proj1 dp4_filter_spec ref_record None [] 10%Z 10%Z 1%Z 1%Z
               (Int 4) (Int 2) (Float float_0_75));
      try (vm_compute; reflexivity); unfold count_bound; lia.
  - rewrite (proj1 dp4_filter_spec ref_record None [] 10%Z 10%Z 1%Z 1%Z
               (Int 4) (Int 2) (Float float_0_95));
      try (vm_compute; reflexivity); unfold count_bound; lia.
Defined.

(** C6.  With AF1 present as a number and neither it nor the threshold a
    NaN, [is_valid_af1] returns, and its answer is [AF1 >= min_af1] for a
    polymorphic record (first ALT entry not null and, stripped, not ["."])
    and [AF1 <= 1 - min_af1] otherwise.  Without AF1 the answer is
    [True]. *)
Theorem af1_filter_spec :
  (forall (variant : VariantRecord) (alt0 : option string) (alts : list (option string))
          (af1 minimum_af1 : num),
      INFO variant !! "AF1" = Some (Scalar af1) ->
      ALT variant = alt0 :: alts ->
      is_nan af1 = false -> is_nan minimum_af1 = false ->
      exists bound,
        sub (Int 1) minimum_af1 = Ret bound /\
        is_valid_af1 variant minimum_af1
        = Ret (if polymorphic_alt alt0 then ge af1 minimum_af1 else le af1 bound))
  /\
  (forall (variant : VariantRecord) (minimum_af1 : num),
      INFO variant !! "AF1" = None -> is_valid_af1 variant minimum_af1 = Ret true).
Proof.
  split.
  - intros variant alt0 alts af1 m Haf1 Halt Hnan Hm.
    destruct (one_minus m Hm) as (bound & Hsub & Hb).
    exists bound. split; [exact Hsub|].
    unfold is_valid_af1. rewrite Haf1, (is_polymorphic_alt _ _ _ Halt), Hsub.
    cbn [bind as_num].
    rewrite lt_ge, gt_le by now apply compare_not_nan.
    destruct (polymorphic_alt alt0); [destruct (ge af1 m)|destruct (le af1 bound)]; reflexivity.
  - intros variant m Haf1. unfold is_valid_af1. now rewrite Haf1.
Qed.

Lemma af1_filter_spec_witness :
  is_valid_af1 snp_record (Float float_0_95) = Ret false /\
  is_valid_af1 ref_record (Float float_0_95) = Ret false.
Proof.
  split.
  - destruct (proj1 af1_filter_spec snp_record (Some "G") [] (Float float_0_8)
                (Float float_0_95)) as (bound & _ & ->);
      vm_compute; reflexivity.
  - destruct (proj1 af1_filter_spec ref_record None [] (Float float_0_1)
                (Float float_0_95)) as (bound & Hb & ->);
      [vm_compute; reflexivity|reflexivity|reflexivity|reflexivity|].
    vm_compute in Hb. injection Hb as <-. vm_compute. reflexivity.
Defined.

(** Outside the numbers: an AF1 that is a NaN is below nothing and above
    nothing, and the record passes on either branch. *)
Lemma af1_nan_passes (variant : VariantRecord) (alt0 : option string)
    (alts : list (option string)) (minimum_af1 : num) :
  INFO variant !! "AF1" = Some (Scalar (Float S754_nan)) ->
  ALT variant = alt0 :: alts ->
  is_valid_af1 variant minimum_af1 = Ret true.
Proof.
  intros Haf1 Halt. unfold is_valid_af1.
  rewrite Haf1, (is_polymorphic_alt _ _ _ Halt). cbn [bind as_num].
  assert (Hsub : exists bound, sub (Int 1) minimum_af1 = Ret bound)
    by (destruct minimum_af1; eexists; reflexivity).
  destruct Hsub as [bound ->]. cbn [bind].
  assert (Hlt : forall b, lt (Float S754_nan) b = false) by (intros [y|g]; reflexivity).
  assert (Hgt : forall b, gt (Float S754_nan) b = false) by (intros [y|g]; reflexivity).
  rewrite Hlt, Hgt. now destruct (polymorphic_alt alt0).
Qed.

(** C7.  For every text [s] that [float] reads as the threshold [t] (as
    [str(t)] is) and every number [v], the expressions [<s], [<=s], [>s]
    and [>=s] evaluate against [v] to [v < t], [v <= t], [v > t] and
    [v >= t]. *)
Theorem filter_info_field_comparators (v : num) (s : string) (t : spec_float) :
  float_of_string s = Ret t ->
  _filter_info_field v ("<" +:+ s) = Ret (lt v (Float t)) /\
  _filter_info_field v ("<=" +:+ s) = Ret (le v (Float t)) /\
  _filter_info_field v (">" +:+ s) = Ret (gt v (Float t)) /\
  _filter_info_field v (">=" +:+ s) = Ret (ge v (Float t)).
Proof.
  intros Hs. destruct (float_of_string_text s t Hs) as (Hand & Hor & Heq).
  pose proof (startswith_char "=" s Heq) as Hpre.
  change ("<" +:+ s) with (String "<" s).
  change ("<=" +:+ s) with (String "<" (String "=" s)).
  change (">" +:+ s) with (String ">" s).
  change (">=" +:+ s) with (String ">" (String "=" s)).
  unfold _filter_info_field. rewrite !filter_info_field_fuel_S.
  unfold filter_info_field_body.
  rewrite !contains_cons, Hand, Hor, !startswith_cons, !startswith_nil, Hpre.
  cbn [Ascii.eqb Bool.eqb orb andb drop]. rewrite Hs.
  cbn [bind]. rewrite !if_bool_ret. auto.
Qed.


Lemma filter_info_field_comparators_witness :
  float_of_string "30" = Ret (round_Z 30%Z) /\
  _filter_info_field (Int 40) "<30" = Ret false /\
  _filter_info_field (Int 40) ">=30" = Ret true.
Proof.
  assert (H : float_of_string "30" = Ret (round_Z 30%Z)) by (vm_compute; reflexivity).
  destruct (filter_info_field_comparators (Int 40) "30" (round_Z 30%Z) H) as (Hlt & _ & _ & Hge).
  split; [exact H|]. split.
  - etransitivity; [exact Hlt|reflexivity].
  - etransitivity; [exact Hge|reflexivity].
Defined.

(** C8 (as amended).  When neither [X] nor [Y] holds an [&], evaluating
    [X&Y] is evaluating [X] and [Y], each stripped of surrounding white
    space, against the same value and taking their conjunction ([Y] is not
    evaluated when [X] is false).  When neither holds an [&] or a [|],
    evaluating [X|Y] is their disjunction in the same way. *)
Theorem filter_info_field_and_or (v : num) (X Y : string) :
  (contains "&" X = false -> contains "&" Y = false ->
   _filter_info_field v (X +:+ "&" +:+ Y)
   = (a <- _filter_info_field v (strip X) ;;
      if a then _filter_info_field v (strip Y) else Ret false))
  /\
  (contains "&" X = false -> contains "|" X = false ->
   contains "&" Y = false -> contains "|" Y = false ->
   _filter_info_field v (X +:+ "|" +:+ Y)
   = (a <- _filter_info_field v (strip X) ;;
      if a then Ret true else _filter_info_field v (strip Y))).
Proof.
  split.
  - intros HX HY. unfold _filter_info_field at 1.
    rewrite filter_info_field_fuel_S. unfold filter_info_field_body.
    rewrite contains_app. simpl (contains "&" ("&" +:+ Y)). rewrite orb_true_r.
    change ("&" +:+ Y) with (String "&" Y).
    rewrite (split_app "&" X Y HX), (split_no_sep "&" Y HY).
    rewrite <- (filter_info_field_fuel_or 1 v (strip X)) by now apply contains_strip.
    rewrite <- (filter_info_field_fuel_or 1 v (strip Y)) by now apply contains_strip.
    reflexivity.
  - intros HX HXo HY HYo. unfold _filter_info_field at 1.
    rewrite filter_info_field_fuel_S. unfold filter_info_field_body.
    rewrite !contains_app. simpl (contains _ ("|" +:+ Y)).
    rewrite HX, HY, orb_true_r. simpl (false || false).
    change ("|" +:+ Y) with (String "|" Y).
    rewrite (split_app "|" X Y HXo), (split_no_sep "|" Y HYo).
    rewrite <- (filter_info_field_fuel_or 1 v (strip X)) by now apply contains_strip.
    rewrite <- (filter_info_field_fuel_or 1 v (strip Y)) by now apply contains_strip.
    reflexivity.
Qed.

Lemma filter_info_field_and_or_witness :
  _filter_info_field (Int 40) (">30" +:+ "&" +:+ "<60") = Ret true /\
  _filter_info_field (Int 40) ("<30" +:+ "|" +:+ ">60") = Ret false.
Proof.
  destruct (filter_info_field_and_or (Int 40) ">30" "<60") as [Hand _].
  destruct (filter_info_field_and_or (Int 40) "<30" ">60") as [_ Hor].
  split.
  - etransitivity; [exact (Hand eq_refl eq_refl)|vm_compute; reflexivity].
  - etransitivity; [exact (Hor eq_refl eq_refl eq_refl eq_refl)|vm_compute; reflexivity].
Defined.

(** C8, the claim refuted: with [X = <5] and [Y = >1&>0] both sides
    evaluate to true against 3, yet [X&Y] raises [ValueError] (its split has
    three parts); with [X = <1&>0] and [Y = >5] the disjunction of the two
    sides against 10 is true, yet [X|Y] evaluates to false (the [&] is cut
    first). *)
Lemma nested_operator_diverges :
  _filter_info_field (Int 3) "<5" = Ret true /\
  _filter_info_field (Int 3) ">1&>0" = Ret true /\
  _filter_info_field (Int 3) ("<5" +:+ "&" +:+ ">1&>0") = Raise ValueError /\
  _filter_info_field (Int 10) "<1&>0" = Ret false /\
  _filter_info_field (Int 10) ">5" = Ret true /\
  _filter_info_field (Int 10) ("<1&>0" +:+ "|" +:+ ">5") = Ret false.
Proof. repeat split; evaluate. Qed.

(** The loop of [filter_vcf]: the count of kept records grows with the
    kept file, and every record goes to exactly one of the two files when
    the second one is written. *)
Lemma filter_loop_counts (self : VCF_mpileup_4dot1) (d : filter_dict_t) (output_filtered : bool)
    (variants : list VariantRecord) :
  forall (iline u : Z) (kept dropped : list VariantRecord) (log : list event)
         (u' : Z) (kept' dropped' : list VariantRecord),
  filter_loop self d output_filtered iline variants u kept dropped
    = (log, Ret (u', kept', dropped')) ->
  (u' - u = Z.of_nat (length kept') - Z.of_nat (length kept))%Z /\
  (length kept <= length kept')%nat /\
  (length kept' - length kept <= length variants)%nat /\
  (output_filtered = true ->
   (length kept' - length kept) + (length dropped' - length dropped) = length variants
   /\ length dropped <= length dropped')%nat.
Proof.
  induction variants as [|v vs IH]; intros iline u kept dropped log u' kept' dropped' H.
  - inversion H; subst. simpl. repeat split; lia.
  - simpl in H. apply mbind_ret_inv in H as (l1 & keep & l2 & _ & H & _).
    assert (Hstep : exists u0 kept0 dropped0 il0,
               filter_loop self d output_filtered il0 vs u0 kept0 dropped0
               = (l2, Ret (u', kept', dropped')) /\
               (u0 - u = Z.of_nat (length kept0) - Z.of_nat (length kept))%Z /\
               (length kept0 - length kept) + (length dropped0 - length dropped)
               = (if keep || output_filtered then 1 else 0) /\
               length kept <= length kept0 <= length kept + 1 /\
               length dropped <= length dropped0).
    { destruct keep; [|destruct output_filtered];
        eexists _, _, _, _; (split; [exact H|]);
        rewrite ?length_app; simpl; lia. }
    destruct Hstep as (u0 & kept0 & dropped0 & il0 & Hloop & E1 & E2 & E3 & E4).
    apply IH in Hloop as (H1 & H2 & H3 & H4). simpl.
    split; [lia|]. split; [lia|]. split; [lia|].
    intros ->. destruct (H4 eq_refl). rewrite orb_true_r in E2. lia.
Qed.

(** C9.  For every pass that completes, the returned counts satisfy
    [unfiltered + filtered = N], where [N] is the number of records of the
    input; moreover [unfiltered] is the number of records written to the
    output, [filtered] is not negative and, when the second output is
    requested, it is the number of records written there. *)
Theorem filter_vcf_counts (self : VCF_mpileup_4dot1) (filter_dict_arg : option filter_dict_t)
    (output_filtered : bool) (log : list event) (r : pass_result) :
  filter_vcf self filter_dict_arg output_filtered = (log, Ret r) ->
  N r = Z.of_nat (length (records self)) /\
  (unfiltered r + filtered r = N r)%Z /\
  unfiltered r = Z.of_nat (length (written r)) /\
  (0 <= filtered r)%Z /\
  (output_filtered = true -> filtered r = Z.of_nat (length (written_filtered r))).
Proof.
  unfold filter_vcf. intros H.
  apply mbind_ret_inv in H as (l1 & [[u kept] dropped] & l2 & Hloop & H & _).
  inversion H; subst; clear H. simpl.
  apply filter_loop_counts in Hloop as (H1 & H2 & H3 & H4). simpl in *.
  split; [reflexivity|]. split; [lia|]. split; [lia|]. split; [lia|].
  intros Hof. destruct (H4 Hof). lia.
Qed.

Lemma filter_vcf_counts_witness :
  exists (log : list event) (r : pass_result),
    filter_vcf vcf_three_lines None true = (log, Ret r) /\
    N r = 3%Z /\ unfiltered r = 2%Z /\ filtered r = 1%Z /\
    (unfiltered r + filtered r = N r)%Z.
Proof.
  eexists _, _. split; [vm_compute; reflexivity|].
  split; [reflexivity|]. split; [reflexivity|]. split; [reflexivity|].
  refine (proj1 (proj2 (filter_vcf_counts vcf_three_lines None true _ _ _))).
  vm_compute. reflexivity.
Defined.

(** C10.  [-1] is the sentinel of the QUAL check: [_filter_line] discards
    the record at once when the QUAL threshold differs from [-1] and the
    record's QUAL is strictly below it, and behaves otherwise as it does
    with the threshold at [-1], where the check is off; a QUAL equal to the
    threshold is not strictly below it. *)
Theorem qual_check_sentinel (self : VCF_mpileup_4dot1) (vcf_line : VariantRecord)
    (d : filter_dict_t) (iline : option Z) :
  _filter_line self vcf_line (Some d) iline
  = (if ne (fd_QUAL d) (Int (-1)) && lt (QUAL vcf_line) (fd_QUAL d)
     then ([DebugQual (fd_QUAL d)], Ret false)
     else _filter_line self vcf_line (Some (disable_qual d)) iline)
  /\ ne (fd_QUAL (disable_qual d)) (Int (-1)) = false
  /\ lt (QUAL vcf_line) (fd_QUAL d) && negb (ne (QUAL vcf_line) (fd_QUAL d)) = false.
Proof.
  split; [|split; [reflexivity|apply lt_not_equal]].
  unfold _filter_line.
  destruct (ne (fd_QUAL d) (Int (-1)) && lt (QUAL vcf_line) (fd_QUAL d)); reflexivity.
Qed.

Example qual_threshold_examples :
  _filter_line (set_qual (__init__ [snp_record]) (Int 60)) snp_record None (Some 0%Z)
  = ([], Ret true) /\
  _filter_line (set_qual (__init__ [snp_record]) (Int 61)) snp_record None (Some 0%Z)
  = ([DebugQual (Int 61)], Ret false) /\
  _filter_line (set_qual (__init__ [snp_record]) (Float (round_Z (-1)))) snp_record
    None (Some 0%Z)
  = ([], Ret true).
Proof. repeat split; evaluate. Qed.

(* ===================================================================== *)
(** * Further properties of the two filters                              *)
(* ===================================================================== *)

(** ** Outcomes *)

Lemma outcome_mbind {A B : Type} (m : M A) (k : A -> M B) :
  outcome (mbind m k)
  = match outcome m with
    | Ret a => outcome (k a)
    | Raise e => Raise e
    end.
Proof.
  destruct m as [log [a|e]]; simpl; [|reflexivity].
  now destruct (k a).
Qed.

Lemma outcome_lift {A : Type} (r : res A) : outcome (lift r) = r.
Proof. reflexivity. Qed.

Lemma mbind_mret {A B : Type} (a : A) (k : A -> M B) : mbind (mret a) k = k a.
Proof. unfold mret, mbind. now destruct (k a). Qed.

Lemma mbind_lift_ret {A B : Type} (a : A) (k : A -> M B) : mbind (lift (Ret a)) k = k a.
Proof. apply mbind_mret. Qed.

(** ** The line number

    [iline] reaches the messages only. *)

Lemma info_rule_line (v : VariantRecord) (i j : Z) (key thr : string) :
  outcome (info_rule v (Some i) key thr) = outcome (info_rule v (Some j) key thr).
Proof.
  unfold info_rule. rewrite !outcome_mbind.
  destruct (outcome _) as [[]|e]; [reflexivity| |reflexivity].
  destruct (startswith "sum(" key); [reflexivity|].
  rewrite !outcome_mbind.
  destruct (outcome (lift (parse_key key))) as [[k index]|e]; [|reflexivity].
  cbv beta iota. destruct (INFO v !! k) as [x|]; [destruct x|]; reflexivity.
Qed.

Lemma info_rules_line (v : VariantRecord) (i j : Z) (rules : list (string * string)) :
  outcome (info_rules v (Some i) rules) = outcome (info_rules v (Some j) rules).
Proof.
  induction rules as [|[key thr] rules IH]; [reflexivity|].
  cbn [info_rules]. rewrite !outcome_mbind, (info_rule_line v i j).
  destruct (outcome (info_rule v (Some j) key thr)) as [r|e]; [|reflexivity].
  destruct r as [b|]; [reflexivity|exact IH].
Qed.

Lemma filter_line_line (self : VCF_mpileup_4dot1) (v : VariantRecord)
    (filter_dict_arg : option filter_dict_t) (i j : Z) :
  outcome (_filter_line self v filter_dict_arg (Some i))
  = outcome (_filter_line self v filter_dict_arg (Some j)).
Proof.
  unfold _filter_line.
  destruct (ne _ _ && lt _ _); [reflexivity|].
  rewrite !outcome_mbind. destruct (outcome _) as [[]|e]; try reflexivity.
  rewrite !outcome_mbind. destruct (outcome _) as [[]|e]; try reflexivity.
  cbn [negb]. rewrite !outcome_mbind. destruct (outcome _) as [[]|e]; try reflexivity.
  apply info_rules_line.
Qed.

Lemma keeps_outcome (self : VCF_mpileup_4dot1) (d : filter_dict_t) (v : VariantRecord)
    (i : Z) (b : bool) :
  outcome (_filter_line self v (Some d) (Some i)) = Ret b -> keeps self d v = b.
Proof.
  intros H. unfold keeps. rewrite (filter_line_line self v (Some d) 0 i), H.
  now destruct b.
Qed.

(** ** The loop of [filter_vcf] *)

(** The loop sends the kept records to the first file and, when it is
    written, the others to the second, in the order of the input. *)
Lemma filter_loop_spec (self : VCF_mpileup_4dot1) (d : filter_dict_t) (output_filtered : bool)
    (variants : list VariantRecord) :
  forall (iline u : Z) (kept dropped : list VariantRecord) (log : list event)
         (out : Z * list VariantRecord * list VariantRecord),
  filter_loop self d output_filtered iline variants u kept dropped = (log, Ret out) ->
  out = ((u + Z.of_nat (length (List.filter (keeps self d) variants)))%Z,
         kept ++ List.filter (keeps self d) variants,
         dropped ++ (if output_filtered
                     then List.filter (fun v => negb (keeps self d v)) variants
                     else [])).
Proof.
  induction variants as [|v vs IH]; intros iline u kept dropped log out H.
  - inversion H; subst. simpl. rewrite !app_nil_r, Z.add_0_r.
    now destruct output_filtered; rewrite ?app_nil_r.
  - simpl in H. apply mbind_ret_inv in H as (l1 & keep & l2 & Hline & H & _).
    assert (Hk : keeps self d v = keep).
    { apply (keeps_outcome self d v iline). unfold outcome. now rewrite Hline. }
    cbn [List.filter]. rewrite Hk.
    destruct keep; [|destruct output_filtered]; apply IH in H; subst out; cbn [negb].
    + cbn [length]. rewrite Nat2Z.inj_succ, <- Z.add_1_l, Z.add_assoc, <- app_assoc.
      reflexivity.
    + rewrite <- !app_assoc. reflexivity.
    + reflexivity.
Qed.

(** On records that are all kept the loop completes and keeps them. *)
Lemma filter_loop_all_kept (self : VCF_mpileup_4dot1) (d : filter_dict_t)
    (output_filtered : bool) (variants : list VariantRecord) :
  Forall (fun v => keeps self d v = true) variants ->
  forall (iline u : Z) (kept dropped : list VariantRecord),
  exists log : list event,
    filter_loop self d output_filtered iline variants u kept dropped
    = (log, Ret ((u + Z.of_nat (length variants))%Z, kept ++ variants, dropped)).
Proof.
  induction 1 as [|v vs Hv _ IH]; intros iline u kept dropped.
  - exists []. simpl. now rewrite app_nil_r, Z.add_0_r.
  - cbn [filter_loop].
    assert (Hline : outcome (_filter_line self v (Some d) (Some iline)) = Ret true).
    { rewrite (filter_line_line self v (Some d) iline 0).
      unfold keeps in Hv. destruct (outcome _) as [[]|]; congruence. }
    destruct (_filter_line self v (Some d) (Some iline)) as [l1 r]. simpl in Hline. subst r.
    destruct (IH (iline + 1)%Z (u + 1)%Z (kept ++ [v]) dropped) as [l2 E].
    exists (l1 ++ l2). cbn [mbind]. rewrite E.
    cbn [length]. rewrite Nat2Z.inj_succ, <- Z.add_1_l, Z.add_assoc, <- app_assoc.
    reflexivity.
Qed.

(** The decision does not read [records]. *)
Lemma filter_loop_reopen (self : VCF_mpileup_4dot1) (file : list VariantRecord)
    (d : filter_dict_t) (output_filtered : bool) (variants : list VariantRecord) :
  forall (iline u : Z) (kept dropped : list VariantRecord),
  filter_loop (reopen self file) d output_filtered iline variants u kept dropped
  = filter_loop self d output_filtered iline variants u kept dropped.
Proof.
  induction variants as [|v vs IH]; intros; [reflexivity|].
  cbn [filter_loop].
  change (_filter_line (reopen self file) v (Some d) (Some iline))
    with (_filter_line self v (Some d) (Some iline)).
  destruct (_filter_line self v (Some d) (Some iline)) as [l [[]|e]]; cbn [mbind];
    [| destruct output_filtered |]; now rewrite ?IH.
Qed.

(** ** The turn of a plain rule *)

Lemma plain_key_inv (key : string) :
  plain_key key = true -> String.eqb key "PV4" = false /\ startswith "sum(" key = false.
Proof.
  unfold plain_key. intros H. apply andb_true_iff in H as [H1 H2].
  now apply negb_true_iff in H1, H2.
Qed.

(** A plain rule never executes [return True]. *)
Lemma info_rule_plain (v : VariantRecord) (iline : option Z) (key thr : string) :
  plain_key key = true -> outcome (info_rule v iline key thr) <> Ret (Some true).
Proof.
  unfold plain_key. intros H. apply andb_true_iff in H as [Hpv4 Hsum].
  apply negb_true_iff in Hpv4, Hsum.
  unfold info_rule. rewrite outcome_mbind, Hpv4. cbn [outcome mret snd]. rewrite Hsum.
  fold (@outcome (option bool)). rewrite outcome_mbind.
  destruct (outcome (lift (parse_key key))) as [[k index]|e]; [|discriminate].
  destruct (INFO v !! k) as [x|].
  - destruct x as [n|l].
    + rewrite outcome_mbind. destruct (outcome _) as [[]|]; discriminate.
    + destruct (_ >? _)%Z; [discriminate|].
      rewrite outcome_mbind. destruct (outcome _) as [n|]; [|discriminate].
      rewrite outcome_mbind. destruct (outcome _) as [[]|]; discriminate.
  - destruct iline; discriminate.
Qed.

(** The turn of a plain rule: the key is parsed and looked up. *)
Lemma info_rule_plain_eq (v : VariantRecord) (iline : option Z) (key thr : string) :
  plain_key key = true ->
  info_rule v iline key thr
  = (parsed <~ lift (parse_key key) ;;
     match INFO v !! fst parsed with
     | Some (Scalar n) =>
         hit <~ lift (_filter_info_field n thr) ;;
         if hit then
           _ <~ debug (DebugInfo (fst parsed) thr (Scalar n)) ;;
           mret (Some false)
         else mret None
     | Some (List l) =>
         if (snd parsed >? Z.of_nat (length l) - 1)%Z then lift (Raise ValueError)
         else
           n <~ lift (getitem l (snd parsed)) ;;
           hit <~ lift (_filter_info_field n thr) ;;
           if hit then mret (Some false) else mret None
     | None =>
         match iline with
         | Some i => _ <~ debug (DebugMissingKey (fst parsed) (i + 1)) ;; mret None
         | None => lift (Raise TypeError)
         end
     end).
Proof.
  intros H. apply plain_key_inv in H as [Hpv4 Hsum].
  unfold info_rule. rewrite Hpv4, Hsum, mbind_mret.
  destruct (parse_key key) as [[k index]|e]; [|reflexivity].
  now rewrite !mbind_lift_ret.
Qed.

(** Rules after the one that decides are not reached. *)
Lemma info_rules_app (v : VariantRecord) (iline : option Z)
    (rules more : list (string * string)) :
  outcome (info_rules v iline rules) <> Ret true ->
  outcome (info_rules v iline (rules ++ more)) = outcome (info_rules v iline rules).
Proof.
  induction rules as [|[key thr] rules IH]; intros H.
  - now contradiction H.
  - cbn [app info_rules] in *. rewrite outcome_mbind in H. rewrite !outcome_mbind.
    destruct (outcome (info_rule v iline key thr)) as [r|e]; [|reflexivity].
    destruct r as [b|]; [reflexivity|]. now apply IH.
Qed.

(** A key that is not in the dictionary goes last. *)
Lemma dict_set_fresh (d : list (string * string)) (key thr : string) :
  (forall t, ~ In (key, t) d) -> dict_set d key thr = d ++ [(key, thr)].
Proof.
  induction d as [|[k t] d IH]; intros H; [reflexivity|].
  simpl. destruct (String.eqb_spec k key) as [->|_].
  - contradiction (H t). now left.
  - rewrite IH; [reflexivity|]. intros t' Ht'. apply (H t'). now right.
Qed.

(** The turn of a rule that selected the number [n], followed by the rest
    of the loop. *)
Lemma rule_on_number (v : VariantRecord) (iline : option Z) (n : num) (thr : string)
    (rules : list (string * string)) :
  (r <~ (hit <~ lift (_filter_info_field n thr) ;;
         if hit then mret (Some false) else mret None) ;;
   match r with
   | Some b => mret b
   | None => info_rules v iline rules
   end)
  = (hit <~ lift (_filter_info_field n thr) ;;
     if hit then mret false else info_rules v iline rules).
Proof.
  destruct (_filter_info_field n thr) as [[]|e]; [| |reflexivity];
    now rewrite !mbind_lift_ret, mbind_mret.
Qed.

(** ** Text *)

Lemma append_cons (a : ascii) (s t : string) : String a s +:+ t = String a (s +:+ t).
Proof. reflexivity. Qed.

Lemma append_nil (t : string) : EmptyString +:+ t = t.
Proof. reflexivity. Qed.

Lemma split_nonempty (c : ascii) (s : string) : split c s <> [].
Proof.
  destruct s as [|a s]; simpl; [discriminate|].
  destruct (Ascii.eqb a c); [discriminate|]. now destruct (split c s).
Qed.

(** The first part of a cut holds no separator. *)
Lemma split1_head (c : ascii) (s : string) :
  match split1 c s with
  | h :: _ => contains c h = false
  | [] => True
  end.
Proof.
  induction s as [|a s IH]; simpl; [reflexivity|].
  destruct (Ascii.eqb a c) eqn:Ea; [reflexivity|].
  destruct (split1 c s) as [|h t]; simpl; now rewrite Ea.
Qed.

Lemma split1_app (c : ascii) (x y : string) :
  contains c x = false -> split1 c (x +:+ String c y) = [x; y].
Proof.
  induction x as [|a x IH]; simpl; intros H.
  - now rewrite Ascii.eqb_refl.
  - apply orb_false_iff in H as [Ha Hx]. now rewrite Ha, (IH Hx).
Qed.

(** The key that [parse_key] returns holds no bracket, so that it parses to
    itself. *)
Lemma parse_key_key (key k : string) (index : Z) :
  parse_key key = Ret (k, index) -> parse_key k = Ret (k, 0%Z).
Proof.
  unfold parse_key at 1. intros H.
  assert (Hk : contains "[" k = false).
  { destruct (contains "[" key) eqn:Hopen; [|now inversion H; subst].
    destruct (negb (contains "]" key)); [discriminate|].
    pose proof (split1_head "[" key) as Hhead.
    destruct (split1 "[" key) as [|key' [|idx [|]]]; try discriminate.
    destruct (int_of_string _); [|discriminate].
    inversion H; subst. now apply contains_strip. }
  unfold parse_key. now rewrite Hk.
Qed.

Lemma startswith_sum_app (K rest : string) :
  startswith "sum(" K = false -> startswith "[" rest = true ->
  startswith "sum(" (K +:+ rest) = false.
Proof.
  intros HK Hrest.
  destruct rest as [|r rest]; [discriminate|].
  rewrite startswith_cons in Hrest. apply andb_true_iff in Hrest as [Hr _].
  apply Ascii.eqb_eq in Hr. subst r.
  destruct K as [|a [|b [|c [|d K]]]];
    rewrite ?append_cons, ?append_nil, ?startswith_cons in *;
    repeat match goal with
           | |- context [Ascii.eqb ?x "["] =>
               let b := eval vm_compute in (Ascii.eqb x "[") in
               change (Ascii.eqb x "[") with b
           end;
    rewrite ?andb_false_l, ?andb_false_r; try reflexivity.
  rewrite startswith_nil in *. exact HK.
Qed.

(** ** Clauses and NaN *)

(** A clause is evaluated by the body alone. *)
Lemma filter_info_field_clause (v : num) (e : string) :
  contains "&" e = false -> contains "|" e = false ->
  _filter_info_field v e = filter_info_field_body (fun _ _ => Raise RecursionError) v e.
Proof.
  intros Ha Ho. unfold _filter_info_field.
  rewrite (filter_info_field_fuel_clause 2 v e Ha Ho). reflexivity.
Qed.

Lemma compare_nan_l (b : num) : compare (Float S754_nan) b = None.
Proof. destruct b as [z|[]]; reflexivity. Qed.

Lemma compare_nan_r (a : num) : compare a (Float S754_nan) = None.
Proof. destruct a as [z|[]]; reflexivity. Qed.

Lemma filter_info_field_fuel_nan (n : nat) (e : string) :
  filter_info_field_fuel n (Float S754_nan) e <> Ret true.
Proof.
  revert e. induction n as [|n IH]; intros e; [discriminate|].
  rewrite filter_info_field_fuel_S. unfold filter_info_field_body.
  destruct (contains "&" e).
  { destruct (split "&" e) as [|e1 [|e2 [|e3 l]]]; try discriminate.
    cbv zeta. pose proof (IH (strip e1)) as H1.
    destruct (filter_info_field_fuel n _ (strip e1)) as [[]|]; cbn [bind];
      [congruence|discriminate|discriminate]. }
  destruct (contains "|" e).
  { destruct (split "|" e) as [|e1 [|e2 [|e3 l]]]; try discriminate.
    cbv zeta. pose proof (IH (strip e1)) as H1.
    destruct (filter_info_field_fuel n _ (strip e1)) as [[]|]; cbn [bind];
      [congruence|apply IH|discriminate]. }
  repeat match goal with
         | |- context [if startswith ?p e then _ else _] => destruct (startswith p e)
         | |- context [float_of_string ?s] => destruct (float_of_string s)
         end; cbn [bind]; try discriminate;
    unfold lt, le, gt, ge; rewrite compare_nan_l; discriminate.
Qed.

Lemma filter_info_field_fuel_raises (n : nat) (v : num) (e : string) (x : exn) :
  filter_info_field_fuel n v e = Raise x -> x = ValueError \/ x = RecursionError.
Proof.
  revert e. induction n as [|n IH]; intros e; [intros [= <-]; now right|].
  rewrite filter_info_field_fuel_S. unfold filter_info_field_body.
  destruct (contains "&" e).
  { destruct (split "&" e) as [|e1 [|e2 [|e3 l]]]; try (intros [= <-]; now left).
    cbv zeta. pose proof (IH (strip e1)) as H1.
    destruct (filter_info_field_fuel n v (strip e1)) as [[]|]; cbn [bind];
      [apply IH|discriminate|exact H1]. }
  destruct (contains "|" e).
  { destruct (split "|" e) as [|e1 [|e2 [|e3 l]]]; try (intros [= <-]; now left).
    cbv zeta. pose proof (IH (strip e1)) as H1.
    destruct (filter_info_field_fuel n v (strip e1)) as [[]|]; cbn [bind];
      [discriminate|apply IH|exact H1]. }
  repeat match goal with
         | |- context [if ?b then _ else _] => destruct b
         | |- context [float_of_string ?s] =>
             let E := fresh "E" in destruct (float_of_string s) eqn:E
         end; cbn [bind]; rewrite ?if_bool_ret; try discriminate;
    intros H; injection H as <-; left; eapply float_of_string_raises; eassumption.
Qed.

Lemma lt_Int (x y : Z) : lt (Int x) (Int y) = (x <? y)%Z.
Proof. unfold lt, compare, Z.ltb. now destruct (x ?= y)%Z. Qed.

(** ** The freebayes filter *)

Lemma default_params_complete (k : string) :
  In k param_names -> is_Some (Freebayes.default_params !! k).
Proof.
  intros Hk. repeat (destruct Hk as [<-|Hk]; [vm_compute; eauto|]). destruct Hk.
Qed.

(** [sum] over integers is their sum. *)
Lemma sum_from_ints (l : list Z) (acc : Z) :
  sum_from acc (map Int l) = Ret (Int (acc + sum_Z l)).
Proof.
  revert acc. induction l as [|x l IH]; intros acc; simpl.
  - now rewrite Z.add_0_r.
  - rewrite IH. now rewrite Z.add_assoc.
Qed.

(** [(l ++ tail)[: -len(tail)]] is [l] when [tail] is not empty. *)
Lemma slice_to_app {A : Type} (l tail : list A) :
  tail <> [] -> Freebayes.slice_to (l ++ tail) (- Z.of_nat (length tail)) = l.
Proof.
  intros Htail. unfold Freebayes.slice_to. rewrite length_app.
  assert (0 < length tail)%nat by (destruct tail; [congruence|simpl; lia]).
  destruct (Z.ltb_spec (- Z.of_nat (length tail)) 0); [|lia].
  replace (Z.to_nat _) with (length l) by lia.
  rewrite firstn_app, Nat.sub_diag, firstn_all. simpl. apply app_nil_r.
Qed.


(** ** The pass over a file *)

(** X1.  With the settings of the constructor nothing is filtered:
    [_filter_line] returns [True] for every record, logging nothing, and
    [filter_vcf] writes the whole file to its output, in order, with
    [filtered = 0]. *)
Theorem default_settings_keep_everything (file : list VariantRecord) :
  (forall (v : VariantRecord) (iline : option Z),
      _filter_line (__init__ file) v None iline = ([], Ret true)) /\
  (forall output_filtered : bool,
      filter_vcf (__init__ file) None output_filtered
      = ([], Ret {| N := Z.of_nat (length file); filtered := 0;
                    unfiltered := Z.of_nat (length file);
                    written := file; written_filtered := [] |})).
Proof.
  assert (Hline : forall v iline d,
             d = filter_dict (__init__ file) ->
             _filter_line (__init__ file) v (Some d) iline = ([], Ret true)).
  { intros v iline d ->. reflexivity. }
  split; [reflexivity|].
  intros output_filtered. unfold filter_vcf.
  assert (Hloop : forall vs iline u kept dropped,
             filter_loop (__init__ file) (filter_dict (__init__ file)) output_filtered
               iline vs u kept dropped
             = ([], Ret ((u + Z.of_nat (length vs))%Z, kept ++ vs, dropped))).
  { induction vs as [|v vs IH]; intros.
    - simpl. now rewrite app_nil_r, Z.add_0_r.
    - cbn [filter_loop]. rewrite (Hline v (Some iline) _ eq_refl). cbn [mbind].
      rewrite IH. cbn [app length].
      rewrite Nat2Z.inj_succ, <- Z.add_1_l, Z.add_assoc, <- app_assoc. reflexivity. }
  change (records (__init__ file)) with file.
  rewrite Hloop. cbn [mbind mret app]. f_equal. f_equal. f_equal; lia.
Qed.

(** X2.  The line number reaches the messages only: the decision on a
    record is the same at every line of the file. *)
Theorem decision_ignores_line_number (self : VCF_mpileup_4dot1) (v : VariantRecord)
    (filter_dict_arg : option filter_dict_t) (i j : Z) :
  outcome (_filter_line self v filter_dict_arg (Some i))
  = outcome (_filter_line self v filter_dict_arg (Some j)).
Proof. apply filter_line_line. Qed.

(** X3.  When the pass completes, the output holds the records that
    [_filter_line] keeps, in the order of the input, and the second output,
    when it is requested, the other records, in that order too. *)
Theorem filter_vcf_selects (self : VCF_mpileup_4dot1) (filter_dict_arg : option filter_dict_t)
    (output_filtered : bool) (log : list event) (r : pass_result) :
  filter_vcf self filter_dict_arg output_filtered = (log, Ret r) ->
  written r = List.filter (keeps self (used_dict self filter_dict_arg)) (records self) /\
  written_filtered r
  = (if output_filtered
     then List.filter (fun v => negb (keeps self (used_dict self filter_dict_arg) v))
            (records self)
     else []).
Proof.
  unfold filter_vcf. intros H.
  apply mbind_ret_inv in H as (l1 & out & l2 & Hloop & H & _).
  apply filter_loop_spec in Hloop. subst out. inversion H; subst; clear H.
  split; reflexivity.
Qed.

Lemma filter_vcf_selects_witness :
  exists (log : list event) (r : pass_result),
    filter_vcf vcf_three_lines None true = (log, Ret r) /\
    written r = [snp_record; multi_ref_record] /\
    written_filtered r = [ref_record] /\
    written r
    = List.filter (keeps vcf_three_lines (used_dict vcf_three_lines None))
        (records vcf_three_lines).
Proof.
  eexists _, _. split; [vm_compute; reflexivity|].
  split; [reflexivity|]. split; [reflexivity|].
  refine (proj1 (filter_vcf_selects vcf_three_lines None true _ _ _)).
  vm_compute. reflexivity.
Defined.

(** X4.  Filtering is idempotent: a pass with the same settings over the
    output of a completed pass completes, filters nothing and writes the
    same records. *)
Theorem filter_vcf_idempotent (self : VCF_mpileup_4dot1)
    (filter_dict_arg : option filter_dict_t) (output_filtered : bool)
    (log : list event) (r : pass_result) :
  filter_vcf self filter_dict_arg output_filtered = (log, Ret r) ->
  exists log' : list event,
    filter_vcf (reopen self (written r)) filter_dict_arg output_filtered
    = (log', Ret {| N := unfiltered r; filtered := 0; unfiltered := unfiltered r;
                    written := written r; written_filtered := [] |}).
Proof.
  unfold filter_vcf. intros H.
  apply mbind_ret_inv in H as (l1 & out & l2 & Hloop & H & _).
  apply filter_loop_spec in Hloop. subst out. inversion H; subst; clear H.
  cbn [written unfiltered records reopen app].
  change (filter_dict (reopen self ?f)) with (filter_dict self).
  set (d := match filter_dict_arg with None => filter_dict self | Some d => d end).
  set (w := List.filter (keeps self d) (records self)).
  assert (Hw : Forall (fun v => keeps self d v = true) w).
  { apply List.Forall_forall. intros v Hv. apply filter_In in Hv. tauto. }
  destruct (filter_loop_all_kept self d output_filtered w Hw 0 0 [] []) as [log' E].
  exists log'. rewrite filter_loop_reopen, E. cbn [mbind mret app].
  rewrite app_nil_r, !Z.add_0_l, Z.sub_diag. reflexivity.
Qed.

Lemma filter_vcf_idempotent_witness :
  exists (log log' : list event) (r : pass_result),
    filter_vcf vcf_three_lines None true = (log, Ret r) /\
    written r = [snp_record; multi_ref_record] /\
    filter_vcf (reopen vcf_three_lines (written r)) None true
    = (log', Ret {| N := 2; filtered := 0; unfiltered := 2;
                    written := [snp_record; multi_ref_record];
                    written_filtered := [] |}).
Proof.
  destruct (filter_vcf vcf_three_lines None true) as [log [r|e]] eqn:E;
    [|vm_compute in E; discriminate E].
  destruct (filter_vcf_idempotent vcf_three_lines None true log r E) as [log' E'].
  exists log, log', r. split; [reflexivity|].
  vm_compute in E. injection E as <- <-. split; [reflexivity|exact E'].
Defined.

(** X5.  [filter_vcf] catches nothing: when [_filter_line] raises on a
    record and returns on those before it, the pass ends with that
    exception. *)
Theorem exception_ends_pass (self : VCF_mpileup_4dot1) (filter_dict_arg : option filter_dict_t)
    (output_filtered : bool) (pre post : list VariantRecord) (v : VariantRecord) (e : exn) :
  records self = pre ++ v :: post ->
  Forall (fun u => exists b : bool,
              outcome (_filter_line self u (Some (used_dict self filter_dict_arg)) (Some 0%Z))
              = Ret b) pre ->
  outcome (_filter_line self v (Some (used_dict self filter_dict_arg)) (Some 0%Z)) = Raise e ->
  outcome (filter_vcf self filter_dict_arg output_filtered) = Raise e.
Proof.
  intros Hrec Hpre Hv. unfold filter_vcf. rewrite outcome_mbind, Hrec.
  fold (used_dict self filter_dict_arg). set (d := used_dict self filter_dict_arg) in *.
  assert (Hloop : forall iline u kept dropped,
             outcome (filter_loop self d output_filtered iline (pre ++ v :: post)
                        u kept dropped) = Raise e).
  { clear Hrec. induction Hpre as [|x pre [b Hx] _ IH]; intros iline u kept dropped.
    - cbn [app filter_loop]. rewrite outcome_mbind.
      now rewrite (filter_line_line self v (Some d) iline 0), Hv.
    - cbn [app filter_loop]. rewrite outcome_mbind.
      rewrite (filter_line_line self x (Some d) iline 0), Hx.
      destruct b; [|destruct output_filtered]; apply IH. }
  now rewrite Hloop.
Qed.

Lemma exception_ends_pass_witness :
  outcome (filter_vcf vcf_index_rule_later None true) = Raise ValueError.
Proof.
  apply (exception_ends_pass vcf_index_rule_later None true [multi_ref_record] []
           snp_record ValueError).
  - reflexivity.
  - constructor; [|constructor]. exists true. vm_compute. reflexivity.
  - vm_compute. reflexivity.
Defined.

(** ** The loop over the INFO rules *)

(** X6.  When no rule key is [PV4] or a [sum(...)] key, the loop over the
    rules returns [True] exactly when every rule was evaluated and none
    executed a [return]: each one found nothing to filter, or its key
    missing. *)
Theorem plain_rules_all_applied (v : VariantRecord) (iline : option Z)
    (rules : list (string * string)) :
  forallb (fun r => plain_key (fst r)) rules = true ->
  (outcome (info_rules v iline rules) = Ret true <->
   Forall (fun r => outcome (info_rule v iline (fst r) (snd r)) = Ret None) rules).
Proof.
  induction rules as [|[key thr] rules IH]; intros Hplain.
  - split; [constructor|reflexivity].
  - cbn [forallb fst] in Hplain. apply andb_true_iff in Hplain as [Hkey Hrules].
    specialize (IH Hrules). pose proof (info_rule_plain v iline key thr Hkey) as Hrule.
    cbn [info_rules]. rewrite outcome_mbind.
    destruct (outcome (info_rule v iline key thr)) as [r|e] eqn:E.
    + destruct r as [[]|].
      * congruence.
      * split; [discriminate|]. intros H. inversion H; subst. cbn [fst snd] in *. congruence.
      * rewrite IH. split; intros H.
        -- constructor; [exact E|exact H].
        -- now inversion H.
    + split; [discriminate|]. intros H. inversion H; subst. cbn [fst snd] in *. congruence.
Qed.

Lemma plain_rules_all_applied_witness :
  outcome (info_rules snp_record (Some 0%Z) [("DP", "<30"); ("MQ", "<30")]) = Ret true /\
  Forall (fun r => outcome (info_rule snp_record (Some 0%Z) (fst r) (snd r)) = Ret None)
    [("DP", "<30"); ("MQ", "<30")].
Proof.
  split; [vm_compute; reflexivity|].
  apply (plain_rules_all_applied snp_record (Some 0%Z) [("DP", "<30"); ("MQ", "<30")]).
  - reflexivity.
  - vm_compute. reflexivity.
Defined.

(** X7.  A rule added under a key that is not yet in the dictionary goes
    last and cannot rescue a record: when the record was not kept before
    (filtered, or an exception), the outcome is unchanged. *)
Theorem added_rule_never_rescues (self : VCF_mpileup_4dot1) (v : VariantRecord)
    (iline : option Z) (key thr : string) :
  (forall t, ~ In (key, t) (fd_INFO (filter_dict self))) ->
  outcome (_filter_line self v None iline) <> Ret true ->
  outcome (_filter_line (set_info_rule self key thr) v None iline)
  = outcome (_filter_line self v None iline).
Proof.
  intros Hfresh. unfold _filter_line.
  change (fd_QUAL (filter_dict (set_info_rule self key thr)))
    with (fd_QUAL (filter_dict self)).
  change (fd_INFO (filter_dict (set_info_rule self key thr)))
    with (dict_set (fd_INFO (filter_dict self)) key thr).
  change (apply_indel_filter (set_info_rule self key thr)) with (apply_indel_filter self).
  change (apply_dp4_filter (set_info_rule self key thr)) with (apply_dp4_filter self).
  change (apply_af1_filter (set_info_rule self key thr)) with (apply_af1_filter self).
  change (dp4_minimum_depth (set_info_rule self key thr)) with (dp4_minimum_depth self).
  change (dp4_minimum_depth_strand (set_info_rule self key thr))
    with (dp4_minimum_depth_strand self).
  change (dp4_minimum_ratio (set_info_rule self key thr)) with (dp4_minimum_ratio self).
  change (minimum_af1 (set_info_rule self key thr)) with (minimum_af1 self).
  rewrite (dict_set_fresh _ _ _ Hfresh).
  destruct (ne _ _ && lt _ _); [reflexivity|].
  rewrite !outcome_mbind. destruct (outcome _) as [[]|e]; try reflexivity.
  rewrite !outcome_mbind. destruct (outcome _) as [[]|e]; try reflexivity.
  cbn [negb]. rewrite !outcome_mbind. destruct (outcome _) as [[]|e]; try reflexivity.
  cbn [negb]. apply info_rules_app.
Qed.

Lemma added_rule_never_rescues_witness :
  outcome (_filter_line vcf_dp snp_record None (Some 0%Z)) = Ret false /\
  outcome (_filter_line (set_info_rule vcf_dp "sum(DP4[2],DP4[3])" "<2") snp_record None
             (Some 0%Z))
  = outcome (_filter_line vcf_dp snp_record None (Some 0%Z)).
Proof.
  split; [vm_compute; reflexivity|].
  apply (added_rule_never_rescues vcf_dp snp_record (Some 0%Z) "sum(DP4[2],DP4[3])" "<2").
  - intros t [H|[]]. discriminate H.
  - vm_compute. discriminate.
Defined.







(** X11.  A negative index in a rule key is Python's: on a list of
    length [n], an index in [-n .. -1] selects the entry counted from the
    end, and the rule is decided on it; an index below [-n] raises
    [IndexError], which nothing catches. *)
Theorem negative_index_counts_from_the_end (v : VariantRecord) (iline : option Z)
    (key thr k : string) (index : Z) (l : list num) (rules : list (string * string)) :
  plain_key key = true ->
  parse_key key = Ret (k, index) ->
  INFO v !! k = Some (List l) ->
  (index < 0)%Z ->
  ((index < - Z.of_nat (length l))%Z ->
   info_rules v iline ((key, thr) :: rules) = ([], Raise IndexError))
  /\
  ((- Z.of_nat (length l) <= index)%Z ->
   exists n : num,
     nth_error l (Z.to_nat (Z.of_nat (length l) + index)) = Some n /\
     info_rules v iline ((key, thr) :: rules)
     = (hit <~ lift (_filter_info_field n thr) ;;
        if hit then mret false else info_rules v iline rules)).
Proof.
  intros Hplain Hkey Hk Hneg.
  assert (Hturn : info_rule v iline key thr
                  = (n <~ lift (getitem l index) ;;
                     hit <~ lift (_filter_info_field n thr) ;;
                     if hit then mret (Some false) else mret None)).
  { rewrite (info_rule_plain_eq _ _ _ _ Hplain), Hkey, mbind_lift_ret. cbn [fst snd].
    rewrite Hk. destruct (Z.gtb_spec index (Z.of_nat (length l) - 1)); [lia|reflexivity]. }
  cbn [info_rules]. rewrite Hturn. unfold getitem.
  apply Z.ltb_lt in Hneg as Hneg'. rewrite Hneg'.
  split.
  - intros Hlow. destruct (Z.ltb_spec (index + Z.of_nat (length l)) 0); [reflexivity|lia].
  - intros Hin. destruct (Z.ltb_spec (index + Z.of_nat (length l)) 0); [lia|].
    rewrite (Z.add_comm (Z.of_nat (length l)) index).
    destruct (nth_error l (Z.to_nat (index + Z.of_nat (length l)))) as [n|] eqn:En.
    + exists n. split; [reflexivity|]. rewrite mbind_lift_ret. apply rule_on_number.
    + apply nth_error_None in En. lia.
Qed.

Lemma negative_index_counts_from_the_end_witness :
  info_rules snp_record (Some 0%Z) [("DP4[-5]", "<4")] = ([], Raise IndexError) /\
  exists n : num,
    nth_error [Int 0; Int 0; Int 5; Int 5] 3 = Some n /\
    info_rules snp_record (Some 0%Z) [("DP4[-1]", "<4")]
    = (hit <~ lift (_filter_info_field n "<4") ;;
       if hit then mret false else info_rules snp_record (Some 0%Z) []).
Proof.
  split.
  - refine (proj1 (negative_index_counts_from_the_end snp_record (Some 0%Z) "DP4[-5]" "<4"
                     "DP4" (-5) [Int 0; Int 0; Int 5; Int 5] [] eq_refl eq_refl _ _) _).
    + vm_compute. reflexivity.
    + reflexivity.
    + reflexivity.
  - refine (proj2 (negative_index_counts_from_the_end snp_record (Some 0%Z) "DP4[-1]" "<4"
                     "DP4" (-1) [Int 0; Int 0; Int 5; Int 5] [] eq_refl eq_refl _ _) _).
    + vm_compute. reflexivity.
    + reflexivity.
    + discriminate.
Defined.

(** X12.  On an annotation [K] that is a number the index of a rule key
    is not used: when the rule key [K[i]] and [K] itself are plain keys
    (neither is [PV4] nor a [sum(...)] key), the rule [K[i]] acts as the
    rule [K]. *)
Theorem index_ignored_on_scalar (v : VariantRecord) (iline : option Z)
    (key thr k : string) (index : Z) (n : num) (rules : list (string * string)) :
  plain_key key = true -> plain_key k = true ->
  parse_key key = Ret (k, index) ->
  INFO v !! k = Some (Scalar n) ->
  info_rules v iline ((key, thr) :: rules) = info_rules v iline ((k, thr) :: rules).
Proof.
  intros Hkey_plain Hk_plain Hkey Hk. cbn [info_rules].
  rewrite !info_rule_plain_eq by assumption.
  rewrite (parse_key_key _ _ _ Hkey), Hkey, !mbind_lift_ret. cbn [fst snd].
  now rewrite Hk.
Qed.

Lemma index_ignored_on_scalar_witness :
  info_rules snp_record (Some 0%Z) [("DP[3]", "<50")]
  = info_rules snp_record (Some 0%Z) [("DP", "<50")].
Proof.
  apply (index_ignored_on_scalar snp_record (Some 0%Z) "DP[3]" "<50" "DP" 3 (Int 40) []).
  - reflexivity.
  - reflexivity.
  - reflexivity.
  - vm_compute. reflexivity.
Defined.

(** X13.  A rule key without an index stands for index 0: on every
    record the rule [K] acts as the rule [K[0]] ([K] a plain key without
    surrounding white space). *)
Theorem bare_key_is_index_zero (v : VariantRecord) (iline : option Z) (K thr : string)
    (rules : list (string * string)) :
  plain_key K = true ->
  contains "[" K = false -> strip K = K ->
  info_rules v iline ((K, thr) :: rules)
  = info_rules v iline ((K +:+ "[0]", thr) :: rules).
Proof.
  intros Hplain Hopen Hstrip.
  assert (Hplain0 : plain_key (K +:+ "[0]") = true).
  { apply plain_key_inv in Hplain as [_ Hsum]. unfold plain_key.
    rewrite (startswith_sum_app K "[0]" Hsum eq_refl).
    destruct (String.eqb_spec (K +:+ "[0]") "PV4") as [E|]; [|reflexivity].
    assert (H : contains "[" (K +:+ "[0]") = true)
      by (rewrite contains_app; apply orb_true_r).
    rewrite E in H. discriminate H. }
  assert (Hparse0 : parse_key (K +:+ "[0]") = Ret (K, 0%Z)).
  { unfold parse_key. rewrite !contains_app.
    change (contains "[" "[0]") with true. change (contains "]" "[0]") with true.
    rewrite !orb_true_r. cbn [negb].
    change "[0]" with (String "[" "0]"). rewrite (split1_app _ _ _ Hopen).
    change (int_of_string (strip (replace "]" "" "0]"))) with (Ret 0%Z : res Z).
    cbn [bind]. now rewrite Hstrip. }
  assert (Hparse : parse_key K = Ret (K, 0%Z)).
  { unfold parse_key. now rewrite Hopen. }
  cbn [info_rules]. rewrite !info_rule_plain_eq by assumption.
  now rewrite Hparse, Hparse0.
Qed.

Lemma bare_key_is_index_zero_witness :
  info_rules snp_record (Some 0%Z) [("DP4", "<4")]
  = info_rules snp_record (Some 0%Z) [("DP4[0]", "<4")].
Proof.
  apply (bare_key_is_index_zero snp_record (Some 0%Z) "DP4" "<4" []); reflexivity.
Defined.

(** ** The threshold evaluator *)

(** X14.  For text [s] without [&] and [|] that [float] does not read, the
    empty text included: [<=s] and [>=s] raise [ValueError] against every
    value, and so do [<s] and [>s] when [s] does not start with [=]; such a
    clause is not taken for an unrecognised one, which evaluates to
    false. *)
Theorem unreadable_threshold_raises (v : num) (s : string) (e : exn) :
  float_of_string s = Raise e ->
  contains "&" s = false -> contains "|" s = false ->
  _filter_info_field v ("<=" +:+ s) = Raise ValueError /\
  _filter_info_field v (">=" +:+ s) = Raise ValueError /\
  (startswith "=" s = false ->
   _filter_info_field v ("<" +:+ s) = Raise ValueError /\
   _filter_info_field v (">" +:+ s) = Raise ValueError).
Proof.
  intros Hs Ha Ho. pose proof (float_of_string_raises s e Hs) as ->.
  assert (Hclause : forall op : string,
             contains "&" op = false -> contains "|" op = false ->
             _filter_info_field v (op +:+ s)
             = filter_info_field_body (fun _ _ => Raise RecursionError) v (op +:+ s)).
  { intros op H1 H2. apply filter_info_field_clause; rewrite contains_app; now rewrite ?H1, ?H2. }
  split; [|split; [|intros Heq; split]]; rewrite Hclause by reflexivity;
    unfold filter_info_field_body; rewrite !contains_app, Ha, Ho;
    rewrite ?append_cons, ?append_nil, ?startswith_cons, ?startswith_nil, ?Heq;
    cbn [contains Ascii.eqb Bool.eqb orb andb drop]; now rewrite Hs.
Qed.

Lemma unreadable_threshold_raises_witness :
  _filter_info_field (Int 40) "<=" = Raise ValueError /\
  _filter_info_field (Int 40) "<thirty" = Raise ValueError.
Proof.
  split.
  - exact (proj1 (unreadable_threshold_raises (Int 40) "" ValueError eq_refl eq_refl eq_refl)).
  - exact (proj1 (proj2 (proj2 (unreadable_threshold_raises (Int 40) "thirty" ValueError
                                   eq_refl eq_refl eq_refl)) eq_refl)).
Defined.

(** X15.  A value that is a NaN is filtered by no threshold expression,
    and a threshold that reads as a NaN filters no value. *)
Theorem nan_is_never_filtered :
  (forall e : string, _filter_info_field (Float S754_nan) e <> Ret true) /\
  (forall (v : num) (s : string),
      float_of_string s = Ret S754_nan ->
      _filter_info_field v ("<" +:+ s) = Ret false /\
      _filter_info_field v ("<=" +:+ s) = Ret false /\
      _filter_info_field v (">" +:+ s) = Ret false /\
      _filter_info_field v (">=" +:+ s) = Ret false).
Proof.
  split; [intros e; apply filter_info_field_fuel_nan|].
  intros v s Hs. destruct (float_of_string_text s _ Hs) as (Ha & Ho & He).
  assert (Heq : startswith "=" s = false) by now apply startswith_char.
  assert (Hclause : forall op : string,
             contains "&" op = false -> contains "|" op = false ->
             _filter_info_field v (op +:+ s)
             = filter_info_field_body (fun _ _ => Raise RecursionError) v (op +:+ s)).
  { intros op H1 H2. apply filter_info_field_clause; rewrite contains_app; now rewrite ?H1, ?H2. }
  repeat split; rewrite Hclause by reflexivity;
    unfold filter_info_field_body; rewrite !contains_app, Ha, Ho;
    rewrite ?append_cons, ?append_nil, ?startswith_cons, ?startswith_nil, ?Heq;
    cbn [contains Ascii.eqb Bool.eqb orb andb drop]; rewrite Hs; cbn [bind];
    unfold lt, le, gt, ge; now rewrite compare_nan_r.
Qed.

Lemma nan_is_never_filtered_witness :
  _filter_info_field (Int 40) "<nan" = Ret false /\
  _filter_info_field (Int 40) ">=nan" = Ret false.
Proof.
  split.
  - exact (proj1 (proj2 nan_is_never_filtered (Int 40) "nan" eq_refl)).
  - exact (proj2 (proj2 (proj2 (proj2 nan_is_never_filtered (Int 40) "nan" eq_refl)))).
Defined.

(** X16.  [_filter_info_field] raises nothing but [ValueError]: from a
    split into other than two operands, or from [float]. *)
Theorem filter_info_field_raises_only_value_error (v : num) (e : string) (x : exn) :
  _filter_info_field v e = Raise x -> x = ValueError.
Proof.
  intros H. destruct (filter_info_field_fuel_raises 3 v e x H) as [->| ->]; [reflexivity|].
  now apply filter_info_field_no_recursion_error in H.
Qed.

Lemma filter_info_field_raises_only_value_error_witness :
  _filter_info_field (Int 3) "<5&>1&>0" = Raise ValueError /\ ValueError = ValueError.
Proof.
  split; [vm_compute; reflexivity|].
  apply (filter_info_field_raises_only_value_error (Int 3) "<5&>1&>0" ValueError).
  vm_compute. reflexivity.
Defined.

(** ** The built-in filters *)

(** X17.  [is_valid_dp4] reads the four entries of DP4 without a check:
    a DP4 of fewer than four entries raises [IndexError], a DP4 that is a
    number [TypeError]. *)
Theorem dp4_short_list_raises (variant : VariantRecord)
    (minimum_depth minimum_depth_strand minimum_ratio : num) :
  (forall l : list num,
      INFO variant !! "DP4" = Some (List l) -> (length l < 4)%nat ->
      is_valid_dp4 variant minimum_depth minimum_depth_strand minimum_ratio
      = Raise IndexError) /\
  (forall n : num,
      INFO variant !! "DP4" = Some (Scalar n) ->
      is_valid_dp4 variant minimum_depth minimum_depth_strand minimum_ratio
      = Raise TypeError).
Proof.
  split.
  - intros l Hdp4 Hlen. unfold is_valid_dp4. rewrite Hdp4.
    destruct l as [|a [|b [|c [|d l]]]]; try reflexivity.
    simpl in Hlen. lia.
  - intros n Hdp4. unfold is_valid_dp4. now rewrite Hdp4.
Qed.

Lemma dp4_short_list_raises_witness :
  is_valid_dp4 short_dp4_record (Int 4) (Int 2) (Float float_0_75) = Raise IndexError.
Proof.
  apply (proj1 (dp4_short_list_raises short_dp4_record (Int 4) (Int 2) (Float float_0_75))
           [Int 5; Int 5]).
  - vm_compute. reflexivity.
  - simpl. lia.
Defined.

(** X18.  Lowering the two depth thresholds of the DP4 filter discards
    no record that was kept (integer counts and thresholds). *)
Theorem dp4_depth_thresholds_monotone (variant : VariantRecord)
    (ref_fwd ref_rev alt_fwd alt_rev : Z) (depth depth' strand strand' : Z)
    (minimum_ratio : num) :
  INFO variant !! "DP4" = Some (List [Int ref_fwd; Int ref_rev; Int alt_fwd; Int alt_rev]) ->
  (depth <= depth')%Z -> (strand <= strand')%Z ->
  is_valid_dp4 variant (Int depth') (Int strand') minimum_ratio = Ret true ->
  is_valid_dp4 variant (Int depth) (Int strand) minimum_ratio = Ret true.
Proof.
  intros Hdp4 Hd Hs. unfold is_valid_dp4. rewrite Hdp4.
  change (subscript (List [Int ref_fwd; Int ref_rev; Int alt_fwd; Int alt_rev]) 0)
    with (Ret (Int ref_fwd) : res num).
  change (subscript (List [Int ref_fwd; Int ref_rev; Int alt_fwd; Int alt_rev]) 1)
    with (Ret (Int ref_rev) : res num).
  change (subscript (List [Int ref_fwd; Int ref_rev; Int alt_fwd; Int alt_rev]) 2)
    with (Ret (Int alt_fwd) : res num).
  change (subscript (List [Int ref_fwd; Int ref_rev; Int alt_fwd; Int alt_rev]) 3)
    with (Ret (Int alt_rev) : res num).
  cbn [bind add].
  destruct (float_of_num (Int (ref_fwd + alt_fwd))) as [forward|]; [|discriminate].
  cbn [bind].
  destruct (strand_ratios (Int ref_fwd) (Int alt_fwd) forward) as [[rfr rfa]|]; [|discriminate].
  cbn [bind].
  destruct (float_of_num (Int (ref_rev + alt_rev))) as [reverse|]; [|discriminate].
  cbn [bind].
  destruct (strand_ratios (Int ref_rev) (Int alt_rev) reverse) as [[rrr rra]|]; [|discriminate].
  cbn [bind].
  destruct (is_polymorphic variant) as [p|]; [|discriminate].
  cbn [bind]. rewrite !lt_Int.
  destruct p; cbn [negb];
    repeat match goal with
           | |- context [(?x <? ?y)%Z] => destruct (Z.ltb_spec x y)
           end; try discriminate; try lia; auto.
Qed.

Lemma dp4_depth_thresholds_monotone_witness :
  is_valid_dp4 ref_record (Int 20) (Int 10) (Float float_0_75) = Ret true /\
  is_valid_dp4 ref_record (Int 4) (Int 2) (Float float_0_75) = Ret true.
Proof.
  split; [vm_compute; reflexivity|].
  apply (dp4_depth_thresholds_monotone ref_record 10 10 1 1 4 20 2 10 (Float float_0_75)).
  - vm_compute. reflexivity.
  - lia.
  - lia.
  - vm_compute. reflexivity.
Defined.

(** X19.  [is_indel] reads the first ALT entry, the first character of
    REF and the INDEL annotation, and nothing else: its answer is the
    disjunction of a comma in the former, a comma as the latter and a true
    INDEL; an empty ALT list, or an empty REF when ALT decides nothing,
    raises [IndexError]; a comma in the first ALT entry decides before REF
    is read. *)
Theorem indel_test_reads_first_entries (variant : VariantRecord) :
  (ALT variant = [] -> is_indel variant = Raise IndexError) /\
  (forall (alt0 : option string) (alts : list (option string)),
      ALT variant = alt0 :: alts ->
      match alt0 with Some a => contains "," a | None => false end = false ->
      REF variant = EmptyString ->
      is_indel variant = Raise IndexError) /\
  (forall (alt0 : option string) (alts : list (option string)) (c : ascii) (ref : string),
      ALT variant = alt0 :: alts -> REF variant = String c ref ->
      is_indel variant
      = Ret (match alt0 with Some a => contains "," a | None => false end
             || Ascii.eqb c ","
             || match INFO variant !! "INDEL" with
                | Some flag => truthy flag
                | None => false
                end)) /\
  (forall (a : string) (alts : list (option string)),
      ALT variant = Some a :: alts -> contains "," a = true ->
      is_indel variant = Ret true).
Proof.
  split; [|split; [|split]].
  - intros Halt. unfold is_indel. now rewrite Halt.
  - intros alt0 alts Halt Hcomma Href. unfold is_indel. rewrite Halt, Href.
    change (getitem (alt0 :: alts) 0) with (Ret alt0). cbn [bind].
    now rewrite Hcomma.
  - intros alt0 alts c ref. apply is_indel_spec.
  - intros a alts Halt Hcomma. unfold is_indel. rewrite Halt.
    change (getitem (Some a :: alts) 0) with (Ret (Some a)). cbn [bind].
    now rewrite Hcomma.
Qed.

Lemma indel_test_reads_first_entries_witness :
  is_indel empty_ref_record = Raise IndexError /\
  is_indel multi_ref_record = Ret false.
Proof.
  split.
  - apply (proj1 (proj2 (indel_test_reads_first_entries empty_ref_record)) (Some "G") []);
      reflexivity.
  - exact (proj1 (proj2 (proj2 (indel_test_reads_first_entries multi_ref_record)))
             (Some "G") [] "A"%char ",AT" eq_refl eq_refl).
Defined.

(** X20.  A NaN on either side of the AF1 test keeps the record: an AF1
    that is a NaN passes under every threshold, and under a threshold that
    is a NaN every AF1 passes. *)
Theorem af1_nan_keeps_record (variant : VariantRecord) (alt0 : option string)
    (alts : list (option string)) :
  ALT variant = alt0 :: alts ->
  (forall minimum_af1 : num,
      INFO variant !! "AF1" = Some (Scalar (Float S754_nan)) ->
      is_valid_af1 variant minimum_af1 = Ret true) /\
  (forall af1 : num,
      INFO variant !! "AF1" = Some (Scalar af1) ->
      is_valid_af1 variant (Float S754_nan) = Ret true).
Proof.
  intros Halt. split.
  - intros minimum_af1 Haf1. now apply (af1_nan_passes variant alt0 alts).
  - intros af1 Haf1. unfold is_valid_af1.
    rewrite Haf1, (is_polymorphic_alt _ _ _ Halt). cbn [bind as_num].
    change (sub (Int 1) (Float S754_nan)) with (Ret (Float S754_nan) : res num).
    cbn [bind]. unfold lt, gt. rewrite compare_nan_r.
    now destruct (polymorphic_alt alt0).
Qed.

Lemma af1_nan_keeps_record_witness :
  is_valid_af1 nan_af1_record (Float float_0_95) = Ret true /\
  is_valid_af1 snp_record (Float S754_nan) = Ret true.
Proof.
  split.
  - apply (proj1 (af1_nan_keeps_record nan_af1_record (Some "G") [] eq_refl)).
    vm_compute. reflexivity.
  - apply (proj2 (af1_nan_keeps_record snp_record (Some "G") [] eq_refl)
             (Float float_0_8)).
    vm_compute. reflexivity.
Defined.

(** ** The freebayes filter *)

(** X21.  Whatever is assigned to [filters_params] or deleted from it
    after the constructor, the six parameters that [_filter_line] reads
    are in the dictionary: their lookup raises no [KeyError]. *)
Theorem filters_params_always_complete (file : list VariantRecord) (names : res (list string))
    (ops : list params_op) (k : string) :
  In k param_names ->
  exists x : num,
    Freebayes.getitem_dict
      (Freebayes._filters_params (fold_left apply_op ops (snd (Freebayes.__init__ file names)))) k
    = Ret x.
Proof.
  intros Hk.
  assert (Hinv : forall self,
             is_Some (Freebayes._filters_params self !! k) ->
             is_Some (Freebayes._filters_params (fold_left apply_op ops self) !! k)).
  { induction ops as [|op ops IH]; intros self Hself; [exact Hself|].
    cbn [fold_left]. apply IH. destruct op as [d|]; cbn.
    - apply lookup_union_is_Some. now right.
    - now apply default_params_complete. }
  destruct (Hinv (snd (Freebayes.__init__ file names))) as [x Hx].
  { unfold Freebayes.__init__. destruct (Freebayes._check_if_joint names). cbn.
    now apply default_params_complete. }
  exists x. unfold Freebayes.getitem_dict. now rewrite Hx.
Qed.

Lemma filters_params_always_complete_witness :
  exists x : num,
    Freebayes.getitem_dict
      (Freebayes._filters_params
         (fold_left apply_op
            [Assign {[ "frequency" := Float float_0_8 ]}; Delete;
             Assign {[ "min_depth" := Int 10 ]}]
            (snd (Freebayes.__init__ [fb_record] (Ret ["sample"])))))
      "strand_ratio"
    = Ret x.
Proof.
  apply (filters_params_always_complete [fb_record] (Ret ["sample"])
           [Assign {[ "frequency" := Float float_0_8 ]}; Delete;
            Assign {[ "min_depth" := Int 10 ]}] "strand_ratio").
  simpl. tauto.
Defined.

(** X22.  On a joint file [_filter_line] reads the quality and the depth
    only: two records with the same QUAL and DP get the same answer under
    the same two thresholds, whatever their strand counts (missing ones
    included), the other parameters and the functions of [vcftools]. *)
Theorem joint_filter_reads_quality_and_depth
    (compute_frequency compute_strand_balance : VariantRecord -> res (list num))
    (compute_frequency' compute_strand_balance' : VariantRecord -> res (list num))
    (self self' : Freebayes.VCF_freebayes) (v v' : VariantRecord) :
  Freebayes._is_joint self = true -> Freebayes._is_joint self' = true ->
  Freebayes._filters_params self !! "freebayes_score"
  = Freebayes._filters_params self' !! "freebayes_score" ->
  Freebayes._filters_params self !! "min_depth"
  = Freebayes._filters_params self' !! "min_depth" ->
  QUAL v = QUAL v' -> INFO v !! "DP" = INFO v' !! "DP" ->
  Freebayes._filter_line compute_frequency compute_strand_balance self v
  = Freebayes._filter_line compute_frequency' compute_strand_balance' self' v'.
Proof.
  intros Hj Hj' Hscore Hdepth Hqual Hdp.
  unfold Freebayes._filter_line, Freebayes.getitem_dict.
  rewrite Hj, Hj', Hscore, Hdepth, Hqual, Hdp.
  destruct (Freebayes._filters_params self' !! "freebayes_score") as [score|]; [|reflexivity].
  cbn [bind]. destruct (lt (QUAL v') score); [reflexivity|].
  destruct (INFO v' !! "DP") as [dp|]; [|reflexivity]. cbn [bind].
  destruct (Freebayes._filters_params self' !! "min_depth") as [md|]; [|reflexivity].
  cbn [bind]. destruct (as_num dp) as [n|]; [|reflexivity]. cbn [bind].
  now destruct (le n md).
Qed.

Lemma joint_filter_reads_quality_and_depth_witness :
  Freebayes._filter_line fb_frequency fb_balance fb_joint fb_record
  = Freebayes._filter_line (fun _ => Raise KeyError) (fun _ => Raise KeyError) fb_joint
      fb_record_depth_only.
Proof.
  apply (joint_filter_reads_quality_and_depth fb_frequency fb_balance
           (fun _ => Raise KeyError) (fun _ => Raise KeyError)
           fb_joint fb_joint fb_record fb_record_depth_only); reflexivity.
Defined.

(** X23.  On a file that is not joint, a record with a depth, integer
    strand counts and a first frequency and strand balance is kept exactly
    when QUAL is not below the score, the depth and the two strand depths
    ([SRF + sum(SAF)], [SRR + sum(SAR)]) are not below or at their
    thresholds, and the frequency and the balance are not below theirs: the
    score, frequency and balance thresholds are inclusive, the three depth
    thresholds exclusive. *)
Theorem freebayes_filter_spec
    (compute_frequency compute_strand_balance : VariantRecord -> res (list num))
    (self : Freebayes.VCF_freebayes) (v : VariantRecord)
    (score min_depth forward_depth reverse_depth frequency strand_ratio : num)
    (dp : num) (srf srr : Z) (saf sar : list Z)
    (freq0 sb0 : num) (freqs sbs : list num) :
  Freebayes._is_joint self = false ->
  Freebayes._filters_params self !! "freebayes_score" = Some score ->
  Freebayes._filters_params self !! "min_depth" = Some min_depth ->
  Freebayes._filters_params self !! "forward_depth" = Some forward_depth ->
  Freebayes._filters_params self !! "reverse_depth" = Some reverse_depth ->
  Freebayes._filters_params self !! "frequency" = Some frequency ->
  Freebayes._filters_params self !! "strand_ratio" = Some strand_ratio ->
  INFO v !! "DP" = Some (Scalar dp) ->
  INFO v !! "SRF" = Some (Scalar (Int srf)) ->
  INFO v !! "SAF" = Some (List (map Int saf)) ->
  INFO v !! "SRR" = Some (Scalar (Int srr)) ->
  INFO v !! "SAR" = Some (List (map Int sar)) ->
  compute_frequency v = Ret (freq0 :: freqs) ->
  compute_strand_balance v = Ret (sb0 :: sbs) ->
  Freebayes._filter_line compute_frequency compute_strand_balance self v
  = Ret (negb (lt (QUAL v) score)
         && negb (le dp min_depth)
         && negb (le (Int (srf + sum_Z saf)) forward_depth)
         && negb (le (Int (srr + sum_Z sar)) reverse_depth)
         && negb (lt freq0 frequency)
         && negb (lt sb0 strand_ratio)).
Proof.
  intros Hj Hscore Hmd Hfd Hrd Hf Hsr Hdp Hsrf Hsaf Hsrr Hsar Hfreq Hsb.
  unfold Freebayes._filter_line, Freebayes.getitem_dict.
  rewrite Hj, Hscore, Hmd, Hfd, Hrd, Hf, Hsr, Hdp, Hsrf, Hsaf, Hsrr, Hsar, Hfreq, Hsb.
  cbn [bind as_num].
  destruct (lt (QUAL v) score); [reflexivity|].
  destruct (le dp min_depth); [reflexivity|].
  unfold Freebayes.sum_info. rewrite sum_from_ints, Z.add_0_l. cbn [bind add].
  destruct (le _ forward_depth); [reflexivity|].
  rewrite sum_from_ints, Z.add_0_l. cbn [bind add].
  destruct (le _ reverse_depth); [reflexivity|].
  change (getitem (freq0 :: freqs) 0) with (Ret freq0).
  cbn [bind].
  destruct (lt freq0 frequency); [reflexivity|].
  change (getitem (sb0 :: sbs) 0) with (Ret sb0). cbn [bind].
  now destruct (lt sb0 strand_ratio).
Qed.

Lemma freebayes_filter_spec_witness :
  Freebayes._filter_line fb_frequency fb_balance
    (Freebayes.set_filters_params fb_single {[ "freebayes_score" := Int 200 ]}) fb_record
  = Ret true /\
  Freebayes._filter_line fb_frequency fb_balance
    (Freebayes.set_filters_params fb_single {[ "min_depth" := Int 30 ]}) fb_record
  = Ret false.
Proof.
  split.
  - exact (freebayes_filter_spec fb_frequency fb_balance
             (Freebayes.set_filters_params fb_single {[ "freebayes_score" := Int 200 ]})
             fb_record (Int 200) (Int 0) (Int 0) (Int 0) (Int 0) (Int 0)
             (Int 30) 0 1 [14%Z] [15%Z] (Float float_0_8) (Float float_0_1) [] []
             eq_refl eq_refl eq_refl eq_refl eq_refl eq_refl eq_refl
             eq_refl eq_refl eq_refl eq_refl eq_refl eq_refl eq_refl).
  - exact (freebayes_filter_spec fb_frequency fb_balance
             (Freebayes.set_filters_params fb_single {[ "min_depth" := Int 30 ]})
             fb_record (Int 0) (Int 30) (Int 0) (Int 0) (Int 0) (Int 0)
             (Int 30) 0 1 [14%Z] [15%Z] (Float float_0_8) (Float float_0_1) [] []
             eq_refl eq_refl eq_refl eq_refl eq_refl eq_refl eq_refl
             eq_refl eq_refl eq_refl eq_refl eq_refl eq_refl eq_refl).
Defined.

(** X24.  For a joint file [_create_index] ends with one [info_i]
    column per sample, and the slice [to_csv] takes without [info_field]
    drops exactly those. *)
Theorem csv_columns_joint (vcf : Freebayes.VCF_freebayes) (variants : list Freebayes.Variant)
    (names : list string) :
  Freebayes.samples vcf = Ret names -> Freebayes._is_joint vcf = true -> names <> [] ->
  let written :=
    ["chr"; "position"; "reference"; "alternative"; "depth"] ++ names
    ++ ["strand_balance"; "freebayes_score"; "fisher_pvalue"]
    ++ (if annotated variants then Freebayes.annotation_columns else []) in
  Freebayes._create_index vcf variants = Ret (written ++ info_columns (length names)) /\
  Freebayes.to_csv_columns vcf (written ++ info_columns (length names)) = Ret written.
Proof.
  intros Hnames Hjoint Hne written. split.
  - unfold Freebayes._create_index. rewrite Hjoint, Hnames. cbn [bind].
    unfold written, annotated, info_columns.
    destruct variants as [|first rest]; [|destruct (bool_decide _)];
      now rewrite <- ?app_assoc, ?app_nil_r.
  - unfold Freebayes.to_csv_columns. rewrite Hnames. cbn [bind]. f_equal.
    replace (length names) with (length (info_columns (length names))) at 2
      by (unfold info_columns; now rewrite length_map, length_seq).
    apply slice_to_app. destruct names; [congruence|discriminate].
Qed.

Lemma csv_columns_joint_witness :
  Freebayes._create_index fb_joint []
  = Ret ["chr"; "position"; "reference"; "alternative"; "depth"; "mother"; "father";
         "strand_balance"; "freebayes_score"; "fisher_pvalue"; "info_0"; "info_1"] /\
  Freebayes.to_csv_columns fb_joint
    ["chr"; "position"; "reference"; "alternative"; "depth"; "mother"; "father";
     "strand_balance"; "freebayes_score"; "fisher_pvalue"; "info_0"; "info_1"]
  = Ret ["chr"; "position"; "reference"; "alternative"; "depth"; "mother"; "father";
         "strand_balance"; "freebayes_score"; "fisher_pvalue"].
Proof.
  apply (csv_columns_joint fb_joint [] ["mother"; "father"]).
  - reflexivity.
  - reflexivity.
  - discriminate.
Defined.

(** X25.  For a file that is not joint the same slice drops a data
    column: with one sample the last column ([fisher_pvalue], or
    [prot_size] with annotations) is not written; with no sample no column
    is. *)
Theorem csv_columns_not_joint (vcf : Freebayes.VCF_freebayes)
    (variants : list Freebayes.Variant) :
  Freebayes._is_joint vcf = false ->
  (forall name : string,
      Freebayes.samples vcf = Ret [name] ->
      exists written : list string,
        let last := if annotated variants then "prot_size" else "fisher_pvalue" in
        Freebayes._create_index vcf variants = Ret (written ++ [last]) /\
        Freebayes.to_csv_columns vcf (written ++ [last]) = Ret written) /\
  (Freebayes.samples vcf = Ret [] ->
   forall columns : list string, Freebayes.to_csv_columns vcf columns = Ret []).
Proof.
  intros Hjoint. split.
  - intros name Hnames.
    assert (Hcsv : forall written last,
               Freebayes.to_csv_columns vcf (written ++ [last]) = Ret written).
    { intros written last. unfold Freebayes.to_csv_columns. rewrite Hnames. cbn [bind].
      f_equal. now apply (slice_to_app written [last]). }
    unfold Freebayes._create_index. rewrite Hjoint. cbn [bind].
    destruct variants as [|first rest]; [|unfold annotated; destruct (bool_decide _)].
    + exists ["chr"; "position"; "reference"; "alternative"; "depth"; "frequency";
              "strand_balance"; "freebayes_score"].
      split; [reflexivity|apply Hcsv].
    + exists (["chr"; "position"; "reference"; "alternative"; "depth"; "frequency";
               "strand_balance"; "freebayes_score"; "fisher_pvalue"]
              ++ removelast Freebayes.annotation_columns).
      split; [reflexivity|apply Hcsv].
    + exists ["chr"; "position"; "reference"; "alternative"; "depth"; "frequency";
              "strand_balance"; "freebayes_score"].
      split; [reflexivity|apply Hcsv].
  - intros Hnames columns. unfold Freebayes.to_csv_columns. rewrite Hnames. cbn [bind].
    unfold Freebayes.slice_to. cbn [length Z.of_nat Z.opp Z.ltb Z.compare].
    now rewrite Z.min_l by lia.
Qed.

Lemma csv_columns_not_joint_witness :
  exists written : list string,
    Freebayes._create_index fb_single [] = Ret (written ++ ["fisher_pvalue"]) /\
    Freebayes.to_csv_columns fb_single (written ++ ["fisher_pvalue"]) = Ret written.
Proof.
  apply (proj1 (csv_columns_not_joint fb_single [] eq_refl) "sample"). reflexivity.
Defined.

(** X26.  Reading back an annotation laid out as
    [effect(impact|class|codon|p.protein/c.cds|size|gene|...] returns its
    eight fields, the two-character marks of the protein and CDS changes
    dropped, provided no field holds the separator that ends it. *)
Theorem eff_annotation_round_trip
    (effect impact class codon protein cds size gene rest : string) (others : list string) :
  contains "(" effect = false -> contains "|" effect = false ->
  contains "(" impact = false -> contains "|" impact = false ->
  contains "|" class = false -> contains "|" codon = false ->
  contains "/" protein = false -> contains "|" protein = false ->
  contains "/" cds = false -> contains "|" cds = false ->
  contains "|" size = false -> contains "|" gene = false ->
  Freebayes.eff_annotation
    (Some (eff_text effect impact class codon protein cds size gene rest :: others))
  = Ret (Some [("CDS_position", cds); ("effect_type", effect); ("codon_change", codon);
               ("gene_name", gene); ("mutation_type", class); ("prot_effect", protein);
               ("prot_size", size); ("effect_impact", impact)]).
Proof.
  intros He1 He2 Hi1 Hi2 Hcl Hco Hp1 Hp2 Hc1 Hc2 Hs Hg.
  unfold Freebayes.eff_annotation, eff_text.
  change (getitem (?x :: others) 0) with (Ret x : res string). cbn [bind].
  rewrite !append_cons, !append_nil.
  rewrite (split_app "|" (effect +:+ String "(" impact))
    by (rewrite contains_app, contains_cons, He2, Hi2; reflexivity).
  rewrite (split_app "|" class) by assumption.
  rewrite (split_app "|" codon) by assumption.
  match goal with
  | |- context [split "|" (String "p" (String "." (?X +:+ String "|" ?T)))] =>
      change (String "p" (String "." (X +:+ String "|" T)))
        with ((String "p" (String "." X)) +:+ String "|" T)
  end.
  rewrite (split_app "|" (String "p" (String "." (protein +:+ String "/" (String "c" (String "." cds))))))
    by (rewrite !contains_cons, contains_app, !contains_cons, Hp2, Hc2; reflexivity).
  rewrite (split_app "|" size) by assumption.
  rewrite (split_app "|" gene) by assumption.
  change (getitem (?a :: ?l) 0) with (Ret a : res string). cbn [bind].
  rewrite (split_app "(" effect) by assumption.
  rewrite (split_no_sep "(" impact) by assumption.
  change (getitem (?a0 :: ?a1 :: ?a2 :: ?a3 :: ?l) 3) with (Ret a3 : res string). cbn [bind].
  change (String "p" (String "." (protein +:+ String "/" (String "c" (String "." cds)))))
    with ((String "p" (String "." protein)) +:+ String "/" (String "c" (String "." cds))).
  rewrite (split_app "/" (String "p" (String "." protein)))
    by (rewrite !contains_cons, Hp1; reflexivity).
  rewrite (split_no_sep "/" (String "c" (String "." cds)))
    by (rewrite !contains_cons, Hc1; reflexivity).
  reflexivity.
Qed.

Lemma eff_annotation_round_trip_witness :
  Freebayes.eff_annotation
    (Some ["NON_SYNONYMOUS_CODING(MODERATE|MISSENSE|aTg/aCg|p.Met1Thr/c.2T>C|100|geneX|||"])
  = Ret (Some [("CDS_position", "2T>C"); ("effect_type", "NON_SYNONYMOUS_CODING");
               ("codon_change", "aTg/aCg"); ("gene_name", "geneX");
               ("mutation_type", "MISSENSE"); ("prot_effect", "Met1Thr");
               ("prot_size", "100"); ("effect_impact", "MODERATE")]).
Proof.
  apply (eff_annotation_round_trip "NON_SYNONYMOUS_CODING" "MODERATE" "MISSENSE" "aTg/aCg"
           "Met1Thr" "2T>C" "100" "geneX" "||" []); reflexivity.
Defined.

(** X27.  Only a record without EFF is passed over in silence: an empty
    EFF list raises [IndexError], a first field without an opening
    parenthesis [ValueError], and an annotation of fewer than six fields
    [IndexError]. *)
Theorem eff_annotation_errors :
  Freebayes.eff_annotation None = Ret None /\
  Freebayes.eff_annotation (Some []) = Raise IndexError /\
  (forall (eff0 : string) (others : list string),
      contains "(" (hd EmptyString (split "|" eff0)) = false ->
      Freebayes.eff_annotation (Some (eff0 :: others)) = Raise ValueError) /\
  (forall (eff0 effect impact : string) (others : list string),
      split "(" (hd EmptyString (split "|" eff0)) = [effect; impact] ->
      (length (split "|" eff0) < 6)%nat ->
      Freebayes.eff_annotation (Some (eff0 :: others)) = Raise IndexError).
Proof.
  split; [reflexivity|]. split; [reflexivity|]. split.
  - intros eff0 others Hopen. unfold Freebayes.eff_annotation.
    change (getitem (eff0 :: others) 0) with (Ret eff0 : res string). cbn [bind].
    pose proof (split_nonempty "|" eff0) as Hne.
    destruct (split "|" eff0) as [|annotation0 fields]; [congruence|].
    cbn [hd] in Hopen.
    change (getitem (annotation0 :: fields) 0) with (Ret annotation0 : res string).
    cbn [bind]. now rewrite (split_no_sep "(" annotation0 Hopen).
  - intros eff0 effect impact others Hfirst Hlen. unfold Freebayes.eff_annotation.
    change (getitem (eff0 :: others) 0) with (Ret eff0 : res string). cbn [bind].
    destruct (split "|" eff0) as [|a0 [|a1 [|a2 [|a3 [|a4 [|a5 fields]]]]]];
      cbn [hd] in Hfirst; try reflexivity;
      try (change (getitem (a0 :: ?l) 0) with (Ret a0 : res string); cbn [bind];
           rewrite Hfirst; reflexivity).
    + change (getitem [a0; a1; a2; a3] 0) with (Ret a0 : res string). cbn [bind].
      rewrite Hfirst.
      change (getitem [a0; a1; a2; a3] 3) with (Ret a3 : res string). cbn [bind].
      now destruct (split "/" a3) as [|x [|y [|z l]]].
    + change (getitem [a0; a1; a2; a3; a4] 0) with (Ret a0 : res string). cbn [bind].
      rewrite Hfirst.
      change (getitem [a0; a1; a2; a3; a4] 3) with (Ret a3 : res string). cbn [bind].
      now destruct (split "/" a3) as [|x [|y [|z l]]].
    + simpl in Hlen. lia.
Qed.

Lemma eff_annotation_errors_witness :
  Freebayes.eff_annotation (Some ["INTERGENIC|MODIFIER(x"]) = Raise ValueError /\
  Freebayes.eff_annotation (Some ["INTERGENIC(MODIFIER|||)"]) = Raise IndexError.
Proof.
  split.
  - apply (proj1 (proj2 (proj2 eff_annotation_errors)) "INTERGENIC|MODIFIER(x" []).
    reflexivity.
  - apply (proj2 (proj2 (proj2 eff_annotation_errors)) "INTERGENIC(MODIFIER|||)"
             "INTERGENIC" "MODIFIER" []).
    + reflexivity.
    + simpl. lia.
Defined.

(** ** Sum rules *)

Lemma append_assoc (s t u : string) : (s +:+ t) +:+ u = s +:+ (t +:+ u).
Proof.
  induction s as [|a s IH]; [reflexivity|].
  rewrite !append_cons. now rewrite IH.
Qed.

Lemma append_nil_r (s : string) : s +:+ EmptyString = s.
Proof. induction s as [|a s IH]; [reflexivity|]. rewrite append_cons. now rewrite IH. Qed.

(** An index literal is a sign and digits. *)
Lemma index_literal_text (ix : string) (i : Z) :
  index_literal ix = Some i ->
  exists (neg : bool) (body : string) (n : Z),
    split_sign ix = (neg, body) /\ unsigned_of_string body = Some n.
Proof.
  unfold index_literal. destruct (split_sign ix) as [neg body].
  intros H. exists neg, body.
  destruct (unsigned_of_string body) as [n|] eqn:E; [eauto|].
  exfalso.
  repeat match type of H with
         | match ?x with _ => _ end = _ => destruct x
         end; discriminate.
Qed.

Lemma index_literal_contains (c : ascii) (ix : string) (i : Z) :
  is_digit c = false -> contains c "+-.einfaty" = false ->
  index_literal ix = Some i -> contains c ix = false.
Proof.
  intros Hd Hm H. apply index_literal_text in H as (neg & body & n & Hs & Hu).
  apply (contains_split_sign c Hm ix body neg Hs).
  exact (contains_unsigned c Hd body n Hu).
Qed.

Lemma all_upper_or_digit_contains (c : ascii) (s : string) :
  is_upper c = false -> is_digit c = false ->
  all_upper_or_digit s = true -> contains c s = false.
Proof.
  intros Hu Hd. induction s as [|a s IH]; simpl; [reflexivity|].
  intros H. apply andb_true_iff in H as [Ha Hs]. rewrite (IH Hs), orb_false_r.
  destruct (Ascii.eqb_spec a c) as [->|]; [|reflexivity].
  rewrite Hu, Hd in Ha. discriminate Ha.
Qed.

Lemma info_name_contains (c : ascii) (K : string) :
  is_upper c = false -> is_digit c = false ->
  is_info_name K = true -> contains c K = false.
Proof.
  intros Hu Hd. destruct K as [|a K]; [discriminate|]. simpl.
  intros H. apply andb_true_iff in H as [Ha HK].
  rewrite (all_upper_or_digit_contains c K Hu Hd HK), orb_false_r.
  destruct (Ascii.eqb_spec a c) as [->|]; [|reflexivity].
  rewrite Hu in Ha. discriminate Ha.
Qed.

(** Text without an [s] holds no occurrence of [sum(]. *)
Lemma replace_no_s (t : string) :
  contains "s" t = false -> replace_from "sum(" "sum([" 0 t = t.
Proof.
  induction t as [|a t IH]; [reflexivity|].
  rewrite contains_cons. intros H. apply orb_false_iff in H as [Ha Ht].
  cbn [replace_from].
  assert (Hp : String.prefix "sum(" (String a t) = false).
  { change (String.prefix "sum(" (String a t)) with (startswith "sum(" (String a t)).
    rewrite startswith_cons, Ascii.eqb_sym, Ha. reflexivity. }
  rewrite Hp, (IH Ht). reflexivity.
Qed.

Lemma drop_last_app (s t : string) :
  t <> EmptyString -> drop_last (s +:+ t) = s +:+ drop_last t.
Proof.
  intros Ht. induction s as [|a s IH]; [reflexivity|].
  rewrite !append_cons. cbn [drop_last]. rewrite IH.
  destruct (s +:+ t) eqn:E; [|reflexivity].
  destruct s; [|discriminate E]. now destruct t.
Qed.

Lemma drop_length_app (s t : string) :
  drop (String.length (s +:+ t) - String.length t) (s +:+ t) = t.
Proof.
  induction s as [|a s IH].
  - rewrite append_nil, Nat.sub_diag. now destruct t.
  - rewrite append_cons. cbn [String.length].
    assert (Hlen : String.length t <= String.length (s +:+ t)).
    { clear. induction s as [|b s IH]; [rewrite append_nil; lia|].
      rewrite append_cons. cbn [String.length]. lia. }
    rewrite Nat.sub_succ_l by exact Hlen. cbn [drop]. exact IH.
Qed.

Lemma skip_blanks_not_blank (a : ascii) (s : string) :
  Ascii.eqb a " " = false -> skip_blanks (String a s) = String a s.
Proof.
  intros H. cbn [skip_blanks].
  destruct a as [[] [] [] [] [] [] [] []]; try reflexivity. discriminate H.
Qed.

Lemma startswith_app_self (p s : string) : startswith p (p +:+ s) = true.
Proof.
  induction p as [|a p IH]; [apply startswith_nil|].
  now rewrite append_cons, startswith_cons, Ascii.eqb_refl.
Qed.

Lemma replace_sum_prefix (s : string) :
  replace "sum(" "sum([" ("sum(" +:+ s) = "sum([" +:+ replace_from "sum(" "sum([" 0 s.
Proof.
  unfold replace. rewrite !append_cons, append_nil. cbn [replace_from].
  change (String.prefix "sum(" (String "s" (String "u" (String "m" (String "(" s)))))
    with (startswith "sum(" ("sum(" +:+ s)).
  now rewrite startswith_app_self.
Qed.

Lemma sum_item_contains (c : ascii) (K ix : string) (i : Z) :
  is_upper c = false -> is_digit c = false -> contains c "+-.einfaty" = false ->
  Ascii.eqb "[" c = false -> Ascii.eqb "]" c = false ->
  is_info_name K = true -> index_literal ix = Some i ->
  contains c (sum_item K ix) = false.
Proof.
  intros Hu Hd Hm Ho Hc HK Hix. unfold sum_item.
  rewrite !contains_app, (info_name_contains c K Hu Hd HK),
    (index_literal_contains c ix i Hd Hm Hix).
  cbn [contains]. now rewrite Ho, Hc.
Qed.

Lemma eval_item_sum_item (K ix : string) (i : Z) (x : InfoValue) :
  is_info_name K = true -> index_literal ix = Some i ->
  eval_item K x (sum_item K ix) = subscript x i.
Proof.
  intros HK Hix. unfold eval_item, sum_item.
  assert (Hopen : contains "[" K = false) by now apply info_name_contains.
  assert (Hblank : skip_blanks (K +:+ "[" +:+ ix +:+ "]") = K +:+ "[" +:+ ix +:+ "]").
  { destruct K as [|a K]; [discriminate HK|]. rewrite append_cons.
    apply skip_blanks_not_blank. cbn [is_info_name] in HK.
    apply andb_true_iff in HK as [Ha _].
    destruct (Ascii.eqb_spec a " ") as [->|]; [discriminate Ha|reflexivity]. }
  rewrite Hblank. change ("[" +:+ ix +:+ "]") with (String "[" (ix +:+ "]")).
  rewrite (split1_app "[" K _ Hopen).
  rewrite (drop_last_app ix "]") by discriminate.
  change (drop_last "]") with EmptyString. rewrite append_nil_r, Hix.
  rewrite String.eqb_refl.
  change (String.length (ix +:+ "]") - 1) with (String.length (ix +:+ "]") - String.length "]").
  rewrite drop_length_app. reflexivity.
Qed.

Lemma eval_items_sum_items (K : string) (l : list num) (ixs : list string) (ns : list Z) :
  is_info_name K = true ->
  Forall2 (fun ix n => exists i : Z, index_literal ix = Some i /\ getitem l i = Ret (Int n))
    ixs ns ->
  eval_items K (List l) (map (sum_item K) ixs) = Ret (map Int ns).
Proof.
  intros HK. induction 1 as [|ix n ixs ns (i & Hix & Hget) _ IH]; [reflexivity|].
  cbn [map eval_items]. rewrite (eval_item_sum_item K ix i _ HK Hix).
  cbn [subscript]. rewrite Hget. cbn [bind]. now rewrite IH.
Qed.

Lemma join_items_head (K : string) (ixs : list string) :
  ixs <> [] -> exists rest : string, join_items K ixs = K +:+ String "[" rest.
Proof.
  destruct ixs as [|ix [|ix' ixs]]; [congruence| |]; intros _.
  - exists (ix +:+ "]"). reflexivity.
  - exists (ix +:+ "]" +:+ "," +:+ join_items K (ix' :: ixs)).
    cbn [join_items]. unfold sum_item. now rewrite !append_assoc.
Qed.

Lemma split_join_items (K : string) (ixs : list string) :
  is_info_name K = true ->
  Forall (fun ix => exists i : Z, index_literal ix = Some i) ixs ->
  ixs <> [] ->
  split "," (join_items K ixs) = map (sum_item K) ixs.
Proof.
  intros HK Hall. induction Hall as [|ix ixs [i Hix] Hall IH]; [congruence|]. intros _.
  assert (Hitem : contains "," (sum_item K ix) = false)
    by (apply (sum_item_contains "," K ix i); auto).
  destruct ixs as [|ix' ixs].
  - cbn [join_items map]. now apply split_no_sep.
  - change (join_items K (ix :: ix' :: ixs))
      with (sum_item K ix +:+ String "," (join_items K (ix' :: ixs))).
    rewrite (split_app "," _ _ Hitem), IH by discriminate. reflexivity.
Qed.

Lemma join_items_contains (c : ascii) (K : string) (ixs : list string) :
  is_upper c = false -> is_digit c = false -> contains c "+-.einfaty" = false ->
  Ascii.eqb "[" c = false -> Ascii.eqb "]" c = false -> Ascii.eqb "," c = false ->
  is_info_name K = true ->
  Forall (fun ix => exists i : Z, index_literal ix = Some i) ixs ->
  contains c (join_items K ixs) = false.
Proof.
  intros Hu Hd Hm Ho Hc Hs HK Hall.
  induction Hall as [|ix ixs [i Hix] Hall IH]; [reflexivity|].
  pose proof (sum_item_contains c K ix i Hu Hd Hm Ho Hc HK Hix) as Hitem.
  destruct ixs as [|ix' ixs]; [exact Hitem|].
  change (join_items K (ix :: ix' :: ixs))
    with (sum_item K ix +:+ String "," (join_items K (ix' :: ixs))).
  now rewrite contains_app, contains_cons, Hitem, Hs, IH.
Qed.

(** The expression that [_filter_line] builds from the key. *)
Lemma sum_expr_sum_key (K : string) (ixs : list string) :
  is_info_name K = true ->
  Forall (fun ix => exists i : Z, index_literal ix = Some i) ixs ->
  sum_expr (sum_key K ixs) = "sum([" +:+ join_items K ixs +:+ "])".
Proof.
  intros HK Hall. unfold sum_expr, sum_key.
  rewrite replace_sum_prefix.
  rewrite replace_no_s
    by (rewrite contains_app, (join_items_contains "s" K ixs) by auto; reflexivity).
  rewrite <- (append_assoc "sum([" (join_items K ixs) ")").
  rewrite (drop_last_app _ ")") by discriminate.
  change (drop_last ")") with EmptyString.
  now rewrite append_nil_r, append_assoc.
Qed.

(** X28.  A rule [sum(K[i1],...,K[in])] on a list annotation [K] whose
    selected entries are integers is decided on their sum: the record is
    discarded, with one message, when the threshold expression holds for
    the sum, and kept at once otherwise; the rules that follow are not
    evaluated either way. *)
Theorem sum_rule_decides_on_the_sum (v : VariantRecord) (iline : option Z)
    (K thr : string) (ixs : list string) (l : list num) (ns : list Z)
    (rules : list (string * string)) :
  is_info_name K = true ->
  ixs <> [] ->
  INFO v !! K = Some (List l) ->
  Forall2 (fun ix n => exists i : Z, index_literal ix = Some i /\ getitem l i = Ret (Int n))
    ixs ns ->
  info_rules v iline ((sum_key K ixs, thr) :: rules)
  = (hit <~ lift (_filter_info_field (Int (sum_Z ns)) thr) ;;
     if hit then
       _ <~ debug (DebugSum (Int (sum_Z ns)) (sum_expr (sum_key K ixs)) thr) ;;
       mret false
     else mret true).
Proof.
  intros HK Hne Hinfo Hitems.
  assert (Hall : Forall (fun ix => exists i : Z, index_literal ix = Some i) ixs).
  { clear -Hitems. induction Hitems as [|ix n ixs ns (i & Hix & _) _ IH]; constructor; eauto. }
  pose proof (sum_expr_sum_key K ixs HK Hall) as Hexpr.
  assert (Hmykey : sum_mykey (sum_key K ixs) = K).
  { unfold sum_mykey. rewrite Hexpr.
    change (drop 5 ("sum([" +:+ join_items K ixs +:+ "])")) with (join_items K ixs +:+ "])").
    destruct (join_items_head K ixs Hne) as [rest ->].
    rewrite append_assoc, append_cons.
    rewrite split_app by now apply info_name_contains. reflexivity. }
  assert (Heval : eval_sum (sum_expr (sum_key K ixs)) K (List l) = Ret (Int (sum_Z ns))).
  { unfold eval_sum. rewrite Hexpr, HK.
    rewrite startswith_app_self.
    rewrite <- (append_assoc "sum([" (join_items K ixs) "])").
    change (String.length (("sum([" +:+ join_items K ixs) +:+ "])") - 2)
      with (String.length (("sum([" +:+ join_items K ixs) +:+ "])") - String.length "])").
    rewrite drop_length_app. cbn [andb String.eqb Ascii.eqb Bool.eqb].
    rewrite (append_assoc "sum([" (join_items K ixs) "])").
    change (drop 5 ("sum([" +:+ join_items K ixs +:+ "])")) with (join_items K ixs +:+ "])").
    rewrite (drop_last_app _ "])") by discriminate.
    change (drop_last "])") with "]".
    rewrite (drop_last_app _ "]") by discriminate.
    change (drop_last "]") with EmptyString. rewrite append_nil_r.
    rewrite (split_join_items K ixs HK Hall Hne).
    rewrite (eval_items_sum_items K l ixs ns HK Hitems). cbn [bind].
    now rewrite sum_from_ints, Z.add_0_l. }
  cbn [info_rules]. unfold info_rule.
  assert (String.eqb (sum_key K ixs) "PV4" = false) as -> by reflexivity.
  assert (startswith "sum(" (sum_key K ixs) = true) as -> by apply startswith_app_self.
  rewrite mbind_mret.
  fold (sum_expr (sum_key K ixs)). fold (sum_mykey (sum_key K ixs)).
  rewrite Hmykey, Hinfo, Heval, mbind_lift_ret.
  destruct (_filter_info_field (Int (sum_Z ns)) thr) as [[]|e]; reflexivity.
Qed.

Lemma sum_rule_decides_on_the_sum_witness :
  sum_key "DP4" ["2"; "0"] = "sum(DP4[2],DP4[0])" /\
  info_rules snp_record (Some 0%Z) [("sum(DP4[2],DP4[0])", "<6"); ("DP", "<50")]
  = (hit <~ lift (_filter_info_field (Int (sum_Z [5; 0]%Z)) "<6") ;;
     if hit then
       _ <~ debug (DebugSum (Int (sum_Z [5; 0]%Z)) (sum_expr (sum_key "DP4" ["2"; "0"])) "<6") ;;
       mret false
     else mret true).
Proof.
  split; [reflexivity|].
  apply (sum_rule_decides_on_the_sum snp_record (Some 0%Z) "DP4" "<6" ["2"; "0"]
           [Int 0; Int 0; Int 5; Int 5] [5; 0]%Z [("DP", "<50")]).
  - reflexivity.
  - discriminate.
  - vm_compute. reflexivity.
  - constructor; [exists 2%Z; split; reflexivity|].
    constructor; [exists 0%Z; split; reflexivity|]. constructor.
Defined.

(** ** The two operators together *)

Lemma lstrip_idem (s : string) : lstrip (lstrip s) = lstrip s.
Proof.
  induction s as [|c s IH]; simpl; [reflexivity|].
  destruct (is_space c) eqn:E; [exact IH|]. simpl. now rewrite E.
Qed.

Lemma rstrip_idem (s : string) : rstrip (rstrip s) = rstrip s.
Proof.
  induction s as [|c s IH]; simpl; [reflexivity|].
  destruct (rstrip s) as [|b r] eqn:Er.
  - destruct (is_space c) eqn:E; simpl; [reflexivity|]. now rewrite E.
  - change (rstrip (String c (String b r)))
      with (match rstrip (String b r) with
            | EmptyString => if is_space c then EmptyString else String c EmptyString
            | r' => String c r'
            end).
    rewrite IH. reflexivity.
Qed.

Lemma rstrip_lstrip (s : string) : rstrip (lstrip s) = lstrip (rstrip s).
Proof.
  induction s as [|c s IH]; simpl; [reflexivity|].
  destruct (is_space c) eqn:E.
  - rewrite IH. destruct (rstrip s) as [|b r]; simpl; now rewrite ?E.
  - change (rstrip (String c s))
      with (match rstrip s with
            | EmptyString => if is_space c then EmptyString else String c EmptyString
            | r' => String c r'
            end).
    rewrite E. destruct (rstrip s); simpl; now rewrite E.
Qed.

Lemma strip_lstrip (s : string) : strip (lstrip s) = strip s.
Proof. unfold strip. now rewrite rstrip_lstrip, lstrip_idem. Qed.

Lemma strip_rstrip (s : string) : strip (rstrip s) = strip s.
Proof. unfold strip. now rewrite rstrip_idem. Qed.

(** What precedes a character that is not white space is kept by
    [rstrip], what follows it by [lstrip]. *)
Lemma rstrip_app (c : ascii) (x y : string) :
  is_space c = false -> rstrip (x +:+ String c y) = x +:+ String c (rstrip y).
Proof.
  intros Hc. induction x as [|a x IH].
  - change (EmptyString +:+ ?t) with t.
    change (rstrip (String c y))
      with (match rstrip y with
            | EmptyString => if is_space c then EmptyString else String c EmptyString
            | r' => String c r'
            end).
    rewrite Hc. now destruct (rstrip y).
  - change (String a x +:+ ?t) with (String a (x +:+ t)).
    change (rstrip (String a (x +:+ String c y)))
      with (match rstrip (x +:+ String c y) with
            | EmptyString => if is_space a then EmptyString else String a EmptyString
            | r' => String a r'
            end).
    rewrite IH. now destruct x.
Qed.

Lemma lstrip_app (c : ascii) (x y : string) :
  is_space c = false -> lstrip (x +:+ String c y) = lstrip x +:+ String c y.
Proof.
  intros Hc. induction x as [|a x IH]; simpl.
  - now rewrite Hc.
  - destruct (is_space a); [exact IH|reflexivity].
Qed.

Lemma strip_app (c : ascii) (x y : string) :
  is_space c = false -> strip (x +:+ String c y) = lstrip x +:+ String c (rstrip y).
Proof. intros Hc. unfold strip. now rewrite rstrip_app, lstrip_app. Qed.

(** The two operators, one at a time. *)
Lemma filter_info_field_and (v : num) (X Y : string) :
  contains "&" X = false -> contains "&" Y = false ->
  _filter_info_field v (X +:+ String "&" Y)
  = (a <- _filter_info_field v (strip X) ;;
     if a then _filter_info_field v (strip Y) else Ret false).
Proof.
  intros HX HY. unfold _filter_info_field at 1.
  rewrite filter_info_field_fuel_S. unfold filter_info_field_body.
  rewrite contains_app, contains_cons. change (Ascii.eqb "&" "&") with true.
  rewrite orb_true_r.
  rewrite (split_app "&" X Y HX), (split_no_sep "&" Y HY).
  rewrite <- (filter_info_field_fuel_or 1 v (strip X)) by now apply contains_strip.
  rewrite <- (filter_info_field_fuel_or 1 v (strip Y)) by now apply contains_strip.
  reflexivity.
Qed.

Lemma filter_info_field_or (v : num) (X Y : string) :
  contains "&" X = false -> contains "|" X = false ->
  contains "&" Y = false -> contains "|" Y = false ->
  _filter_info_field v (X +:+ String "|" Y)
  = (a <- _filter_info_field v (strip X) ;;
     if a then Ret true else _filter_info_field v (strip Y)).
Proof.
  intros HX HXo HY HYo. unfold _filter_info_field at 1.
  rewrite filter_info_field_fuel_S. unfold filter_info_field_body.
  rewrite !contains_app, !contains_cons, HX, HY.
  change (Ascii.eqb "|" "&") with false. change (Ascii.eqb "|" "|") with true.
  rewrite orb_true_r. cbn [orb].
  rewrite (split_app "|" X Y HXo), (split_no_sep "|" Y HYo).
  rewrite <- (filter_info_field_fuel_or 1 v (strip X)) by now apply contains_strip.
  rewrite <- (filter_info_field_fuel_or 1 v (strip Y)) by now apply contains_strip.
  reflexivity.
Qed.

(** Stripping an alternative changes nothing: its two sides are stripped
    again. *)
Lemma filter_info_field_strip_or (v : num) (X Y : string) :
  contains "&" X = false -> contains "|" X = false ->
  contains "&" Y = false -> contains "|" Y = false ->
  _filter_info_field v (strip (X +:+ String "|" Y))
  = _filter_info_field v (X +:+ String "|" Y).
Proof.
  intros HX HXo HY HYo.
  rewrite (strip_app "|" X Y eq_refl).
  rewrite !filter_info_field_or; try assumption;
    try (now apply contains_lstrip); try (now apply contains_rstrip).
  now rewrite strip_lstrip, strip_rstrip.
Qed.

(** X29.  [&] binds weaker than [|]: for clauses [X], [Y] and [Z], the
    expression [X|Y&Z] is the conjunction of [X|Y] and [Z], and [X&Y|Z]
    the conjunction of [X] and [Y|Z]; the right side is evaluated only when
    the left one holds. *)
Theorem and_binds_weaker_than_or (v : num) (X Y Z : string) :
  contains "&" X = false -> contains "|" X = false ->
  contains "&" Y = false -> contains "|" Y = false ->
  contains "&" Z = false -> contains "|" Z = false ->
  _filter_info_field v (X +:+ "|" +:+ Y +:+ "&" +:+ Z)
  = (a <- _filter_info_field v (X +:+ "|" +:+ Y) ;;
     if a then _filter_info_field v (strip Z) else Ret false)
  /\
  _filter_info_field v (X +:+ "&" +:+ Y +:+ "|" +:+ Z)
  = (a <- _filter_info_field v (strip X) ;;
     if a then _filter_info_field v (Y +:+ "|" +:+ Z) else Ret false).
Proof.
  intros HX HXo HY HYo HZ HZo.
  change ("|" +:+ ?t) with (String "|" t). change ("&" +:+ ?t) with (String "&" t).
  split.
  - replace (X +:+ String "|" (Y +:+ String "&" Z))
      with ((X +:+ String "|" Y) +:+ String "&" Z)
      by (rewrite append_assoc, append_cons; reflexivity).
    rewrite filter_info_field_and; [|rewrite contains_app, contains_cons, HX, HY; reflexivity|assumption].
    now rewrite filter_info_field_strip_or.
  - rewrite filter_info_field_and;
      [|assumption|rewrite contains_app, contains_cons, HY, HZ; reflexivity].
    now rewrite filter_info_field_strip_or.
Qed.

Lemma and_binds_weaker_than_or_witness :
  _filter_info_field (Int 40) ("<50" +:+ "|" +:+ ">100" +:+ "&" +:+ ">60") = Ret false /\
  _filter_info_field (Int 40) ("<50" +:+ "|" +:+ ">100" +:+ "&" +:+ ">60")
  = (a <- _filter_info_field (Int 40) ("<50" +:+ "|" +:+ ">100") ;;
     if a then _filter_info_field (Int 40) (strip ">60") else Ret false).
Proof.
  split; [vm_compute; reflexivity|].
  apply (proj1 (and_binds_weaker_than_or (Int 40) "<50" ">100" ">60"
                  eq_refl eq_refl eq_refl eq_refl eq_refl eq_refl)).
Defined.

(** ** White space in a clause *)

Lemma blank_contains (c : ascii) (ws : string) :
  is_number_space c = false -> blank ws = true -> contains c ws = false.
Proof.
  intros Hc. induction ws as [|a ws IH]; simpl; [reflexivity|].
  intros H. apply andb_true_iff in H as [Ha Hws]. rewrite (IH Hws), orb_false_r.
  destruct (Ascii.eqb_spec a c) as [->|]; [congruence|reflexivity].
Qed.

Section StripBy.
Variable p : ascii -> bool.

Lemma rstrip_by_cons (a : ascii) (s : string) :
  rstrip_by p (String a s)
  = match rstrip_by p s with
    | EmptyString => if p a then EmptyString else String a EmptyString
    | r => String a r
    end.
Proof. reflexivity. Qed.

Lemma lstrip_by_idem (s : string) : lstrip_by p (lstrip_by p s) = lstrip_by p s.
Proof.
  induction s as [|c s IH]; simpl; [reflexivity|].
  destruct (p c) eqn:E; [exact IH|]. simpl. now rewrite E.
Qed.

Lemma rstrip_lstrip_by (s : string) :
  rstrip_by p (lstrip_by p s) = lstrip_by p (rstrip_by p s).
Proof.
  induction s as [|c s IH]; [reflexivity|].
  rewrite rstrip_by_cons. cbn [lstrip_by]. destruct (p c) eqn:E.
  - rewrite IH. destruct (rstrip_by p s) as [|b r]; simpl; now rewrite ?E.
  - rewrite rstrip_by_cons. destruct (rstrip_by p s); simpl; now rewrite E.
Qed.

Lemma lstrip_by_all (ws t : string) :
  (forall c, contains c ws = true -> p c = true) ->
  lstrip_by p (ws +:+ t) = lstrip_by p t.
Proof.
  induction ws as [|a ws IH]; intros H; [reflexivity|].
  rewrite append_cons. cbn [lstrip_by].
  rewrite (H a) by (rewrite contains_cons, Ascii.eqb_refl; reflexivity).
  apply IH. intros c Hc. apply H. rewrite contains_cons, Hc. apply orb_true_r.
Qed.

Lemma rstrip_by_all (ws : string) :
  (forall c, contains c ws = true -> p c = true) -> rstrip_by p ws = EmptyString.
Proof.
  induction ws as [|a ws IH]; intros H; [reflexivity|].
  rewrite rstrip_by_cons, IH.
  - now rewrite (H a) by (rewrite contains_cons, Ascii.eqb_refl; reflexivity).
  - intros c Hc. apply H. rewrite contains_cons, Hc. apply orb_true_r.
Qed.

Lemma rstrip_by_app_all (t ws : string) :
  (forall c, contains c ws = true -> p c = true) ->
  rstrip_by p (t +:+ ws) = rstrip_by p t.
Proof.
  intros H. induction t as [|a t IH].
  - rewrite append_nil. now apply rstrip_by_all.
  - rewrite append_cons, !rstrip_by_cons. now rewrite IH.
Qed.
End StripBy.

Lemma blank_spaces (ws : string) :
  blank ws = true -> forall c, contains c ws = true -> is_number_space c = true.
Proof.
  induction ws as [|a ws IH]; simpl; [discriminate|].
  intros H c Hc. apply andb_true_iff in H as [Ha Hws].
  apply orb_true_iff in Hc as [Hc|Hc]; [|now apply IH].
  apply Ascii.eqb_eq in Hc. now subst c.
Qed.

Lemma strip_number_blanks (ws1 s ws2 : string) :
  blank ws1 = true -> blank ws2 = true ->
  strip_number (ws1 +:+ s +:+ ws2) = strip_number s.
Proof.
  intros H1 H2. unfold strip_number.
  rewrite <- append_assoc, (rstrip_by_app_all _ _ ws2 (blank_spaces ws2 H2)).
  rewrite <- rstrip_lstrip_by, (lstrip_by_all _ ws1 s (blank_spaces ws1 H1)).
  apply rstrip_lstrip_by.
Qed.

Lemma blank_no_underscore (ws : string) : blank ws = true -> contains "_" ws = false.
Proof. now apply blank_contains. Qed.

Lemma remove_underscores_app (s t : string) :
  remove_underscores (s +:+ t) = remove_underscores s +:+ remove_underscores t.
Proof.
  induction s as [|a s IH]; [reflexivity|].
  rewrite append_cons. cbn [remove_underscores].
  destruct (Ascii.eqb a "_"); [exact IH|]. now rewrite append_cons, IH.
Qed.

Lemma remove_underscores_none (s : string) :
  contains "_" s = false -> remove_underscores s = s.
Proof.
  induction s as [|a s IH]; [reflexivity|].
  rewrite contains_cons. intros H. apply orb_false_iff in H as [Ha Hs].
  cbn [remove_underscores]. now rewrite Ha, (IH Hs).
Qed.

(** The check looks at the character before the text only to tell a digit
    and an underscore from the rest. *)
Lemma underscores_ok_prev (prev prev' : ascii) (s : string) :
  is_digit prev = false -> Ascii.eqb prev "_" = false ->
  is_digit prev' = false -> Ascii.eqb prev' "_" = false ->
  underscores_ok prev s = underscores_ok prev' s.
Proof.
  intros Hd Hu Hd' Hu'. destruct s as [|c s]; cbn [underscores_ok].
  - now rewrite Hu, Hu'.
  - now rewrite Hd, Hu, Hd', Hu'.
Qed.

Lemma blank_head (a : ascii) :
  is_number_space a = true -> is_digit a = false /\ Ascii.eqb a "_" = false.
Proof.
  intros Ha. split.
  - destruct (is_digit a) eqn:E; [|reflexivity].
    destruct a as [[] [] [] [] [] [] [] []]; discriminate.
  - destruct (Ascii.eqb_spec a "_") as [->|]; [discriminate Ha|reflexivity].
Qed.

Lemma underscores_ok_blank_l (ws t : string) (prev : ascii) :
  blank ws = true -> is_digit prev = false -> Ascii.eqb prev "_" = false ->
  underscores_ok prev (ws +:+ t) = underscores_ok prev t.
Proof.
  revert prev. induction ws as [|a ws IH]; intros prev H Hd Hu; [reflexivity|].
  cbn [blank] in H. apply andb_true_iff in H as [Ha Hws].
  destruct (blank_head a Ha) as [Had Hau].
  rewrite append_cons. cbn [underscores_ok]. rewrite Hau, Hu. cbn [andb].
  rewrite (IH a Hws Had Hau). now apply underscores_ok_prev.
Qed.

Lemma underscores_ok_blank (ws : string) (prev : ascii) :
  blank ws = true ->
  underscores_ok prev ws = negb (Ascii.eqb prev "_").
Proof.
  revert prev. induction ws as [|a ws IH]; intros prev H; [reflexivity|].
  cbn [blank] in H. apply andb_true_iff in H as [Ha Hws].
  destruct (blank_head a Ha) as [Had Hau].
  cbn [underscores_ok]. rewrite Hau, (IH a Hws), Hau, Had.
  now destruct (Ascii.eqb prev "_").
Qed.

Lemma underscores_ok_blank_r (t ws : string) (prev : ascii) :
  blank ws = true -> underscores_ok prev (t +:+ ws) = underscores_ok prev t.
Proof.
  intros H. revert prev. induction t as [|a t IH]; intros prev.
  - rewrite append_nil. now apply underscores_ok_blank.
  - rewrite append_cons. cbn [underscores_ok]. now rewrite IH.
Qed.

(** [float] reads a number with white space around it as the number. *)
Lemma float_of_string_blanks (ws1 s ws2 : string) :
  blank ws1 = true -> blank ws2 = true ->
  float_of_string (ws1 +:+ s +:+ ws2) = float_of_string s.
Proof.
  intros H1 H2. unfold float_of_string.
  rewrite (underscores_ok_blank_l ws1 _ Ascii.zero H1 eq_refl eq_refl).
  rewrite (underscores_ok_blank_r s ws2 Ascii.zero H2).
  rewrite !remove_underscores_app.
  rewrite (remove_underscores_none ws1 (blank_no_underscore ws1 H1)).
  rewrite (remove_underscores_none ws2 (blank_no_underscore ws2 H2)).
  now rewrite (strip_number_blanks ws1 _ ws2 H1 H2).
Qed.

(** The four comparators on a clause whose number is read. *)
Lemma clause_comparators (v : num) (body : string) (t : spec_float) :
  float_of_string body = Ret t ->
  contains "&" body = false -> contains "|" body = false ->
  startswith "=" body = false ->
  _filter_info_field v ("<" +:+ body) = Ret (lt v (Float t)) /\
  _filter_info_field v ("<=" +:+ body) = Ret (le v (Float t)) /\
  _filter_info_field v (">" +:+ body) = Ret (gt v (Float t)) /\
  _filter_info_field v (">=" +:+ body) = Ret (ge v (Float t)).
Proof.
  intros Hs Hand Hor Hpre.
  change ("<" +:+ body) with (String "<" body).
  change ("<=" +:+ body) with (String "<" (String "=" body)).
  change (">" +:+ body) with (String ">" body).
  change (">=" +:+ body) with (String ">" (String "=" body)).
  unfold _filter_info_field. rewrite !filter_info_field_fuel_S.
  unfold filter_info_field_body.
  rewrite !contains_cons, Hand, Hor, !startswith_cons, !startswith_nil, Hpre.
  cbn [Ascii.eqb Bool.eqb orb andb drop]. rewrite Hs.
  cbn [bind]. rewrite !if_bool_ret. auto.
Qed.

(** X30.  The white space that [float] skips (TAB, LF, VT, FF, CR, the
    space, NEL and the no-break space), put between the comparator and the
    number and after the number, is ignored: the clause is evaluated as
    without it. *)
Theorem blanks_around_the_number_are_ignored (v : num) (ws1 s ws2 : string) (t : spec_float) :
  float_of_string s = Ret t ->
  blank ws1 = true -> blank ws2 = true ->
  _filter_info_field v ("<" +:+ ws1 +:+ s +:+ ws2) = Ret (lt v (Float t)) /\
  _filter_info_field v ("<=" +:+ ws1 +:+ s +:+ ws2) = Ret (le v (Float t)) /\
  _filter_info_field v (">" +:+ ws1 +:+ s +:+ ws2) = Ret (gt v (Float t)) /\
  _filter_info_field v (">=" +:+ ws1 +:+ s +:+ ws2) = Ret (ge v (Float t)).
Proof.
  intros Hs H1 H2. destruct (float_of_string_text s t Hs) as (Hand & Hor & Heq).
  assert (Hc : forall c : ascii,
             is_number_space c = false -> contains c s = false ->
             contains c (ws1 +:+ s +:+ ws2) = false).
  { intros c Hc Hcs.
    now rewrite !contains_app, (blank_contains c ws1 Hc H1), Hcs, (blank_contains c ws2 Hc H2). }
  apply clause_comparators.
  - rewrite <- Hs. now apply float_of_string_blanks.
  - now apply Hc.
  - now apply Hc.
  - apply startswith_char. now apply Hc.
Qed.

Lemma blanks_around_the_number_are_ignored_witness :
  _filter_info_field (Int 40) "< 50 " = Ret true /\
  _filter_info_field (Int 40) ">=  50" = Ret false.
Proof.
  split.
  - exact (proj1 (blanks_around_the_number_are_ignored (Int 40) " " "50" " "
                    (round_Z 50) eq_refl eq_refl eq_refl)).
  - exact (proj2 (proj2 (proj2 (blanks_around_the_number_are_ignored (Int 40) "  " "50" ""
                                  (round_Z 50) eq_refl eq_refl eq_refl)))).
Defined.
